(** * Study Guide Generator front end (static/app.js)

    A shallow embedding of the page script.  The script is event driven:
    every handler runs to completion on the browser's single thread, and an
    [async] function that reaches [await fetch(...)] parks its continuation
    until the response arrives.  The page is therefore a state machine

      [step : Page -> event -> Page]

    whose state holds the script's objects ([UIState], [UIComponents],
    [SelectionHandler]), the part of the DOM the script touches, the log of
    the fetches it issued and the parked continuations.

    What belongs to the JavaScript host and not to the script is taken as an
    interface ([Host]): the conversion of a string to a Number and the
    Markdown renderer [marked.parse]. *)

From Stdlib Require Import Ascii String QArith DecimalString.
From stdpp Require Import base list sets strings.

Local Open Scope string_scope.
Local Open Scope list_scope.

(** ** JavaScript values that reach the loop bound *)

(** A Number as far as [step < maxSteps] can tell numbers apart. *)
Inductive jsnumber :=
  | NaN
  | Finite (q : Q)
  | PosInfinity
  | NegInfinity.

(** [this.ui.maxSteps] is the Number 1 or the string held by the input. *)
Inductive jsvalue :=
  | VNumber (n : jsnumber)
  | VString (s : string).

(** ** Host interface *)

Class Host := {
  (** ToNumber on a string (the abstract relational comparison applies it
      to [formData.maxSteps] when that is a string). *)
  StringToNumber : string -> jsnumber;
  (** [marked.parse] on a string (the library is taken as loaded by the time
      a response arrives). *)
  marked_parse : string -> string;
  (** message of the exception [marked.parse] raises on [undefined]. *)
  marked_no_input : string;
  (** message of the TypeError raised by [null.remove()]. *)
  null_deref : string
}.

(** Truthiness of a string: the empty string is the only falsy one. *)
Definition truthy (s : string) : bool :=
  match s with
  | EmptyString => false
  | String _ _ => true
  end.

(** [a || b] on optional strings where an absent property is [undefined]. *)
Definition or_else (a : option string) (b : string) : string :=
  match a with
  | Some s => if truthy s then s else b
  | None => b
  end.

(** *** Strings

    A JavaScript string is held as the UTF-8 encoding of its text, one
    [ascii] for each byte. *)

(** The UTF-8 encoding of a code point of the Basic Multilingual Plane. *)
Definition utf8 (cp : N) : string :=
  if (cp <? 128)%N then String (ascii_of_N cp) ""
  else if (cp <? 2048)%N then
    String (ascii_of_N (192 + cp / 64))
      (String (ascii_of_N (128 + cp mod 64)) "")
  else
    String (ascii_of_N (224 + cp / 4096))
      (String (ascii_of_N (128 + (cp / 64) mod 64))
         (String (ascii_of_N (128 + cp mod 64)) "")).

(** The code points [String.prototype.trim] strips, which are those
    ToNumber skips around a numeric literal: WhiteSpace of ECMAScript (TAB,
    VT, FF, ZWNBSP and the space separators of Unicode, NBSP among them)
    and LineTerminator (LF, CR, LS, PS). *)
Definition white_space : list N :=
  [0x0009; 0x000B; 0x000C; 0xFEFF;
   0x0020; 0x00A0; 0x1680; 0x2000; 0x2001; 0x2002; 0x2003; 0x2004; 0x2005;
   0x2006; 0x2007; 0x2008; 0x2009; 0x200A; 0x202F; 0x205F; 0x3000;
   0x000A; 0x000D; 0x2028; 0x2029]%N.

(** [s] without its prefix [p]. *)
Fixpoint strip_prefix (p s : string) : option string :=
  match p, s with
  | EmptyString, _ => Some s
  | String a p', String b s' =>
      if Ascii.eqb a b then strip_prefix p' s' else None
  | String _ _, EmptyString => None
  end.

(** [s] without the one of [patterns] it starts with. *)
Definition skip_one (patterns : list string) (s : string) : option string :=
  foldr (fun p rest => match strip_prefix p s with
                       | Some r => Some r
                       | None => rest
                       end) None patterns.

(** [s] without the [patterns] it starts with, one after the other; as many
    rounds as [s] has bytes are enough ([skip_all_done]). *)
Fixpoint skip_all (patterns : list string) (fuel : nat) (s : string)
  : string :=
  match fuel with
  | 0 => s
  | S fuel =>
      match skip_one patterns s with
      | Some r => skip_all patterns fuel r
      | None => s
      end
  end.

Definition trimStart (s : string) : string :=
  skip_all (utf8 <$> white_space) (String.length s) s.

(** At the end of well-formed UTF-8 a character is white space exactly
    when the text ends with its encoding: no encoding is the end of
    another one. *)
Definition trimEnd (s : string) : string :=
  String.rev
    (skip_all (String.rev <$> (utf8 <$> white_space)) (String.length s)
       (String.rev s)).

(** [String.prototype.trim] *)
Definition trim (s : string) : string := trimEnd (trimStart s).

(** Template literal [${n}] for a non-negative integer. *)
Definition string_of_nat (n : nat) : string :=
  NilZero.string_of_uint (Nat.to_uint n).

(** [step < x] for a loop counter [step] (a non-negative integer). *)
Definition nat_lt_number (step : nat) (x : jsnumber) : bool :=
  match x with
  | NaN => false
  | Finite q => (Z.of_nat step * Zpos (Qden q) <? Qnum q)%Z
  | PosInfinity => true
  | NegInfinity => false
  end.

Definition ToNumber `{Host} (v : jsvalue) : jsnumber :=
  match v with
  | VNumber n => n
  | VString s => StringToNumber s
  end.

Definition lt_maxSteps `{Host} (step : nat) (m : jsvalue) : bool :=
  nat_lt_number step (ToNumber m).

(** ** Constants *)

Module API_ENDPOINTS.
Definition GENERATE : string := "/generate".
Definition COMPONENT_DETAILS : string := "/get_component_details".
End API_ENDPOINTS.

(** ** Data *)

(** The five inputs read from the form when it is submitted. *)
Record formInputs := {
  in_subject : string;
  in_currentLevel : string;
  in_timeAvailable : string;
  in_learningStyle : string;
  in_goal : string
}.

Record formData := {
  subject : string;
  currentLevel : string;
  timeAvailable : string;
  learningStyle : string;
  goal : string;
  maxSteps : jsvalue
}.

(** The object handed to [JSON.stringify] for a request body. *)
Inductive requestBody :=
  | GenerateBody (fd : formData) (step : nat) (previous : list string)
  | DetailsBody (component subject : string).

Record request := {
  url : string;
  method : string;
  contentType : string;
  body : requestBody
}.

(** What a response carries once [response.json()] has been awaited. *)
Inductive responseBody :=
  | BodyInvalid (msg : string)
      (* json() rejects, or the JSON is null and reading a property throws *)
  | BodyObject (error response : option string).

Inductive outcome :=
  | NetworkError (msg : string)        (* fetch rejects *)
  | HttpResponse (status : nat) (b : responseBody).

(** [response.ok] *)
Definition ok (status : nat) : bool :=
  Nat.leb 200 status && Nat.leb status 299.

(** The fragments the script writes into [innerHTML]. *)
Inductive html :=
  | NoContent
  | Rendered (markup : string)     (* output of marked.parse *)
  | ErrorDiv (text : string)       (* <div class=text-red-600>text</div> *)
  | LoadingText (text : string).   (* <div class=loading-text>text</div> *)

(** A step-card element. *)
Record card := {
  data_step : nat;
  loading_bar : bool;
  loading_text : bool;
  step_content : html
}.

(** A floating-button element. *)
Record button := {
  displayed : bool;       (* style.display is block (true) or none (false) *)
  listeners : nat         (* click listeners registered with once: true *)
}.

(** A node of the document as [findStepCard] sees it: the class lists on
    the chain of elements from the node upwards. *)
Inductive node :=
  | TextNode (parents : list (list string))
  | ElementNode (self : list string) (parents : list (list string)).

(** [window.getSelection()] as the handlers read it. *)
Record selection := {
  sel_text : string;                 (* toString() *)
  rangeCount : nat;
  commonAncestorContainer : node;    (* of getRangeAt(0) *)
  rect_empty : bool                  (* width === 0 || height === 0 *)
}.

(** Event targets the handlers distinguish. *)
Inductive target :=
  | OnButton (b : nat)     (* a floating-button element *)
  | OnModal                (* the modal backdrop itself *)
  | OnCloseModal
  | Elsewhere.

(** A parked continuation, resumed when its fetch settles. *)
Inductive task :=
  | GenerateTask (sub : nat) (fd : formData) (step : nat) (stepCard : nat)
  | ExplainTask.

Definition task_origin (k : task) : option nat :=
  match k with
  | GenerateTask sub _ _ _ => Some sub
  | ExplainTask => None
  end.

(** ** Page state *)

Record Page := {
  (* UIState *)
  isModalLoading : bool;
  previousResponses : list string;
  floatingButton : option nat;
  currentSelection : string;
  (* SelectionHandler *)
  currentSubject : string;
  (* UIComponents *)
  ui_maxSteps : jsvalue;
  (* document *)
  cards : list card;            (* every step card created, by identity *)
  resultsDiv : list nat;        (* children of #results *)
  buttons : list button;        (* every floating button created *)
  bodyButtons : list nat;       (* floating buttons attached to body *)
  modalTitle : string;
  modalContent : html;
  modalHidden : bool;
  modalLoadingClass : bool;
  timeDisplay : string;
  headScripts : list string;
  (* network *)
  requests : list request;      (* every fetch issued, oldest first *)
  pending : list (nat * task);  (* fetches in flight, with continuation *)
  (* history variables: the submission each fetch belongs to (None for an
     explanation), and the number of submit events handled *)
  origins : list (option nat);
  submissions : nat
}.

(** Field updates ([this.f = v]). *)

Definition set_isModalLoading (v : bool) (s : Page) : Page :=
  {| isModalLoading := v; previousResponses := previousResponses s;
     floatingButton := floatingButton s;
     currentSelection := currentSelection s;
     currentSubject := currentSubject s; ui_maxSteps := ui_maxSteps s;
     cards := cards s; resultsDiv := resultsDiv s; buttons := buttons s;
     bodyButtons := bodyButtons s; modalTitle := modalTitle s;
     modalContent := modalContent s; modalHidden := modalHidden s;
     modalLoadingClass := modalLoadingClass s; timeDisplay := timeDisplay s;
     headScripts := headScripts s; requests := requests s;
     pending := pending s; origins := origins s;
     submissions := submissions s |}.

Definition set_previousResponses (v : list string) (s : Page) : Page :=
  {| isModalLoading := isModalLoading s; previousResponses := v;
     floatingButton := floatingButton s;
     currentSelection := currentSelection s;
     currentSubject := currentSubject s; ui_maxSteps := ui_maxSteps s;
     cards := cards s; resultsDiv := resultsDiv s; buttons := buttons s;
     bodyButtons := bodyButtons s; modalTitle := modalTitle s;
     modalContent := modalContent s; modalHidden := modalHidden s;
     modalLoadingClass := modalLoadingClass s; timeDisplay := timeDisplay s;
     headScripts := headScripts s; requests := requests s;
     pending := pending s; origins := origins s;
     submissions := submissions s |}.

Definition set_floatingButton (v : option nat) (s : Page) : Page :=
  {| isModalLoading := isModalLoading s;
     previousResponses := previousResponses s; floatingButton := v;
     currentSelection := currentSelection s;
     currentSubject := currentSubject s; ui_maxSteps := ui_maxSteps s;
     cards := cards s; resultsDiv := resultsDiv s; buttons := buttons s;
     bodyButtons := bodyButtons s; modalTitle := modalTitle s;
     modalContent := modalContent s; modalHidden := modalHidden s;
     modalLoadingClass := modalLoadingClass s; timeDisplay := timeDisplay s;
     headScripts := headScripts s; requests := requests s;
     pending := pending s; origins := origins s;
     submissions := submissions s |}.

Definition set_currentSelection (v : string) (s : Page) : Page :=
  {| isModalLoading := isModalLoading s;
     previousResponses := previousResponses s;
     floatingButton := floatingButton s; currentSelection := v;
     currentSubject := currentSubject s; ui_maxSteps := ui_maxSteps s;
     cards := cards s; resultsDiv := resultsDiv s; buttons := buttons s;
     bodyButtons := bodyButtons s; modalTitle := modalTitle s;
     modalContent := modalContent s; modalHidden := modalHidden s;
     modalLoadingClass := modalLoadingClass s; timeDisplay := timeDisplay s;
     headScripts := headScripts s; requests := requests s;
     pending := pending s; origins := origins s;
     submissions := submissions s |}.

Definition set_currentSubject (v : string) (s : Page) : Page :=
  {| isModalLoading := isModalLoading s;
     previousResponses := previousResponses s;
     floatingButton := floatingButton s;
     currentSelection := currentSelection s; currentSubject := v;
     ui_maxSteps := ui_maxSteps s; cards := cards s;
     resultsDiv := resultsDiv s; buttons := buttons s;
     bodyButtons := bodyButtons s; modalTitle := modalTitle s;
     modalContent := modalContent s; modalHidden := modalHidden s;
     modalLoadingClass := modalLoadingClass s; timeDisplay := timeDisplay s;
     headScripts := headScripts s; requests := requests s;
     pending := pending s; origins := origins s;
     submissions := submissions s |}.

Definition set_cards (v : list card) (s : Page) : Page :=
  {| isModalLoading := isModalLoading s;
     previousResponses := previousResponses s;
     floatingButton := floatingButton s;
     currentSelection := currentSelection s;
     currentSubject := currentSubject s; ui_maxSteps := ui_maxSteps s;
     cards := v; resultsDiv := resultsDiv s; buttons := buttons s;
     bodyButtons := bodyButtons s; modalTitle := modalTitle s;
     modalContent := modalContent s; modalHidden := modalHidden s;
     modalLoadingClass := modalLoadingClass s; timeDisplay := timeDisplay s;
     headScripts := headScripts s; requests := requests s;
     pending := pending s; origins := origins s;
     submissions := submissions s |}.

Definition set_resultsDiv (v : list nat) (s : Page) : Page :=
  {| isModalLoading := isModalLoading s;
     previousResponses := previousResponses s;
     floatingButton := floatingButton s;
     currentSelection := currentSelection s;
     currentSubject := currentSubject s; ui_maxSteps := ui_maxSteps s;
     cards := cards s; resultsDiv := v; buttons := buttons s;
     bodyButtons := bodyButtons s; modalTitle := modalTitle s;
     modalContent := modalContent s; modalHidden := modalHidden s;
     modalLoadingClass := modalLoadingClass s; timeDisplay := timeDisplay s;
     headScripts := headScripts s; requests := requests s;
     pending := pending s; origins := origins s;
     submissions := submissions s |}.

Definition set_buttons (v : list button) (s : Page) : Page :=
  {| isModalLoading := isModalLoading s;
     previousResponses := previousResponses s;
     floatingButton := floatingButton s;
     currentSelection := currentSelection s;
     currentSubject := currentSubject s; ui_maxSteps := ui_maxSteps s;
     cards := cards s; resultsDiv := resultsDiv s; buttons := v;
     bodyButtons := bodyButtons s; modalTitle := modalTitle s;
     modalContent := modalContent s; modalHidden := modalHidden s;
     modalLoadingClass := modalLoadingClass s; timeDisplay := timeDisplay s;
     headScripts := headScripts s; requests := requests s;
     pending := pending s; origins := origins s;
     submissions := submissions s |}.

Definition set_bodyButtons (v : list nat) (s : Page) : Page :=
  {| isModalLoading := isModalLoading s;
     previousResponses := previousResponses s;
     floatingButton := floatingButton s;
     currentSelection := currentSelection s;
     currentSubject := currentSubject s; ui_maxSteps := ui_maxSteps s;
     cards := cards s; resultsDiv := resultsDiv s; buttons := buttons s;
     bodyButtons := v; modalTitle := modalTitle s;
     modalContent := modalContent s; modalHidden := modalHidden s;
     modalLoadingClass := modalLoadingClass s; timeDisplay := timeDisplay s;
     headScripts := headScripts s; requests := requests s;
     pending := pending s; origins := origins s;
     submissions := submissions s |}.

Definition set_modalTitle (v : string) (s : Page) : Page :=
  {| isModalLoading := isModalLoading s;
     previousResponses := previousResponses s;
     floatingButton := floatingButton s;
     currentSelection := currentSelection s;
     currentSubject := currentSubject s; ui_maxSteps := ui_maxSteps s;
     cards := cards s; resultsDiv := resultsDiv s; buttons := buttons s;
     bodyButtons := bodyButtons s; modalTitle := v;
     modalContent := modalContent s; modalHidden := modalHidden s;
     modalLoadingClass := modalLoadingClass s; timeDisplay := timeDisplay s;
     headScripts := headScripts s; requests := requests s;
     pending := pending s; origins := origins s;
     submissions := submissions s |}.

Definition set_modalContent (v : html) (s : Page) : Page :=
  {| isModalLoading := isModalLoading s;
     previousResponses := previousResponses s;
     floatingButton := floatingButton s;
     currentSelection := currentSelection s;
     currentSubject := currentSubject s; ui_maxSteps := ui_maxSteps s;
     cards := cards s; resultsDiv := resultsDiv s; buttons := buttons s;
     bodyButtons := bodyButtons s; modalTitle := modalTitle s;
     modalContent := v; modalHidden := modalHidden s;
     modalLoadingClass := modalLoadingClass s; timeDisplay := timeDisplay s;
     headScripts := headScripts s; requests := requests s;
     pending := pending s; origins := origins s;
     submissions := submissions s |}.

Definition set_modalHidden (v : bool) (s : Page) : Page :=
  {| isModalLoading := isModalLoading s;
     previousResponses := previousResponses s;
     floatingButton := floatingButton s;
     currentSelection := currentSelection s;
     currentSubject := currentSubject s; ui_maxSteps := ui_maxSteps s;
     cards := cards s; resultsDiv := resultsDiv s; buttons := buttons s;
     bodyButtons := bodyButtons s; modalTitle := modalTitle s;
     modalContent := modalContent s; modalHidden := v;
     modalLoadingClass := modalLoadingClass s; timeDisplay := timeDisplay s;
     headScripts := headScripts s; requests := requests s;
     pending := pending s; origins := origins s;
     submissions := submissions s |}.

Definition set_modalLoadingClass (v : bool) (s : Page) : Page :=
  {| isModalLoading := isModalLoading s;
     previousResponses := previousResponses s;
     floatingButton := floatingButton s;
     currentSelection := currentSelection s;
     currentSubject := currentSubject s; ui_maxSteps := ui_maxSteps s;
     cards := cards s; resultsDiv := resultsDiv s; buttons := buttons s;
     bodyButtons := bodyButtons s; modalTitle := modalTitle s;
     modalContent := modalContent s; modalHidden := modalHidden s;
     modalLoadingClass := v; timeDisplay := timeDisplay s;
     headScripts := headScripts s; requests := requests s;
     pending := pending s; origins := origins s;
     submissions := submissions s |}.

Definition set_timeDisplay (v : string) (s : Page) : Page :=
  {| isModalLoading := isModalLoading s;
     previousResponses := previousResponses s;
     floatingButton := floatingButton s;
     currentSelection := currentSelection s;
     currentSubject := currentSubject s; ui_maxSteps := ui_maxSteps s;
     cards := cards s; resultsDiv := resultsDiv s; buttons := buttons s;
     bodyButtons := bodyButtons s; modalTitle := modalTitle s;
     modalContent := modalContent s; modalHidden := modalHidden s;
     modalLoadingClass := modalLoadingClass s; timeDisplay := v;
     headScripts := headScripts s; requests := requests s;
     pending := pending s; origins := origins s;
     submissions := submissions s |}.

Definition set_requests (v : list request) (s : Page) : Page :=
  {| isModalLoading := isModalLoading s;
     previousResponses := previousResponses s;
     floatingButton := floatingButton s;
     currentSelection := currentSelection s;
     currentSubject := currentSubject s; ui_maxSteps := ui_maxSteps s;
     cards := cards s; resultsDiv := resultsDiv s; buttons := buttons s;
     bodyButtons := bodyButtons s; modalTitle := modalTitle s;
     modalContent := modalContent s; modalHidden := modalHidden s;
     modalLoadingClass := modalLoadingClass s; timeDisplay := timeDisplay s;
     headScripts := headScripts s; requests := v; pending := pending s;
     origins := origins s; submissions := submissions s |}.

Definition set_pending (v : list (nat * task)) (s : Page) : Page :=
  {| isModalLoading := isModalLoading s;
     previousResponses := previousResponses s;
     floatingButton := floatingButton s;
     currentSelection := currentSelection s;
     currentSubject := currentSubject s; ui_maxSteps := ui_maxSteps s;
     cards := cards s; resultsDiv := resultsDiv s; buttons := buttons s;
     bodyButtons := bodyButtons s; modalTitle := modalTitle s;
     modalContent := modalContent s; modalHidden := modalHidden s;
     modalLoadingClass := modalLoadingClass s; timeDisplay := timeDisplay s;
     headScripts := headScripts s; requests := requests s; pending := v;
     origins := origins s; submissions := submissions s |}.

Definition set_origins (v : list (option nat)) (s : Page) : Page :=
  {| isModalLoading := isModalLoading s;
     previousResponses := previousResponses s;
     floatingButton := floatingButton s;
     currentSelection := currentSelection s;
     currentSubject := currentSubject s; ui_maxSteps := ui_maxSteps s;
     cards := cards s; resultsDiv := resultsDiv s; buttons := buttons s;
     bodyButtons := bodyButtons s; modalTitle := modalTitle s;
     modalContent := modalContent s; modalHidden := modalHidden s;
     modalLoadingClass := modalLoadingClass s; timeDisplay := timeDisplay s;
     headScripts := headScripts s; requests := requests s;
     pending := pending s; origins := v; submissions := submissions s |}.

Definition set_submissions (v : nat) (s : Page) : Page :=
  {| isModalLoading := isModalLoading s;
     previousResponses := previousResponses s;
     floatingButton := floatingButton s;
     currentSelection := currentSelection s;
     currentSubject := currentSubject s; ui_maxSteps := ui_maxSteps s;
     cards := cards s; resultsDiv := resultsDiv s; buttons := buttons s;
     bodyButtons := bodyButtons s; modalTitle := modalTitle s;
     modalContent := modalContent s; modalHidden := modalHidden s;
     modalLoadingClass := modalLoadingClass s; timeDisplay := timeDisplay s;
     headScripts := headScripts s; requests := requests s;
     pending := pending s; origins := origins s; submissions := v |}.

(** ** DOM primitives on a list of children *)

(** [parent.removeChild(b)].  The DOM raises NotFoundError when [b] is not a
    child; [floatingButton_attached] below shows the script never gets
    there, so the list is returned unchanged in that case. *)
Fixpoint removeChild (b : nat) (children : list nat) : list nat :=
  match children with
  | [] => []
  | c :: rest => if Nat.eqb c b then rest else c :: removeChild b rest
  end.

(** [b.replaceWith(c)]: [c] takes the place of [b]; nothing happens when
    [b] has no parent. *)
Fixpoint replaceWith (b c : nat) (children : list nat) : list nat :=
  match children with
  | [] => []
  | x :: rest => if Nat.eqb x b then c :: rest else x :: replaceWith b c rest
  end.

(** [parent.appendChild(b)]: an attached node is moved to the end. *)
Definition appendChild (b : nat) (children : list nat) : list nat :=
  removeChild b children ++ [b].

(** [b.cloneNode(true)]: attributes and inline style are copied, listeners
    are not. *)
Definition cloneNode (e : button) : button :=
  {| displayed := displayed e; listeners := 0 |}.

Definition has_class (c : string) (classList : list string) : bool :=
  bool_decide (c ∈ classList).

(** The [while] loop of [findStepCard]: climb until an element carries the
    class step-card; the result is that element with its ancestors. *)
Fixpoint closest_step_card (chain : list (list string))
  : option (list (list string)) :=
  match chain with
  | [] => None
  | e :: up => if has_class "step-card" e then Some chain
               else closest_step_card up
  end.

Definition findStepCard (n : node) : option (list (list string)) :=
  match n with
  | TextNode parents => closest_step_card parents
  | ElementNode self parents => closest_step_card (self :: parents)
  end.

(** ** class UIState *)

Definition setModalLoading (loading : bool) (s : Page) : Page :=
  set_modalLoadingClass loading (set_isModalLoading loading s).

Definition createFloatingButton (s : Page) : nat * Page :=
  match floatingButton s with
  | Some b => (b, s)
  | None =>
      let b := length (buttons s) in
      let s1 := set_floatingButton (Some b) s in
      let s2 :=
        set_buttons (buttons s1 ++ [{| displayed := false; listeners := 0 |}])
          s1 in
      (b, set_bodyButtons (appendChild b (bodyButtons s2)) s2)
  end.

Definition removeFloatingButton (s : Page) : Page :=
  match floatingButton s with
  | Some b =>
      set_floatingButton None
        (set_bodyButtons (removeChild b (bodyButtons s)) s)
  | None => s
  end.

(** ** class UIComponents *)

(** [document.getElementById('maxSteps')?.value || 1] *)
Definition read_maxSteps (element_value : option string) : jsvalue :=
  match element_value with
  | Some v => if truthy v then VString v else VNumber (Finite 1)
  | None => VNumber (Finite 1)
  end.

Definition createStepCard (stepNumber : nat) : card :=
  {| data_step := stepNumber; loading_bar := true; loading_text := true;
     step_content := NoContent |}.

Definition showError (error : string) (stepCard : card) : card :=
  {| data_step := data_step stepCard;
     loading_bar := loading_bar stepCard;
     loading_text := loading_text stepCard;
     step_content := ErrorDiv ("Error generating content: " +:+ error) |}.

(** The [formData] object [handleFormSubmit] builds. *)
Definition read_form (i : formInputs) (m : jsvalue) : formData :=
  {| subject := in_subject i;
     currentLevel := in_currentLevel i;
     timeAvailable := in_timeAvailable i;
     learningStyle := in_learningStyle i;
     goal := in_goal i;
     maxSteps := m |}.

Section Script.
Context `{Host}.

(** [updateStepCard(card, content, stepNumber)]: the card as the call
    leaves it, and the message of the exception it raised, if any. *)
Definition updateStepCard (c : card) (content : option string)
  : card * option string :=
  if negb (loading_bar c) then (c, Some null_deref) else
  let c1 := {| data_step := data_step c; loading_bar := false;
               loading_text := loading_text c;
               step_content := step_content c |} in
  if negb (loading_text c1) then (c1, Some null_deref) else
  let c2 := {| data_step := data_step c1; loading_bar := false;
               loading_text := false;
               step_content := step_content c1 |} in
  match content with
  | None => (c2, Some marked_no_input)
  | Some text =>
      ({| data_step := data_step c2; loading_bar := false;
          loading_text := false;
          step_content := Rendered (marked_parse text) |}, None)
  end.

(** ** class APIService *)

(** [fetch(url, init)] followed by [await]: the request leaves and the
    caller's continuation [k] is parked under the request's index. *)
Definition fetch (r : request) (k : task) (s : Page) : Page :=
  let id := length (requests s) in
  let s1 := set_requests (requests s ++ [r]) s in
  let s2 := set_origins (origins s1 ++ [task_origin k]) s1 in
  set_pending (pending s2 ++ [(id, k)]) s2.

Definition generateStep_request (fd : formData) (step : nat)
    (previous : list string) : request :=
  {| url := API_ENDPOINTS.GENERATE; method := "POST";
     contentType := "application/json";
     body := GenerateBody fd step previous |}.

(** What [await APIService.generateStep(...)] yields once the fetch has
    settled: the thrown message, or [data.response]. *)
Definition generateStep_settled (o : outcome) : string + option string :=
  match o with
  | NetworkError msg => inl msg
  | HttpResponse status b =>
      match b with
      | BodyInvalid msg => inl msg
      | BodyObject error response =>
          if negb (ok status)
          then inl (or_else error "Network response was not ok")
          else inr response
      end
  end.

(** [APIService.getComponentDetails] (no caller in the script). *)
Definition getComponentDetails_request (component subj : string) : request :=
  {| url := API_ENDPOINTS.COMPONENT_DETAILS; method := "POST";
     contentType := "application/json";
     body := DetailsBody component subj |}.

(** ** class SelectionHandler *)

Definition setCurrentSubject (subj : string) (s : Page) : Page :=
  set_currentSubject subj s.

Definition handleSelectionChange (sel : selection) (s : Page) : Page :=
  let selectedText := trim (sel_text sel) in
  if negb (truthy selectedText) then removeFloatingButton s else
  if Nat.eqb (rangeCount sel) 0 then s else
  match findStepCard (commonAncestorContainer sel) with
  | None => removeFloatingButton s
  | Some _ => set_currentSelection selectedText s
  end.

Definition updateFloatingButtonPosition (sel : selection) (s : Page) : Page :=
  if negb (truthy (currentSelection s)) then s else
  if Nat.eqb (rangeCount sel) 0 then s else
  match findStepCard (commonAncestorContainer sel) with
  | None => removeFloatingButton s
  | Some _ =>
      if rect_empty sel then s else
      let '(b, s1) := createFloatingButton s in
      match buttons s1 !! b with
      | None => s1
      | Some e =>
          (* button.replaceWith(button.cloneNode(true)) *)
          let clone := length (buttons s1) in
          let s2 := set_buttons (buttons s1 ++ [cloneNode e]) s1 in
          let s3 :=
            set_bodyButtons (replaceWith b clone (bodyButtons s2)) s2 in
          (* this.state.floatingButton = button *)
          let s4 := set_floatingButton (Some b) s3 in
          (* document.body.appendChild(button) *)
          let s5 := set_bodyButtons (appendChild b (bodyButtons s4)) s4 in
          (* style.display = 'block'; addEventListener('click', ...) *)
          set_buttons
            (alter (fun e => {| displayed := true;
                                listeners := S (listeners e) |}) b
               (buttons s5)) s5
      end
  end.

Definition handleExplanationRequest_request (s : Page) : request :=
  {| url := "/get_component_details"; method := "POST";
     contentType := "application/json";
     body := DetailsBody (currentSelection s) (currentSubject s) |}.

(** [handleExplanationRequest] up to its [await fetch]. *)
Definition handleExplanationRequest (s : Page) : Page :=
  if negb (truthy (currentSubject s)) || negb (truthy (currentSelection s))
  then s else
  if isModalLoading s then s else
  let selectedText := currentSelection s in
  let s1 := set_modalTitle selectedText s in
  let s2 :=
    set_modalContent (LoadingText "Loading detailed explanation...") s1 in
  let s3 := setModalLoading true s2 in
  let s4 := set_modalHidden false s3 in
  fetch (handleExplanationRequest_request s4) ExplainTask s4.

(** The [try] block after the fetch has settled: the thrown message, or
    the markup to show. *)
Definition explanation_settled (o : outcome) : string + string :=
  match o with
  | NetworkError msg => inl msg
  | HttpResponse status b =>
      if negb (ok status)
      then inl ("HTTP error! status: " +:+ string_of_nat status)
      else match b with
           | BodyInvalid msg => inl msg
           | BodyObject _ None => inl marked_no_input
           | BodyObject _ (Some text) => inr (marked_parse text)
           end
  end.

(** [handleExplanationRequest] from the settled fetch to its end. *)
Definition handleExplanationRequest_resume (o : outcome) (s : Page) : Page :=
  let s1 :=
    match explanation_settled o with
    | inr markup => set_modalContent (Rendered markup) s
    | inl message =>
        set_modalContent (ErrorDiv ("Error loading content: " +:+ message)) s
    end in
  (* finally *)
  removeFloatingButton (setModalLoading false s1).

(** ** class StudyGuideGenerator *)

(** The [for] loop of [handleFormSubmit] from its test with the counter at
    [step], up to the [await] of that iteration. *)
Definition forLoop (sub : nat) (fd : formData) (step : nat) (s : Page)
  : Page :=
  if lt_maxSteps step (maxSteps fd) then
    let stepCard := length (cards s) in
    let s1 := set_cards (cards s ++ [createStepCard (step + 1)]) s in
    let s2 := set_resultsDiv (resultsDiv s1 ++ [stepCard]) s1 in
    fetch (generateStep_request fd step (previousResponses s2))
      (GenerateTask sub fd step stepCard) s2
  else s.

Definition handleFormSubmit (i : formInputs) (s : Page) : Page :=
  let fd := read_form i (ui_maxSteps s) in
  let sub := submissions s in
  let s0 := set_submissions (S sub) s in
  let s1 := setCurrentSubject (subject fd) s0 in
  let s2 := set_resultsDiv [] s1 in
  let s3 := set_previousResponses [] s2 in
  forLoop sub fd 0 s3.

(** One iteration from the settled fetch on: the inner [try] and [catch],
    then the next turn of the loop unless [break] was reached.  Two
    branches are there for totality only: a continuation always holds a
    card that exists ([cards_wf_run]), and [updateStepCard] never returns
    normally when [data.response] is undefined
    ([updateStepCard_undefined]).  The outer [catch] of [handleFormSubmit]
    has nothing to catch: every exception of the loop body is raised
    inside the inner [try]. *)
Definition handleFormSubmit_resume (sub : nat) (fd : formData) (step : nat)
    (stepCard : nat) (o : outcome) (s : Page) : Page :=
  match generateStep_settled o with
  | inl message =>
      set_cards (alter (showError message) stepCard (cards s)) s
  | inr response =>
      match cards s !! stepCard with
      | None => s
      | Some c =>
          match updateStepCard c response, response with
          | (c', None), Some text =>
              let s1 := set_cards (<[stepCard := c']> (cards s)) s in
              let s2 :=
                set_previousResponses (previousResponses s1 ++ [text]) s1 in
              forLoop sub fd (step + 1) s2
          | (c', Some message), _ =>
              set_cards (<[stepCard := showError message c']> (cards s)) s
          | (c', None), None => s
          end
      end
  end.

(** ** Events *)

Inductive event :=
  | Submit (i : formInputs)             (* submit on #studyForm *)
  | Settle (id : nat) (o : outcome)     (* the fetch numbered id settles *)
  | SelectionChange (sel : selection)
  | MouseUp (t : target) (sel : selection)
  | MouseDown (t : target)
  | Click (t : target)
  | TimeInput (value : string).

(** [this.state.floatingButton && this.state.floatingButton.contains(t)] *)
Definition on_floatingButton (t : target) (s : Page) : bool :=
  match floatingButton s, t with
  | Some b, OnButton b' => Nat.eqb b b'
  | _, _ => false
  end.

Definition on_mouseup (t : target) (sel : selection) (s : Page) : Page :=
  if on_floatingButton t s then s else
  if truthy (trim (sel_text sel)) then updateFloatingButtonPosition sel s
  else s.

(** The two mousedown listeners, in registration order. *)
Definition on_mousedown (t : target) (s : Page) : Page :=
  let s1 := if on_floatingButton t s then s else removeFloatingButton s in
  match floatingButton s1 with
  | Some _ => if negb (on_floatingButton t s1)
              then removeFloatingButton s1 else s1
  | None => s1
  end.

(** A click.  On a floating button it reaches the element only when the
    element is attached and displayed; each listener was registered with
    [once: true], so all of them are dropped and each one runs
    [handleExplanationRequest] up to its first [await]. *)
Definition on_click (t : target) (s : Page) : Page :=
  match t with
  | OnButton b =>
      match buttons s !! b with
      | Some e =>
          if bool_decide (b ∈ bodyButtons s) && displayed e then
            let s1 :=
              set_buttons
                (<[b := {| displayed := displayed e; listeners := 0 |}]>
                   (buttons s)) s in
            Nat.iter (listeners e) handleExplanationRequest s1
          else s
      | None => s
      end
  | OnModal => set_modalHidden true s
  | OnCloseModal => set_modalHidden true s
  | Elsewhere => s
  end.

Fixpoint take_pending (id : nat) (p : list (nat * task))
  : option (task * list (nat * task)) :=
  match p with
  | [] => None
  | (i, k) :: rest =>
      if Nat.eqb i id then Some (k, rest)
      else match take_pending id rest with
           | Some (k', rest') => Some (k', (i, k) :: rest')
           | None => None
           end
  end.

Definition resume (k : task) (o : outcome) (s : Page) : Page :=
  match k with
  | GenerateTask sub fd step stepCard =>
      handleFormSubmit_resume sub fd step stepCard o s
  | ExplainTask => handleExplanationRequest_resume o s
  end.

Definition on_settle (id : nat) (o : outcome) (s : Page) : Page :=
  match take_pending id (pending s) with
  | Some (k, rest) => resume k o (set_pending rest s)
  | None => s
  end.

Definition step (s : Page) (e : event) : Page :=
  match e with
  | Submit i => handleFormSubmit i s
  | Settle id o => on_settle id o s
  | SelectionChange sel => handleSelectionChange sel s
  | MouseUp t sel => on_mouseup t sel s
  | MouseDown t => on_mousedown t s
  | Click t => on_click t s
  | TimeInput value => set_timeDisplay (value +:+ " hours per week") s
  end.

Definition run (s : Page) (es : list event) : Page := fold_left step es s.

(** The page once [DOMContentLoaded] has constructed the application;
    [maxSteps_value] is the value of the element with id maxSteps, when
    the document has one. *)
Definition init (maxSteps_value : option string) : Page :=
  {| isModalLoading := false;
     previousResponses := [];
     floatingButton := None;
     currentSelection := "";
     currentSubject := "";
     ui_maxSteps := read_maxSteps maxSteps_value;
     cards := [];
     resultsDiv := [];
     buttons := [];
     bodyButtons := [];
     modalTitle := "";
     modalContent := NoContent;
     modalHidden := true;
     modalLoadingClass := false;
     timeDisplay := "10 hours per week";
     headScripts := ["https://cdn.jsdelivr.net/npm/marked/marked.min.js"];
     requests := [];
     pending := [];
     origins := [];
     submissions := 0 |}.

End Script.

(** ** Reading the state *)

(** The fetches of submission [sub] that are in flight. *)
Definition in_flight_of (sub : nat) (s : Page) : list (nat * task) :=
  filter (fun p => task_origin p.2 = Some sub) (pending s).

(** The explanation fetches that are in flight. *)
Definition explanations_in_flight (s : Page) : list (nat * task) :=
  filter (fun p => task_origin p.2 = None) (pending s).

(** The requests submission [sub] has issued so far, oldest first. *)
Definition requests_of (sub : nat) (s : Page) : list request :=
  (filter (fun p => p.2 = Some sub) (zip (requests s) (origins s))).*1.

(** The requests sent to /generate so far. *)
Definition generate_requests (s : Page) : list request :=
  filter (fun r => url r = API_ENDPOINTS.GENERATE) (requests s).

(** A settled fetch counts as a success carrying [text] when the status is
    in the ok range and the JSON object has a [response] string. *)
Definition response_text (o : outcome) : option string :=
  match o with
  | HttpResponse status (BodyObject _ (Some text)) =>
      if ok status then Some text else None
  | _ => None
  end.

(** A settled fetch counts as failed when fetch rejected or the status is
    outside the ok range. *)
Definition failed (o : outcome) : bool :=
  match o with
  | NetworkError _ => true
  | HttpResponse status _ => negb (ok status)
  end.

(** ** A host to run examples on *)

Definition digit_value (c : ascii) : option nat :=
  let n := nat_of_ascii c in
  if Nat.leb 48 n && Nat.leb n 57 then Some (n - 48) else None.

Fixpoint decimal_digits (acc : nat) (s : string) : option nat :=
  match s with
  | EmptyString => Some acc
  | String c r =>
      match digit_value c with
      | Some d => decimal_digits (10 * acc + d) r
      | None => None
      end
  end.

(** ToNumber restricted to strings of decimal digits (with surrounding
    white space); every other string is sent to NaN, which is what ToNumber
    does for strings that are no numeric literal. *)
Definition decimal_StringToNumber (s : string) : jsnumber :=
  match decimal_digits 0 (trim s) with
  | Some n => Finite (Z.of_nat n # 1)
  | None => NaN
  end.

Definition example_host : Host :=
  {| StringToNumber := decimal_StringToNumber;
     marked_parse := fun text => "<p>" +:+ text +:+ "</p>";
     marked_no_input := "marked(): input parameter is undefined or null";
     null_deref := "Cannot read properties of null" |}.

Definition step_card_text : node :=
  TextNode [["step-content"; "markdown-content"; "mt-4"]; ["step-card"];
            ["space-y-8"]].

Definition select (text : string) : selection :=
  {| sel_text := text; rangeCount := 1;
     commonAncestorContainer := step_card_text; rect_empty := false |}.

Definition no_selection : selection :=
  {| sel_text := ""; rangeCount := 0;
     commonAncestorContainer := ElementNode [] []; rect_empty := true |}.

Definition inputs (subject : string) : formInputs :=
  {| in_subject := subject; in_currentLevel := "beginner";
     in_timeAvailable := "10"; in_learningStyle := "visual";
     in_goal := "pass the exam" |}.

Definition ok_response (text : string) : outcome :=
  HttpResponse 200 (BodyObject None (Some text)).

(** ** Well-formed pages *)

(** What holds of the network part of every page the script can reach. *)
Record net_wf (s : Page) : Prop := {
  wf_origins : length (origins s) = length (requests s);
  wf_ids : forall id k, (id, k) ∈ pending s -> id < length (requests s);
  wf_nodup : NoDup (pending s).*1;
  wf_explain : length (explanations_in_flight s) <= 1;
  wf_loading : isModalLoading s = false -> explanations_in_flight s = [];
  wf_sub : forall sub, length (in_flight_of sub s) <= 1;
  wf_fresh : forall sub, submissions s <= sub -> in_flight_of sub s = []
}.

(** What holds of the floating buttons of every page the script can
    reach. *)
Record buttons_wf (s : Page) : Prop := {
  wf_button : forall b, floatingButton s = Some b -> b ∈ bodyButtons s;
  wf_body : forall b, b ∈ bodyButtons s -> b < length (buttons s);
  wf_body_nodup : NoDup (bodyButtons s)
}.

(** Every parked generation step holds a step card that exists. *)
Definition cards_wf (s : Page) : Prop :=
  forall id sub fd k c,
    (id, GenerateTask sub fd k c) ∈ pending s -> c < length (cards s).

(** A request as the script is allowed to issue it. *)
Definition to_backend (r : request) : Prop :=
  method r = "POST" /\ contentType r = "application/json" /\
  (url r = "/generate" \/ url r = "/get_component_details").

(** [same_net s s']: going from [s] to [s'] touched neither the network
    nor what the generation loop reads and writes. *)
Definition same_net (s s' : Page) : Prop :=
  requests s' = requests s /\ origins s' = origins s /\
  pending s' = pending s /\ isModalLoading s' = isModalLoading s /\
  submissions s' = submissions s /\ cards s' = cards s /\
  resultsDiv s' = resultsDiv s /\
  previousResponses s' = previousResponses s /\
  currentSubject s' = currentSubject s /\ ui_maxSteps s' = ui_maxSteps s.

(** ** Runs *)

(** The pages the script can reach from a freshly loaded document. *)
Definition reachable `{Host} (s : Page) : Prop :=
  exists (maxSteps_value : option string) (es : list event),
    s = run (init maxSteps_value) es.

(** The subject of the most recent submit event, if any. *)
Definition submitted_subject (es : list event) : string :=
  fold_left (fun subj e => match e with
                           | Submit i => in_subject i
                           | _ => subj
                           end) es "".

(** The responses to consecutive fetches, the first of them numbered
    [first], arriving in order. *)
Definition settle_all (first : nat) (os : list outcome) : list event :=
  imap (fun j o => Settle (first + j) o) os.

(** Step card number [j + 1] once its response [text] has been rendered. *)
Definition rendered_card `{Host} (j : nat) (text : string) : card :=
  {| data_step := j + 1; loading_bar := false; loading_text := false;
     step_content := Rendered (marked_parse text) |}.

(** Step card [c] after [showError(c, message)]. *)
Definition shows_error (prefix : string) (h : html) : Prop :=
  exists message, h = ErrorDiv (prefix +:+ message).

(** ** Example runs *)

(** One submission on the page as shipped (no maxSteps element), answered
    with one response. *)
Definition one_step_guide : list event :=
  [Submit (inputs "Chess"); Settle 0 (ok_response "# Openings")].

(** The user then selects a term in the step card and releases the
    mouse. *)
Definition term_selected : list event :=
  one_step_guide ++
  [SelectionChange (select " Openings "); MouseUp Elsewhere (select " Openings ")].

(** ... and clicks the floating button. *)
Definition explanation_requested : list event :=
  term_selected ++ [Click (OnButton 0)].

Definition example_page (es : list event) : Page :=
  @run example_host (init None) es.

(** [final_step sub s]: whatever submission [sub] has in flight is the fetch
    of its last step (the loop test fails for the next index). *)
Definition final_step `{Host} (sub : nat) (s : Page) : Prop :=
  forall id k, (id, k) ∈ in_flight_of sub s ->
    exists fd j c, k = GenerateTask sub fd j c /\
                   lt_maxSteps (j + 1) (maxSteps fd) = false.

(** No fetch is attributed to a submission that has not started. *)
Definition origins_bounded (s : Page) : Prop :=
  forall sub, Some sub ∈ origins s -> sub < submissions s.

(** Two submissions on a page whose maxSteps input holds 2: the second
    submit event arrives while the first submission awaits its first
    response; afterwards the first response of each arrives. *)
Definition overlapping_submissions : list event :=
  [Submit (inputs "Algebra"); Submit (inputs "Biology");
   Settle 0 (ok_response "a0"); Settle 1 (ok_response "b0")].

Definition two_step_page (es : list event) : Page :=
  @run example_host (init (Some "2")) es.

(** A second explanation asked for while the first is still loading: the
    user clicks the button (the modal opens, the fetch leaves), closes the
    modal, selects another term, and clicks the button shown for it. *)
Definition first_explanation_loading : list event :=
  term_selected ++
  [MouseDown (OnButton 0); MouseUp (OnButton 0) (select " Openings ");
   Click (OnButton 0)].

Definition second_term_selected : list event :=
  first_explanation_loading ++
  [MouseDown OnCloseModal; MouseUp OnCloseModal (select " Openings ");
   Click OnCloseModal;
   MouseDown Elsewhere; SelectionChange (select "Gambit");
   MouseUp Elsewhere (select "Gambit")].

Definition second_button_clicked : list event :=
  second_term_selected ++
  [MouseDown (OnButton 4); MouseUp (OnButton 4) (select "Gambit");
   Click (OnButton 4)].

(** ** Further readings of the state *)

(** The elements [findStepCard] examines, nearest first: a text node is
    skipped, an element is examined itself. *)
Definition node_chain (n : node) : list (list string) :=
  match n with
  | TextNode parents => parents
  | ElementNode self parents => self :: parents
  end.

(** The step cards held by the continuations parked in generation. *)
Definition parked_cards (s : Page) : list nat :=
  omap (fun p : nat * task =>
          match p.2 with
          | GenerateTask _ _ _ stepCard => Some stepCard
          | ExplainTask => None
          end) (pending s).

(** Every parked generation step holds a card of its own, still as
    [createStepCard] made it. *)
Definition parked_cards_fresh (s : Page) : Prop :=
  NoDup (parked_cards s) /\
  forall id sub fd k c,
    (id, GenerateTask sub fd k c) ∈ pending s ->
    cards s !! c = Some (createStepCard (k + 1)).

(** Attached floating-button elements other than the one the script holds
    have no click listener. *)
Definition others_inert (s : Page) : Prop :=
  forall b e, b ∈ bodyButtons s -> buttons s !! b = Some e ->
              floatingButton s <> Some b -> listeners e = 0.

(** The value of the most recent input event of the time slider, as the
    label shows it. *)
Definition slider_label (es : list event) : string :=
  fold_left (fun label e => match e with
                            | TimeInput value => value +:+ " hours per week"
                            | _ => label
                            end) es "10 hours per week".

(** An explanation request that names what to explain and in which
    subject. *)
Definition names_component (r : request) : Prop :=
  match body r with
  | DetailsBody component subj => component <> "" /\ subj <> ""
  | GenerateBody _ _ _ => True
  end.


(** What holds of the modal on every page the script can reach: the
    loading class follows the loading flag, the flag is set only while an
    explanation is in flight, and while one is in flight the modal shows
    the loading line under the title the request asks about. *)
Definition modal_wf (s : Page) : Prop :=
  modalLoadingClass s = isModalLoading s /\
  (isModalLoading s = true -> exists id, (id, ExplainTask) ∈ pending s) /\
  forall id, (id, ExplainTask) ∈ pending s ->
    modalContent s = LoadingText "Loading detailed explanation..." /\
    exists subj,
      requests s !! id
        = Some {| url := API_ENDPOINTS.COMPONENT_DETAILS; method := "POST";
                  contentType := "application/json";
                  body := DetailsBody (modalTitle s) subj |} /\
      modalTitle s <> "" /\ subj <> "".

(** [same_modal s s']: going from [s] to [s'] left the modal as it was. *)
Definition same_modal (s s' : Page) : Prop :=
  modalTitle s' = modalTitle s /\ modalContent s' = modalContent s /\
  modalHidden s' = modalHidden s /\
  modalLoadingClass s' = modalLoadingClass s.


(** ** Where the contents of a request come from *)

(** [text] was selected inside a step card at some selectionchange event
    of [es] (and is recorded trimmed). *)
Definition selected_in (es : list event) (text : string) : Prop :=
  exists sel,
    SelectionChange sel ∈ es /\
    findStepCard (commonAncestorContainer sel) <> None /\
    text = trim (sel_text sel).

(** [subj] was the subject input at some submit event of [es]. *)
Definition submitted_in (es : list event) (subj : string) : Prop :=
  exists i, Submit i ∈ es /\ subj = in_subject i.

(** [text] was the response text of some settled fetch of [es]. *)
Definition answered_in (es : list event) (text : string) : Prop :=
  exists id o, Settle id o ∈ es /\ response_text o = Some text.

(** A request as the events [es] account for it, on a page loaded with
    [mv] in its maxSteps input. *)
Definition request_source `{Host} (mv : option string) (es : list event)
    (r : request) : Prop :=
  (exists component subj,
     selected_in es component /\ submitted_in es subj /\
     component <> "" /\ subj <> "" /\
     r = getComponentDetails_request component subj) \/
  (exists i k previous,
     Submit i ∈ es /\ lt_maxSteps k (read_maxSteps mv) = true /\
     Forall (answered_in es) previous /\
     r = generateStep_request (read_form i (read_maxSteps mv)) k previous).

(** The children of the results area are step cards that exist, in the
    order of their creation. *)
Definition results_ordered (s : Page) : Prop :=
  (forall c, c ∈ resultsDiv s -> c < length (cards s)) /\
  forall i j ci cj,
    i < j -> resultsDiv s !! i = Some ci -> resultsDiv s !! j = Some cj ->
    ci < cj.


(** ** Further example runs *)

(** The form is submitted again while the first request is awaited, and
    the first request then fails. *)
Definition failure_after_resubmission : list event :=
  [Submit (inputs "Algebra"); Submit (inputs "Biology");
   Settle 0 (NetworkError "Failed to fetch")].

(** The explanation asked for in [explanation_requested] arrives. *)
Definition explanation_received : list event :=
  explanation_requested ++
  [Settle 1 (ok_response "An opening is the first phase of the game.")].

(** The user presses the button that is shown, drags off it and releases
    the mouse elsewhere, then clicks the button; the explanation
    arrives. *)
Definition explanation_received_after_drag : list event :=
  term_selected ++
  [MouseDown (OnButton 0); MouseUp Elsewhere (select " Openings ");
   MouseDown (OnButton 0); MouseUp (OnButton 0) (select " Openings ");
   Click (OnButton 0);
   Settle 1 (ok_response "An opening is the first phase of the game.")].

(** Three spaces are selected in the step card. *)
Definition blank_selected : list event :=
  one_step_guide ++
  [SelectionChange (select "   "); MouseUp Elsewhere (select "   ")].

(** A guide generated for a form whose subject is empty; a term of its
    step card is selected, and the button shown for it is clicked. *)
Definition no_subject_term_selected : list event :=
  [Submit (inputs ""); Settle 0 (ok_response "# Openings");
   SelectionChange (select "Openings"); MouseUp Elsewhere (select "Openings")].

Definition no_subject_button_clicked : list event :=
  no_subject_term_selected ++ [Click (OnButton 0)].

(** The card held by a parked step of the most recent submission is a
    child of the results area. *)
Definition latest_attached (s : Page) : Prop :=
  forall id sub fd k c,
    (id, GenerateTask sub fd k c) ∈ pending s -> S sub = submissions s ->
    c ∈ resultsDiv s.

(** * Properties *)

(** Case analysis through every handler, for facts about one field. *)
Ltac through_handlers :=
  unfold handleFormSubmit, on_settle, resume, handleFormSubmit_resume,
    handleExplanationRequest_resume, handleSelectionChange, on_mouseup,
    on_mousedown, updateFloatingButtonPosition, handleExplanationRequest,
    forLoop, fetch, removeFloatingButton, createFloatingButton,
    setModalLoading, setCurrentSubject;
  cbv zeta; repeat case_match; simplify_eq; simpl in *; try done.

(** ** The host-independent helpers *)

Lemma truthy_false (s : string) : truthy s = false <-> s = "".
Proof. destruct s; simpl; split; congruence. Qed.

Lemma truthy_true (s : string) : truthy s = true <-> s <> "".
Proof. destruct s; simpl; split; congruence. Qed.

(** [trim] runs to the end: what [trimStart] returns starts with no white
    space, and what [trimEnd] returns ends with none. *)
Lemma strip_prefix_length p s r :
  strip_prefix p s = Some r ->
  String.length s = String.length p + String.length r.
Proof.
  revert s. induction p as [|a p IH]; intros [|b s]; simpl; try done.
  - by intros [= <-].
  - by intros [= <-].
  - destruct (Ascii.eqb a b); [|done]. intros Hr%IH. lia.
Qed.

Lemma skip_one_shorter patterns s r :
  Forall (fun p => p <> "") patterns ->
  skip_one patterns s = Some r -> String.length r < String.length s.
Proof.
  induction 1 as [|p patterns Hp _ IH]; simpl; [done|].
  destruct (strip_prefix p s) as [r'|] eqn:Hstrip; [|done].
  intros [= ->]. apply strip_prefix_length in Hstrip.
  destruct p; [done|]. simpl in Hstrip. lia.
Qed.

Lemma skip_all_done patterns fuel s :
  Forall (fun p => p <> "") patterns -> String.length s <= fuel ->
  skip_one patterns (skip_all patterns fuel s) = None.
Proof.
  intros Hp. revert s. induction fuel as [|fuel IH]; intros s Hlen; simpl.
  - destruct s; [|simpl in Hlen; lia].
    destruct (skip_one patterns "") as [r|] eqn:Hskip; [|done].
    apply skip_one_shorter in Hskip; [simpl in Hskip; lia|done].
  - destruct (skip_one patterns s) as [r|] eqn:Hskip; [|done].
    apply IH. apply skip_one_shorter in Hskip; [lia|done].
Qed.

Lemma rev_app_length s1 s2 :
  String.length (String.rev_app s1 s2) = String.length s1 + String.length s2.
Proof.
  revert s2. induction s1 as [|a s1 IH]; intros s2; simpl; [done|].
  rewrite IH. simpl. lia.
Qed.

Lemma trimStart_done s :
  skip_one (utf8 <$> white_space) (trimStart s) = None.
Proof.
  apply skip_all_done; [|done].
  vm_compute. repeat (constructor; [discriminate|]). constructor.
Qed.

Lemma trimEnd_done s :
  exists r,
    trimEnd s = String.rev r /\
    skip_one (String.rev <$> (utf8 <$> white_space)) r = None.
Proof.
  eexists. split; [reflexivity|]. apply skip_all_done.
  - vm_compute. repeat (constructor; [discriminate|]). constructor.
  - unfold String.rev. rewrite rev_app_length. simpl. lia.
Qed.

(** Surrounding white space of every kind is stripped, inner white space
    is kept, and a character whose encoding shares its last bytes with no
    white space is kept at the end. *)
Lemma trim_examples :
  trim (utf8 0xA0 +:+ " Openings" +:+ utf8 0x3000 +:+ utf8 0xFEFF) = "Openings" /\
  trim (utf8 0xA0 +:+ utf8 0x2028) = "" /\
  trim " queen's  gambit " = "queen's  gambit" /\
  trim ("x" +:+ utf8 0x2020) = "x" +:+ utf8 0x2020.
Proof. vm_compute. repeat split. Qed.

Lemma nat_lt_number_integer (k n : nat) :
  nat_lt_number k (Finite (Z.of_nat n # 1)) = bool_decide (k < n).
Proof.
  unfold nat_lt_number; simpl. rewrite Z.mul_1_r.
  case_bool_decide; [apply Z.ltb_lt | apply Z.ltb_ge]; lia.
Qed.

Lemma removeChild_subseteq b l : removeChild b l ⊆ l.
Proof.
  induction l as [|c l IH]; simpl; [done|].
  destruct (Nat.eqb c b); set_solver.
Qed.

Lemma removeChild_NoDup b l : NoDup l -> NoDup (removeChild b l).
Proof.
  induction 1 as [|c l Hc Hl IH]; simpl; [constructor|].
  destruct (Nat.eqb c b); [done|].
  constructor; [|done]. intros Hin. apply Hc.
  by apply (removeChild_subseteq b l).
Qed.

Lemma removeChild_not_elem b l : NoDup l -> b ∉ removeChild b l.
Proof.
  induction 1 as [|c l Hc Hl IH]; simpl; [set_solver|].
  destruct (Nat.eqb_spec c b) as [->|Hne]; [done|]. set_solver.
Qed.

Lemma removeChild_absent b l : b ∉ l -> removeChild b l = l.
Proof.
  induction l as [|c l IH]; simpl; [done|]. intros Hb.
  destruct (Nat.eqb_spec c b) as [->|Hne]; [set_solver|].
  f_equal. apply IH. set_solver.
Qed.

Lemma replaceWith_elem b c l x :
  x ∈ replaceWith b c l -> x = c \/ x ∈ l.
Proof.
  induction l as [|y l IH]; simpl; [by right|].
  destruct (Nat.eqb y b); rewrite !elem_of_cons; naive_solver.
Qed.

Lemma replaceWith_NoDup b c l :
  NoDup l -> c ∉ l -> NoDup (replaceWith b c l).
Proof.
  induction 1 as [|y l Hy Hl IH]; simpl; [constructor|].
  rewrite not_elem_of_cons. intros [Hcy Hc].
  destruct (Nat.eqb y b); constructor; auto.
  intros Hin. apply replaceWith_elem in Hin as [->|Hin]; auto.
Qed.

Lemma replaceWith_gone b c l :
  NoDup l -> b <> c -> b ∉ replaceWith b c l.
Proof.
  induction 1 as [|y l Hy Hl IH]; simpl; intros Hbc; [apply not_elem_of_nil|].
  destruct (Nat.eqb_spec y b) as [->|Hne]; rewrite not_elem_of_cons; auto.
Qed.

Lemma take_pending_perm id p k rest :
  take_pending id p = Some (k, rest) -> p ≡ₚ (id, k) :: rest.
Proof.
  revert rest. induction p as [|[i k'] p IH]; intros rest; simpl; [done|].
  destruct (Nat.eqb_spec i id) as [->|Hne].
  - by intros [= -> ->].
  - destruct (take_pending id p) as [[k'' rest']|]; [|done].
    intros [= -> <-]. rewrite (IH rest' eq_refl). apply Permutation_swap.
Qed.

Lemma take_pending_None id p :
  take_pending id p = None -> id ∉ p.*1.
Proof.
  induction p as [|[i k] p IH]; simpl; [set_solver|].
  destruct (Nat.eqb_spec i id) as [->|Hne]; [done|].
  destruct (take_pending id p) as [[k' rest']|]; [done|].
  intros _. set_solver.
Qed.

Lemma take_pending_elem id k p :
  NoDup p.*1 -> (id, k) ∈ p ->
  exists rest, take_pending id p = Some (k, rest).
Proof.
  induction p as [|[i k'] p IH]; simpl; [set_solver|].
  rewrite NoDup_cons. intros [Hi Hp] Hin.
  destruct (Nat.eqb_spec i id) as [->|Hne].
  - apply elem_of_cons in Hin as [[= ->]|Hin]; [eauto|].
    exfalso. apply Hi. apply list_elem_of_fmap. by exists (id, k).
  - apply elem_of_cons in Hin as [[= ? ?]|Hin]; [done|].
    destruct (IH Hp Hin) as [rest ->]. eauto.
Qed.

Section Properties.
Context `{Host}.

Lemma run_app s es1 es2 : run s (es1 ++ es2) = run (run s es1) es2.
Proof. apply fold_left_app. Qed.

Lemma run_snoc s es e : run s (es ++ [e]) = step (run s es) e.
Proof. by rewrite run_app. Qed.

Lemma run_cons s e es : run s (e :: es) = run (step s e) es.
Proof. done. Qed.

(** Induction over the pages the script reaches from a start page. *)
Lemma run_invariant (P : Page -> Prop) s es :
  P s -> (forall s e, P s -> P (step s e)) -> P (run s es).
Proof.
  intros Hs Hstep. revert s Hs.
  induction es as [|e es IH]; intros s Hs; simpl; auto.
Qed.

Lemma iter_invariant (P : Page -> Prop) (f : Page -> Page) n s :
  P s -> (forall s, P s -> P (f s)) -> P (Nat.iter n f s).
Proof. intros Hs Hf. induction n; simpl; auto. Qed.

Lemma updateStepCard_undefined c :
  (updateStepCard c None).2 <> None.
Proof. unfold updateStepCard. by repeat case_match. Qed.

(** *** The network part *)

Lemma net_wf_frame s s' :
  requests s' = requests s -> origins s' = origins s ->
  pending s' = pending s -> isModalLoading s' = isModalLoading s ->
  submissions s' = submissions s -> net_wf s -> net_wf s'.
Proof.
  intros Hr Ho Hp Hl Hs [? ? ? ? ? ? ?].
  split; unfold explanations_in_flight, in_flight_of in *;
    rewrite ?Hr, ?Ho, ?Hp, ?Hl, ?Hs; auto.
Qed.

Lemma net_wf_fetch_explain r s :
  net_wf s -> explanations_in_flight s = [] -> isModalLoading s = true ->
  net_wf (fetch r ExplainTask s).
Proof.
  intros [Ho Hi Hn He Hl Hs Hf] Hnone Hload.
  unfold explanations_in_flight, in_flight_of in *.
  split; unfold explanations_in_flight, in_flight_of, fetch;
    cbn [requests origins pending isModalLoading submissions
         set_requests set_origins set_pending task_origin].
  - rewrite !length_app. simpl. lia.
  - intros id k. rewrite elem_of_app, list_elem_of_singleton, length_app.
    intros [Hin|[= -> ->]]; [apply Hi in Hin|]; simpl; lia.
  - rewrite fmap_app. apply NoDup_app. split; [done|]. split.
    + intros id Hin. apply list_elem_of_fmap in Hin as [[id' k] [-> Hin]].
      apply Hi in Hin. simpl. rewrite list_elem_of_singleton. lia.
    + apply NoDup_singleton.
  - rewrite filter_app, Hnone. simpl. done.
  - congruence.
  - intros sub. rewrite filter_app, length_app.
    rewrite filter_cons_False by done. specialize (Hs sub). simpl. lia.
  - intros sub Hsub. rewrite filter_app, (Hf sub Hsub).
    by rewrite filter_cons_False.
Qed.

Lemma net_wf_fetch_generate r sub fd k c s :
  net_wf s -> in_flight_of sub s = [] -> sub < submissions s ->
  net_wf (fetch r (GenerateTask sub fd k c) s).
Proof.
  intros [Ho Hi Hn He Hl Hs Hf] Hnone Hsub.
  unfold explanations_in_flight, in_flight_of in *.
  split; unfold explanations_in_flight, in_flight_of, fetch;
    cbn [requests origins pending isModalLoading submissions
         set_requests set_origins set_pending task_origin].
  - rewrite !length_app. simpl. lia.
  - intros id k'. rewrite elem_of_app, list_elem_of_singleton, length_app.
    intros [Hin|[= -> ->]]; [apply Hi in Hin|]; simpl; lia.
  - rewrite fmap_app. apply NoDup_app. split; [done|]. split.
    + intros id Hin. apply list_elem_of_fmap in Hin as [[id' k'] [-> Hin]].
      apply Hi in Hin. simpl. rewrite list_elem_of_singleton. lia.
    + apply NoDup_singleton.
  - rewrite filter_app, length_app.
    rewrite filter_cons_False by done. simpl. lia.
  - intros Hload. rewrite filter_app, (Hl Hload).
    by rewrite filter_cons_False.
  - intros sub'. rewrite filter_app, length_app.
    destruct (decide (sub' = sub)) as [->|Hne].
    + rewrite Hnone. rewrite filter_cons_True by done. simpl. lia.
    + rewrite filter_cons_False by (simpl; congruence).
      specialize (Hs sub'). simpl. lia.
  - intros sub' Hsub'. rewrite filter_app, (Hf sub' Hsub').
    rewrite filter_cons_False; [done|]. simpl. intros [= ->]. lia.
Qed.

Lemma net_wf_loading s s' :
  requests s' = requests s -> origins s' = origins s ->
  pending s' = pending s -> submissions s <= submissions s' ->
  (isModalLoading s' = false -> explanations_in_flight s = []) ->
  net_wf s -> net_wf s'.
Proof.
  intros Hr Ho Hp Hs Hl [? ? ? ? ? ? Hf].
  split; unfold explanations_in_flight, in_flight_of in *;
    rewrite ?Hr, ?Ho, ?Hp; auto.
  intros sub Hsub. apply Hf. lia.
Qed.

Lemma net_wf_take id k rest s :
  net_wf s -> take_pending id (pending s) = Some (k, rest) ->
  net_wf (set_pending rest s) /\
  match task_origin k with
  | None => explanations_in_flight (set_pending rest s) = []
  | Some sub =>
      in_flight_of sub (set_pending rest s) = [] /\ sub < submissions s
  end.
Proof.
  intros [Ho Hi Hn He Hl Hs Hf] Htake.
  apply take_pending_perm in Htake as Hperm.
  unfold explanations_in_flight, in_flight_of in *.
  assert (Hsmall : forall P `{!forall x, Decision (P x)},
    length (filter P rest) <= length (filter P (pending s))).
  { intros P ?. rewrite Hperm. destruct (decide (P (id, k))).
    - rewrite filter_cons_True by done. simpl. lia.
    - by rewrite filter_cons_False. }
  split; [split|]; unfold explanations_in_flight, in_flight_of;
    cbn [requests origins pending isModalLoading submissions set_pending].
  - done.
  - intros id' k' Hin. apply (Hi id' k'). rewrite Hperm. set_solver.
  - rewrite Hperm in Hn. simpl in Hn. by apply NoDup_cons in Hn as [_ ?].
  - etrans; [apply Hsmall; apply _|done].
  - intros Hload. apply Hl in Hload. apply length_zero_iff_nil.
    pose proof (Hsmall (fun p => task_origin p.2 = None) _).
    rewrite Hload in *. simpl in *. lia.
  - intros sub. etrans; [apply Hsmall; apply _|done].
  - intros sub Hsub. apply Hf in Hsub. apply length_zero_iff_nil.
    pose proof (Hsmall (fun p => task_origin p.2 = Some sub) _).
    rewrite Hsub in *. simpl in *. lia.
  - destruct (task_origin k) as [sub|] eqn:Hk.
    + pose proof (Hs sub) as Hle. rewrite Hperm in Hle.
      rewrite filter_cons_True in Hle by done. simpl in Hle. split.
      * apply length_zero_iff_nil. lia.
      * destruct (decide (sub < submissions s)); [done|].
        assert (Hnil := Hf sub ltac:(lia)).
        apply (f_equal length) in Hnil. rewrite Hperm in Hnil.
        by rewrite filter_cons_True in Hnil.
    + rewrite Hperm in He. rewrite filter_cons_True in He by done.
      simpl in He. apply length_zero_iff_nil. lia.
Qed.

(** Handlers that leave the network alone. *)

Lemma same_net_wf s s' : same_net s s' -> net_wf s -> net_wf s'.
Proof.
  intros (?&?&?&?&?&_). by apply net_wf_frame.
Qed.

Lemma same_net_refl s : same_net s s.
Proof. by repeat split. Qed.

Lemma same_net_trans s1 s2 s3 :
  same_net s1 s2 -> same_net s2 s3 -> same_net s1 s3.
Proof.
  unfold same_net. intros (?&?&?&?&?&?&?&?&?&?) (?&?&?&?&?&?&?&?&?&?).
  repeat split; congruence.
Qed.

Lemma removeFloatingButton_net s : same_net s (removeFloatingButton s).
Proof. unfold removeFloatingButton. by destruct (floatingButton s). Qed.

Lemma handleSelectionChange_net sel s :
  same_net s (handleSelectionChange sel s).
Proof.
  unfold handleSelectionChange.
  repeat case_match; try apply removeFloatingButton_net; done.
Qed.

Lemma updateFloatingButtonPosition_net sel s :
  same_net s (updateFloatingButtonPosition sel s).
Proof.
  unfold updateFloatingButtonPosition, createFloatingButton.
  repeat case_match; simplify_eq; try apply removeFloatingButton_net; done.
Qed.

Lemma on_mouseup_net t sel s : same_net s (on_mouseup t sel s).
Proof.
  unfold on_mouseup.
  repeat case_match; try apply updateFloatingButtonPosition_net; done.
Qed.

Lemma on_mousedown_net t s : same_net s (on_mousedown t s).
Proof.
  unfold on_mousedown.
  repeat case_match;
    repeat (try done; try apply removeFloatingButton_net;
            try (eapply same_net_trans; [apply removeFloatingButton_net|])).
Qed.

Lemma net_wf_handleExplanationRequest s :
  net_wf s -> net_wf (handleExplanationRequest s).
Proof.
  intros Hwf. unfold handleExplanationRequest.
  destruct (_ || _); [done|].
  destruct (isModalLoading s) eqn:Hload; [done|].
  apply net_wf_fetch_explain; [| |done].
  - eapply net_wf_loading; [..|exact Hwf]; try done.
  - by apply (wf_loading s Hwf).
Qed.

Lemma net_wf_handleExplanationRequest_resume o s :
  net_wf s -> explanations_in_flight s = [] ->
  net_wf (handleExplanationRequest_resume o s).
Proof.
  intros Hwf Hnone. unfold handleExplanationRequest_resume.
  eapply same_net_wf; [apply removeFloatingButton_net|].
  eapply net_wf_loading; [..|exact Hwf]; try done;
    by destruct (explanation_settled o).
Qed.

Lemma net_wf_forLoop sub fd k s :
  net_wf s -> in_flight_of sub s = [] -> sub < submissions s ->
  net_wf (forLoop sub fd k s).
Proof.
  intros Hwf Hnone Hsub. unfold forLoop.
  destruct (lt_maxSteps k (maxSteps fd)); [|done].
  apply net_wf_fetch_generate; [|done..].
  eapply net_wf_frame; [..|exact Hwf]; done.
Qed.

Lemma net_wf_handleFormSubmit i s :
  net_wf s -> net_wf (handleFormSubmit i s).
Proof.
  intros Hwf. unfold handleFormSubmit.
  apply net_wf_forLoop.
  - eapply net_wf_loading; [..|exact Hwf]; simpl; try done; [lia|].
    apply (wf_loading s Hwf).
  - apply (wf_fresh s Hwf). lia.
  - simpl. lia.
Qed.

Lemma net_wf_handleFormSubmit_resume sub fd k c o s :
  net_wf s -> in_flight_of sub s = [] -> sub < submissions s ->
  net_wf (handleFormSubmit_resume sub fd k c o s).
Proof.
  intros Hwf Hnone Hsub. unfold handleFormSubmit_resume.
  destruct (generateStep_settled o) as [message|response].
  { eapply net_wf_frame; [..|exact Hwf]; done. }
  destruct (cards s !! c) as [crd|]; [|done].
  destruct (updateStepCard crd response) as [c' [message|]].
  { eapply net_wf_frame; [..|exact Hwf]; done. }
  destruct response as [text|]; [|done].
  apply net_wf_forLoop; [|done..].
  eapply net_wf_frame; [..|exact Hwf]; done.
Qed.

Lemma net_wf_on_settle id o s : net_wf s -> net_wf (on_settle id o s).
Proof.
  intros Hwf. unfold on_settle.
  destruct (take_pending id (pending s)) as [[k rest]|] eqn:Htake; [|done].
  destruct (net_wf_take _ _ _ _ Hwf Htake) as [Hwf' Hk].
  destruct k as [sub fd k c|]; simpl in *.
  - destruct Hk. by apply net_wf_handleFormSubmit_resume.
  - by apply net_wf_handleExplanationRequest_resume.
Qed.

Lemma net_wf_on_click t s : net_wf s -> net_wf (on_click t s).
Proof.
  intros Hwf. unfold on_click.
  destruct t as [b| | |]; try done;
    try (eapply net_wf_frame; [..|exact Hwf]; done).
  destruct (buttons s !! b) as [e|]; [|done].
  destruct (_ && _); [|done].
  apply iter_invariant; [|apply net_wf_handleExplanationRequest].
  eapply net_wf_frame; [..|exact Hwf]; done.
Qed.

Lemma net_wf_step s e : net_wf s -> net_wf (step s e).
Proof.
  intros Hwf. destruct e; simpl.
  - by apply net_wf_handleFormSubmit.
  - by apply net_wf_on_settle.
  - eapply same_net_wf; [apply handleSelectionChange_net|done].
  - eapply same_net_wf; [apply on_mouseup_net|done].
  - eapply same_net_wf; [apply on_mousedown_net|done].
  - by apply net_wf_on_click.
  - eapply net_wf_frame; [..|exact Hwf]; done.
Qed.

Lemma net_wf_init mv : net_wf (init mv).
Proof.
  split; simpl; try done; try lia.
  - intros id k Hin. by apply elem_of_nil in Hin.
  - constructor.
Qed.

Lemma net_wf_run mv es : net_wf (run (init mv) es).
Proof. apply run_invariant; [apply net_wf_init|apply net_wf_step]. Qed.

(** *** The floating buttons *)

Lemma buttons_wf_frame s s' :
  floatingButton s' = floatingButton s -> bodyButtons s' = bodyButtons s ->
  length (buttons s') = length (buttons s) ->
  buttons_wf s -> buttons_wf s'.
Proof.
  intros Hf Hb Hl [? ? ?]. split; rewrite ?Hf, ?Hb, ?Hl; auto.
Qed.

Lemma buttons_wf_removeFloatingButton s :
  buttons_wf s -> buttons_wf (removeFloatingButton s).
Proof.
  intros Hwf. pose proof Hwf as [Hf Hb Hn]. unfold removeFloatingButton.
  destruct (floatingButton s) as [b|] eqn:Hfb; [|done].
  split; simpl.
  - done.
  - intros x Hx. apply Hb. by apply (removeChild_subseteq b).
  - by apply removeChild_NoDup.
Qed.

Lemma removeFloatingButton_detaches s b :
  buttons_wf s -> floatingButton s = Some b ->
  floatingButton (removeFloatingButton s) = None /\
  b ∉ bodyButtons (removeFloatingButton s).
Proof.
  intros [Hf Hb Hn] Hfb. unfold removeFloatingButton. rewrite Hfb. simpl.
  split; [done|]. by apply removeChild_not_elem.
Qed.

Lemma removeFloatingButton_None s :
  floatingButton (removeFloatingButton s) = None.
Proof.
  unfold removeFloatingButton.
  by destruct (floatingButton s) eqn:Hfb.
Qed.

Lemma buttons_wf_createFloatingButton s :
  buttons_wf s ->
  buttons_wf (createFloatingButton s).2 /\
  floatingButton (createFloatingButton s).2 = Some (createFloatingButton s).1.
Proof.
  intros Hwf. pose proof Hwf as [Hf Hb Hn]. unfold createFloatingButton.
  destruct (floatingButton s) as [b|] eqn:Hfb; [done|].
  assert (Hfresh : length (buttons s) ∉ bodyButtons s).
  { intros Hin. apply Hb in Hin. lia. }
  simpl. unfold appendChild. rewrite removeChild_absent by done.
  split; [split; simpl|done].
  - intros b [= <-]. set_solver.
  - intros b. rewrite length_app, elem_of_app, list_elem_of_singleton.
    simpl. intros [Hin%Hb| ->]; lia.
  - apply NoDup_app. split; [done|]. split; [|apply NoDup_singleton].
    intros x Hx ->%list_elem_of_singleton. done.
Qed.

Lemma buttons_wf_updateFloatingButtonPosition sel s :
  buttons_wf s -> buttons_wf (updateFloatingButtonPosition sel s).
Proof.
  intros Hwf. unfold updateFloatingButtonPosition.
  destruct (negb _); [done|]. destruct (Nat.eqb _ _); [done|].
  destruct (findStepCard _); [|by apply buttons_wf_removeFloatingButton].
  destruct (rect_empty sel); [done|].
  destruct (buttons_wf_createFloatingButton s Hwf) as [Hwf1 Hfb].
  destruct (createFloatingButton s) as [b s1]. simpl in *.
  pose proof Hwf1 as [Hf Hb Hn].
  destruct (buttons s1 !! b) as [e|] eqn:He; [|done].
  apply lookup_lt_Some in He.
  assert (Hfresh : length (buttons s1) ∉ bodyButtons s1).
  { intros Hin. apply Hb in Hin. lia. }
  assert (Hgone : b ∉ replaceWith b (length (buttons s1)) (bodyButtons s1)).
  { apply replaceWith_gone; [done|lia]. }
  split; simpl; unfold appendChild; rewrite removeChild_absent by done.
  - intros ? [= <-]. set_solver.
  - intros x. rewrite length_alter, length_app, elem_of_app. simpl.
    rewrite list_elem_of_singleton.
    intros [[->|Hx%Hb]%replaceWith_elem| ->]; lia.
  - apply NoDup_app. split; [by apply replaceWith_NoDup|].
    split; [|apply NoDup_singleton].
    intros x Hx ->%list_elem_of_singleton. done.
Qed.

Lemma buttons_wf_handleExplanationRequest s :
  buttons_wf s -> buttons_wf (handleExplanationRequest s).
Proof.
  intros Hwf. unfold handleExplanationRequest.
  repeat case_match; try done.
  eapply buttons_wf_frame; [..|exact Hwf]; done.
Qed.

Lemma buttons_wf_forLoop sub fd k s :
  buttons_wf s -> buttons_wf (forLoop sub fd k s).
Proof.
  intros Hwf. unfold forLoop. case_match; [|done].
  eapply buttons_wf_frame; [..|exact Hwf]; done.
Qed.

Lemma buttons_wf_step s e : buttons_wf s -> buttons_wf (step s e).
Proof.
  intros Hwf. destruct e as [i|id o|sel|t sel|t|t|v]; simpl.
  - apply buttons_wf_forLoop.
    eapply buttons_wf_frame; [..|exact Hwf]; done.
  - unfold on_settle.
    destruct (take_pending id (pending s)) as [[k rest]|]; [|done].
    assert (Hwf' : buttons_wf (set_pending rest s)).
    { eapply buttons_wf_frame; [..|exact Hwf]; done. }
    destruct k as [sub fd k c|]; simpl.
    + unfold handleFormSubmit_resume. repeat case_match; try done;
        try (eapply buttons_wf_frame; [..|exact Hwf]; done).
      apply buttons_wf_forLoop.
      eapply buttons_wf_frame; [..|exact Hwf]; done.
    + unfold handleExplanationRequest_resume.
      apply buttons_wf_removeFloatingButton.
      eapply buttons_wf_frame; [..|exact Hwf]; by case_match.
  - unfold handleSelectionChange.
    repeat case_match; try by apply buttons_wf_removeFloatingButton.
    + done.
    + eapply buttons_wf_frame; [..|exact Hwf]; done.
  - unfold on_mouseup. repeat case_match; try done.
    by apply buttons_wf_updateFloatingButtonPosition.
  - unfold on_mousedown.
    repeat case_match;
      repeat (try done; apply buttons_wf_removeFloatingButton).
  - unfold on_click. destruct t as [b| | |]; try done;
      try (eapply buttons_wf_frame; [..|exact Hwf]; done).
    destruct (buttons s !! b) as [e|] eqn:He; [|done].
    destruct (_ && _); [|done].
    apply iter_invariant; [|apply buttons_wf_handleExplanationRequest].
    eapply buttons_wf_frame; [..|exact Hwf]; try done.
    simpl. by rewrite length_insert.
  - eapply buttons_wf_frame; [..|exact Hwf]; done.
Qed.

Lemma buttons_wf_init mv : buttons_wf (init mv).
Proof.
  split; simpl; [done| |constructor].
  intros b Hb. by apply elem_of_nil in Hb.
Qed.

Lemma buttons_wf_run mv es : buttons_wf (run (init mv) es).
Proof.
  apply run_invariant; [apply buttons_wf_init|apply buttons_wf_step].
Qed.

(** *** Step cards and the requests issued *)

Lemma cards_wf_frame s s' :
  pending s' = pending s -> length (cards s) <= length (cards s') ->
  cards_wf s -> cards_wf s'.
Proof.
  intros Hp Hl Hwf id sub fd k c Hin. rewrite Hp in Hin.
  apply Hwf in Hin. lia.
Qed.

Lemma same_net_cards_wf s s' : same_net s s' -> cards_wf s -> cards_wf s'.
Proof.
  intros (_&_&Hp&_&_&Hc&_). apply cards_wf_frame; [done|]. by rewrite Hc.
Qed.

Lemma cards_wf_handleExplanationRequest s :
  cards_wf s -> cards_wf (handleExplanationRequest s).
Proof.
  intros Hwf. unfold handleExplanationRequest. repeat case_match; try done.
  intros id sub fd k c. simpl.
  rewrite elem_of_app, list_elem_of_singleton. intros [Hin|[=]].
  by apply Hwf in Hin.
Qed.

Lemma cards_wf_forLoop sub fd k s :
  cards_wf s -> cards_wf (forLoop sub fd k s).
Proof.
  intros Hwf. unfold forLoop. case_match; [|done].
  intros id sub' fd' k' c. simpl.
  rewrite elem_of_app, list_elem_of_singleton, length_app. simpl.
  intros [Hin|[= -> -> -> -> ->]]; [apply Hwf in Hin|]; lia.
Qed.

Lemma cards_wf_step s e : cards_wf s -> cards_wf (step s e).
Proof.
  intros Hwf. destruct e as [i|id o|sel|t sel|t|t|v]; simpl.
  - apply cards_wf_forLoop. by eapply cards_wf_frame; [..|exact Hwf].
  - unfold on_settle.
    destruct (take_pending id (pending s)) as [[k rest]|] eqn:Htake;
      [|done].
    apply take_pending_perm in Htake.
    assert (Hwf' : cards_wf (set_pending rest s)).
    { intros id' sub fd k' c Hin. simpl in Hin.
      apply (Hwf id' sub fd k' c). rewrite Htake. set_solver. }
    destruct k as [sub fd k c|]; simpl.
    + unfold handleFormSubmit_resume. repeat case_match; try done;
        try apply cards_wf_forLoop;
        (eapply cards_wf_frame; [..|exact Hwf']; [done|]); simpl;
        by rewrite ?length_alter, ?length_insert.
    + unfold handleExplanationRequest_resume.
      eapply same_net_cards_wf; [apply removeFloatingButton_net|].
      eapply cards_wf_frame; [..|exact Hwf']; by case_match.
  - eapply same_net_cards_wf; [apply handleSelectionChange_net|done].
  - eapply same_net_cards_wf; [apply on_mouseup_net|done].
  - eapply same_net_cards_wf; [apply on_mousedown_net|done].
  - unfold on_click. destruct t as [b| | |]; try done.
    destruct (buttons s !! b) as [e|] eqn:He; [|done].
    destruct (_ && _); [|done].
    apply iter_invariant; [|apply cards_wf_handleExplanationRequest].
    by eapply cards_wf_frame; [..|exact Hwf].
  - by eapply cards_wf_frame; [..|exact Hwf].
Qed.

Lemma cards_wf_run mv es : cards_wf (run (init mv) es).
Proof.
  apply run_invariant; [|apply cards_wf_step].
  intros id sub fd k c Hin. by apply elem_of_nil in Hin.
Qed.

Lemma to_backend_fetch r k s :
  to_backend r -> Forall to_backend (requests s) ->
  Forall to_backend (requests (fetch r k s)).
Proof.
  intros Hr Hs. unfold fetch. simpl.
  apply Forall_app. split; [done|by apply Forall_singleton].
Qed.

Lemma to_backend_handleExplanationRequest s :
  Forall to_backend (requests s) ->
  Forall to_backend (requests (handleExplanationRequest s)).
Proof.
  intros Hs. unfold handleExplanationRequest. repeat case_match; try done.
  apply to_backend_fetch; [|done]. by split; [|split; [|right]].
Qed.

Lemma to_backend_forLoop sub fd k s :
  Forall to_backend (requests s) ->
  Forall to_backend (requests (forLoop sub fd k s)).
Proof.
  intros Hs. unfold forLoop. case_match; [|done].
  apply to_backend_fetch; [|done]. by split; [|split; [|left]].
Qed.

Lemma to_backend_step s e :
  Forall to_backend (requests s) -> Forall to_backend (requests (step s e)).
Proof.
  intros Hs. destruct e as [i|id o|sel|t sel|t|t|v]; simpl.
  - by apply to_backend_forLoop.
  - unfold on_settle.
    destruct (take_pending id (pending s)) as [[k rest]|]; [|done].
    destruct k as [sub fd k c|]; simpl.
    + unfold handleFormSubmit_resume. repeat case_match; try done.
      by apply to_backend_forLoop.
    + unfold handleExplanationRequest_resume.
      destruct (removeFloatingButton_net
        (setModalLoading false
           match explanation_settled o with
           | inl message =>
               set_modalContent
                 (ErrorDiv ("Error loading content: " +:+ message))
                 (set_pending rest s)
           | inr markup =>
               set_modalContent (Rendered markup) (set_pending rest s)
           end)) as [-> _].
      by case_match.
  - by destruct (handleSelectionChange_net sel s) as [-> _].
  - by destruct (on_mouseup_net t sel s) as [-> _].
  - by destruct (on_mousedown_net t s) as [-> _].
  - unfold on_click. destruct t as [b| | |]; try done.
    destruct (buttons s !! b) as [e|] eqn:He; [|done].
    destruct (_ && _); [|done].
    by apply (iter_invariant (fun s => Forall to_backend (requests s)));
      [|apply to_backend_handleExplanationRequest].
  - done.
Qed.

(** ** The two endpoints *)

(** C7: every request the script issues with [fetch] is a POST with a JSON
    body to /generate or to /get_component_details, on every page it can
    reach; the one helper that has no caller, [getComponentDetails],
    targets the second of these as well. *)
Theorem requests_go_to_two_endpoints mv es :
  Forall to_backend (requests (run (init mv) es)) /\
  forall component subj,
    to_backend (getComponentDetails_request component subj).
Proof.
  split.
  - apply (run_invariant (fun s => Forall to_backend (requests s)));
      [constructor|apply to_backend_step].
  - intros component subj. by split; [|split; [|right]].
Qed.

(** ** The guard of [handleExplanationRequest] *)

Lemma handleExplanationRequest_blocked s :
  currentSubject s = "" \/ currentSelection s = "" \/
    isModalLoading s = true ->
  handleExplanationRequest s = s.
Proof.
  unfold handleExplanationRequest.
  intros [->%truthy_false|[->%truthy_false| ->]]; simpl;
    [done|by rewrite orb_true_r|by destruct (_ || _)].
Qed.

(** C9: on a page the script can reach, [handleExplanationRequest] leaves
    the page as it is (no fetch, modal untouched, no state changed) when
    the subject is empty, the selection is empty or an explanation is
    already loading; at most one explanation fetch is in flight, and while
    one is, the loading flag is set. *)
Theorem handleExplanationRequest_guarded s :
  reachable s ->
  (currentSubject s = "" \/ currentSelection s = "" \/
     isModalLoading s = true ->
   handleExplanationRequest s = s) /\
  length (explanations_in_flight s) <= 1 /\
  (explanations_in_flight s <> [] -> isModalLoading s = true).
Proof.
  intros (mv & es & ->).
  pose proof (net_wf_run mv es) as Hwf.
  split; [apply handleExplanationRequest_blocked|].
  split; [apply (wf_explain _ Hwf)|].
  intros Hne. destruct (isModalLoading _) eqn:Hload; [done|].
  by apply (wf_loading _ Hwf) in Hload.
Qed.

(** ** Explanations *)

Lemma take_pending_present id k s :
  net_wf s -> (id, k) ∈ pending s ->
  exists rest, take_pending id (pending s) = Some (k, rest).
Proof. intros Hwf. apply take_pending_elem, (wf_nodup _ Hwf). Qed.

Lemma explanation_settled_failed o :
  failed o = true -> exists message, explanation_settled o = inl message.
Proof.
  destruct o as [msg|status b]; simpl; [eauto|].
  intros ->. eauto.
Qed.

Lemma explanation_settled_text o text :
  response_text o = Some text ->
  explanation_settled o = inr (marked_parse text).
Proof.
  destruct o as [msg|status [msg|e [t|]]]; simpl; try done.
  destruct (ok status); [|done]. by intros [= ->].
Qed.

(** X22: when the fetch behind an explanation settles, whatever the
    outcome, the loading flag and the modal's loading class are cleared,
    the floating button the script holds is detached and forgotten, and no
    explanation is in flight any more; when the fetch failed (it was
    rejected, or the status is not ok) the modal content is the error
    line that starts with [Error loading content: ]. *)
Theorem explanation_settles s id o :
  reachable s -> (id, ExplainTask) ∈ pending s ->
  isModalLoading (step s (Settle id o)) = false /\
  modalLoadingClass (step s (Settle id o)) = false /\
  floatingButton (step s (Settle id o)) = None /\
  (forall b, floatingButton s = Some b ->
             b ∉ bodyButtons (step s (Settle id o))) /\
  explanations_in_flight (step s (Settle id o)) = [] /\
  (failed o = true ->
   shows_error "Error loading content: "
     (modalContent (step s (Settle id o)))).
Proof.
  intros (mv & es & ->) Hin.
  pose proof (net_wf_run mv es) as Hwf.
  pose proof (buttons_wf_run mv es) as Hbwf.
  set (s := run (init mv) es) in *.
  destruct (take_pending_present _ _ _ Hwf Hin) as [rest Htake].
  destruct (net_wf_take _ _ _ _ Hwf Htake) as [Hwf' Hnone].
  simpl in Hnone. simpl. unfold on_settle. rewrite Htake. simpl.
  unfold handleExplanationRequest_resume.
  set (s1 := match explanation_settled o with
             | inl message => _ | inr markup => _ end).
  assert (Hs1 : floatingButton s1 = floatingButton s /\
                bodyButtons s1 = bodyButtons s /\
                buttons s1 = buttons s /\ pending s1 = rest).
  { subst s1. by destruct (explanation_settled o). }
  destruct Hs1 as (Hfb & Hbb & Hbs & Hp).
  set (s2 := setModalLoading false s1).
  assert (Hbwf2 : buttons_wf s2).
  { eapply buttons_wf_frame; [..|exact Hbwf]; simpl; congruence. }
  destruct (removeFloatingButton_net s2)
    as (_ & _ & Hpend & Hload & _).
  assert (Hclass : modalLoadingClass (removeFloatingButton s2) = false).
  { unfold removeFloatingButton. by destruct (floatingButton s2). }
  assert (Hcontent : modalContent (removeFloatingButton s2) = modalContent s1).
  { unfold removeFloatingButton. by destruct (floatingButton s2). }
  repeat split.
  - by rewrite Hload.
  - done.
  - apply removeFloatingButton_None.
  - intros b Hb.
    apply (removeFloatingButton_detaches s2 b Hbwf2). simpl. congruence.
  - unfold explanations_in_flight in *. rewrite Hpend. simpl.
    by rewrite Hp.
  - intros Hfail. rewrite Hcontent. subst s1.
    destruct (explanation_settled_failed o Hfail) as [message ->].
    by exists message.
Qed.

(** ** What a submission leaves alone *)

Lemma requests_of_frame sub s s' :
  requests s' = requests s -> origins s' = origins s ->
  requests_of sub s' = requests_of sub s.
Proof. unfold requests_of. by intros -> ->. Qed.

Lemma in_flight_of_frame sub s s' :
  pending s' = pending s -> in_flight_of sub s' = in_flight_of sub s.
Proof. unfold in_flight_of. by intros ->. Qed.

Lemma requests_of_fetch sub r k s :
  length (origins s) = length (requests s) ->
  requests_of sub (fetch r k s) =
  requests_of sub s ++ (if decide (task_origin k = Some sub) then [r] else []).
Proof.
  intros Hlen. unfold requests_of, fetch. simpl.
  rewrite zip_with_app by done. rewrite filter_app, fmap_app. f_equal.
  simpl. destruct (decide (task_origin k = Some sub)).
  - by rewrite filter_cons_True.
  - by rewrite filter_cons_False.
Qed.

Lemma in_flight_of_fetch sub r k s :
  in_flight_of sub (fetch r k s) =
  in_flight_of sub s ++
  (if decide (task_origin k = Some sub)
   then [(length (requests s), k)] else []).
Proof.
  unfold in_flight_of, fetch. simpl. rewrite filter_app. by f_equal.
Qed.

Lemma take_pending_filter (P : nat * task -> Prop)
    `{!forall x, Decision (P x)} id k rest p :
  take_pending id p = Some (k, rest) -> ~ P (id, k) ->
  filter P rest = filter P p.
Proof.
  revert rest. induction p as [|[i k'] p IH]; intros rest; simpl; [done|].
  destruct (Nat.eqb_spec i id) as [->|Hne].
  - intros [= -> ->] HP. by rewrite filter_cons_False.
  - destruct (take_pending id p) as [[k'' rest']|]; [|done].
    intros [= -> <-] HP. specialize (IH rest' eq_refl HP).
    destruct (decide (P (i, k'))).
    + rewrite !filter_cons_True by done. by f_equal.
    + by rewrite !filter_cons_False.
Qed.

(** [silent sub s s']: between [s] and [s'] submission [sub] neither
    gained a fetch nor a parked continuation. *)
Lemma silent_same_net sub s s' :
  same_net s s' ->
  in_flight_of sub s' = in_flight_of sub s /\
  requests_of sub s' = requests_of sub s /\
  submissions s <= submissions s'.
Proof.
  intros (Hr & Ho & Hp & _ & Hs & _).
  split; [by apply in_flight_of_frame|].
  split; [by apply requests_of_frame|lia].
Qed.

Lemma silent_handleExplanationRequest sub s :
  net_wf s ->
  in_flight_of sub (handleExplanationRequest s) = in_flight_of sub s /\
  requests_of sub (handleExplanationRequest s) = requests_of sub s /\
  submissions s <= submissions (handleExplanationRequest s).
Proof.
  intros Hwf. unfold handleExplanationRequest.
  destruct (_ || _); [done|]. destruct (isModalLoading s); [done|].
  rewrite in_flight_of_fetch, requests_of_fetch by apply (wf_origins _ Hwf).
  simpl. rewrite !app_nil_r. done.
Qed.

Lemma silent_forLoop sub sub' fd k s :
  net_wf s -> sub' <> sub ->
  in_flight_of sub (forLoop sub' fd k s) = in_flight_of sub s /\
  requests_of sub (forLoop sub' fd k s) = requests_of sub s /\
  submissions s <= submissions (forLoop sub' fd k s).
Proof.
  intros Hwf Hne. unfold forLoop.
  destruct (lt_maxSteps k (maxSteps fd)); [|done].
  rewrite in_flight_of_fetch, requests_of_fetch by apply (wf_origins _ Hwf).
  simpl. rewrite !decide_False by congruence. by rewrite !app_nil_r.
Qed.

(** An event that does not settle a fetch of submission [sub] leaves that
    submission as it is. *)
Lemma foreign_step sub s e :
  net_wf s -> sub < submissions s ->
  (forall id o k, e = Settle id o -> (id, k) ∈ pending s ->
                  task_origin k <> Some sub) ->
  in_flight_of sub (step s e) = in_flight_of sub s /\
  requests_of sub (step s e) = requests_of sub s /\
  submissions s <= submissions (step s e).
Proof.
  intros Hwf Hsub Hforeign.
  destruct e as [i|id o|sel|t sel|t|t|v]; simpl.
  - unfold handleFormSubmit. cbv zeta.
    set (s3 := set_previousResponses _ _).
    assert (Hwf3 : net_wf s3).
    { eapply net_wf_loading; [..|exact Hwf]; simpl; try done; [lia|].
      apply (wf_loading s Hwf). }
    destruct (silent_forLoop sub (submissions s)
                (read_form i (ui_maxSteps s)) 0 s3 Hwf3 ltac:(lia))
      as (-> & -> & Hle).
    simpl in Hle. repeat split; [lia].
  - unfold on_settle.
    destruct (take_pending id (pending s)) as [[k rest]|] eqn:Htake;
      [|done].
    destruct (net_wf_take _ _ _ _ Hwf Htake) as [Hwf' Hk].
    assert (Hother : task_origin k <> Some sub).
    { apply (Hforeign id o k eq_refl).
      apply take_pending_perm in Htake. rewrite Htake. left. }
    assert (Hrest : in_flight_of sub (set_pending rest s) =
                    in_flight_of sub s).
    { unfold in_flight_of. simpl.
      by apply (take_pending_filter _ id k). }
    rewrite <- Hrest.
    rewrite <- (requests_of_frame sub s (set_pending rest s)) by done.
    change (submissions s) with (submissions (set_pending rest s)).
    generalize dependent (set_pending rest s). clear Htake.
    intros s' Hwf' Hk Hrest.
    destruct k as [sub' fd k c|]; simpl in *.
    + assert (sub' <> sub) by congruence.
      unfold handleFormSubmit_resume.
      destruct (generateStep_settled o) as [message|response]; [done|].
      destruct (cards s' !! c) as [crd|]; [|done].
      destruct (updateStepCard crd response) as [c' [message|]]; [done|].
      destruct response as [text|]; [|done].
      set (s2 := set_previousResponses _ _).
      assert (Hwf2 : net_wf s2).
      { eapply net_wf_frame; [..|exact Hwf']; done. }
      by destruct (silent_forLoop sub sub' fd (k + 1) s2 Hwf2)
        as (-> & -> & Hle).
    + unfold handleExplanationRequest_resume.
      set (s1 := match explanation_settled o with
                 | inl message => _ | inr markup => _ end).
      destruct (silent_same_net sub _ _
                  (removeFloatingButton_net (setModalLoading false s1)))
        as (-> & -> & Hle).
      subst s1. by destruct (explanation_settled o).
  - apply silent_same_net, handleSelectionChange_net.
  - apply silent_same_net, on_mouseup_net.
  - apply silent_same_net, on_mousedown_net.
  - unfold on_click. destruct t as [b| | |]; try done.
    destruct (buttons s !! b) as [e|] eqn:He; [|done].
    destruct (_ && _); [|done].
    set (s1 := set_buttons _ s).
    assert (Hwf1 : net_wf s1).
    { eapply net_wf_frame; [..|exact Hwf]; done. }
    change (in_flight_of sub s) with (in_flight_of sub s1).
    change (requests_of sub s) with (requests_of sub s1).
    change (submissions s) with (submissions s1).
    generalize (listeners e). intros n. induction n as [|n IH]; [done|].
    simpl. destruct IH as (IH1 & IH2 & IH3).
    assert (Hwfn : net_wf (Nat.iter n handleExplanationRequest s1)).
    { by apply iter_invariant; [|apply net_wf_handleExplanationRequest]. }
    destruct (silent_handleExplanationRequest sub _ Hwfn)
      as (-> & -> & Hle).
    split; [done|]. split; [done|].
    change (submissions s) with (submissions s1) in *. lia.
  - done.
Qed.

Lemma silent_step sub s e :
  net_wf s -> in_flight_of sub s = [] -> sub < submissions s ->
  in_flight_of sub (step s e) = [] /\
  requests_of sub (step s e) = requests_of sub s /\
  sub < submissions (step s e).
Proof.
  intros Hwf Hnone Hsub.
  destruct (foreign_step sub s e Hwf Hsub) as (-> & -> & ?).
  - intros id o k _ Hin Hk.
    assert (Hq : (id, k) ∈ in_flight_of sub s).
    { by apply list_elem_of_filter. }
    rewrite Hnone in Hq. by apply elem_of_nil in Hq.
  - split; [done|]. split; [done|lia].
Qed.

Lemma silent_run sub s es :
  net_wf s -> in_flight_of sub s = [] -> sub < submissions s ->
  in_flight_of sub (run s es) = [] /\
  requests_of sub (run s es) = requests_of sub s.
Proof.
  revert s. induction es as [|e es IH]; intros s Hwf Hnone Hsub; [done|].
  destruct (silent_step sub s e Hwf Hnone Hsub) as (Hnone' & Hreq & Hsub').
  rewrite run_cons, <- Hreq. apply IH; [by apply net_wf_step|done..].
Qed.

(** ** Generation *)

Lemma generateStep_settled_failed o :
  failed o = true -> exists message, generateStep_settled o = inl message.
Proof.
  destruct o as [msg|status [msg|e r]]; simpl; [eauto..|].
  intros ->. eauto.
Qed.

Lemma generateStep_settled_text o text :
  response_text o = Some text -> generateStep_settled o = inr (Some text).
Proof.
  destruct o as [msg|status [msg|e [t|]]]; simpl; try done.
  destruct (ok status); [|done]. by intros [= ->].
Qed.

(** Step cards are created by the loop only, one with each request to
    /generate. *)
Lemma cards_match_requests mv es :
  length (cards (run (init mv) es)) =
  length (generate_requests (run (init mv) es)).
Proof.
  apply (run_invariant
           (fun s => length (cards s) = length (generate_requests s)));
    [done|].
  assert (Hloop : forall sub fd k s,
    length (cards s) = length (generate_requests s) ->
    length (cards (forLoop sub fd k s)) =
    length (generate_requests (forLoop sub fd k s))).
  { intros sub fd k s Hs. unfold forLoop. case_match; [|done].
    unfold generate_requests in *. simpl.
    rewrite filter_app, !length_app, Hs. done. }
  assert (Hexplain : forall s,
    length (cards s) = length (generate_requests s) ->
    length (cards (handleExplanationRequest s)) =
    length (generate_requests (handleExplanationRequest s))).
  { intros s Hs. unfold handleExplanationRequest.
    repeat case_match; try done.
    unfold generate_requests in *. simpl.
    rewrite filter_app, length_app, Hs. simpl. lia. }
  intros s e Hs. destruct e as [i|id o|sel|t sel|t|t|v]; simpl.
  - by apply Hloop.
  - unfold on_settle.
    destruct (take_pending id (pending s)) as [[k rest]|]; [|done].
    destruct k as [sub fd k c|]; simpl.
    + unfold handleFormSubmit_resume. repeat case_match; try done;
        try apply Hloop; unfold generate_requests in *; simpl;
        by rewrite ?length_alter, ?length_insert.
    + unfold handleExplanationRequest_resume.
      destruct (removeFloatingButton_net
        (setModalLoading false
           match explanation_settled o with
           | inl message =>
               set_modalContent
                 (ErrorDiv ("Error loading content: " +:+ message))
                 (set_pending rest s)
           | inr markup =>
               set_modalContent (Rendered markup) (set_pending rest s)
           end)) as (Hr & _ & _ & _ & _ & Hc & _).
      unfold generate_requests in *. rewrite Hr, Hc. by case_match.
  - destruct (handleSelectionChange_net sel s)
      as (Hr & _ & _ & _ & _ & Hc & _).
    unfold generate_requests in *. by rewrite Hr, Hc.
  - destruct (on_mouseup_net t sel s) as (Hr & _ & _ & _ & _ & Hc & _).
    unfold generate_requests in *. by rewrite Hr, Hc.
  - destruct (on_mousedown_net t s) as (Hr & _ & _ & _ & _ & Hc & _).
    unfold generate_requests in *. by rewrite Hr, Hc.
  - unfold on_click. destruct t as [b| | |]; try done.
    destruct (buttons s !! b) as [e|] eqn:He; [|done].
    destruct (_ && _); [|done].
    by apply (iter_invariant
                (fun s => length (cards s) = length (generate_requests s))).
  - done.
Qed.

(** The most recent submission keeps its card in the results area. *)
Lemma pending_started s id sub fd k c :
  net_wf s -> (id, GenerateTask sub fd k c) ∈ pending s ->
  sub < submissions s.
Proof.
  intros Hwf Hin. destruct (decide (sub < submissions s)); [done|].
  assert (Hf : (id, GenerateTask sub fd k c) ∈ in_flight_of sub s).
  { unfold in_flight_of. by apply list_elem_of_filter. }
  rewrite (wf_fresh _ Hwf sub) in Hf by lia. by apply elem_of_nil in Hf.
Qed.

Lemma latest_attached_frame s s' :
  pending s' = pending s -> submissions s' = submissions s ->
  resultsDiv s ⊆ resultsDiv s' ->
  latest_attached s -> latest_attached s'.
Proof.
  intros Hp Hs Hr Hl id sub fd k c Hin Hsub. rewrite Hp in Hin.
  rewrite Hs in Hsub. apply Hr. by eapply Hl.
Qed.

Lemma latest_attached_forLoop sub fd k s :
  latest_attached s -> latest_attached (forLoop sub fd k s).
Proof.
  intros Hl. unfold forLoop. case_match; [|done].
  intros id sub' fd' k' c. simpl.
  rewrite !elem_of_app, !list_elem_of_singleton.
  intros [Hin|[= -> -> -> -> ->]] Hsub; [left; by eapply Hl|by right].
Qed.

Lemma latest_attached_handleExplanationRequest s :
  latest_attached s -> latest_attached (handleExplanationRequest s).
Proof.
  intros Hl. unfold handleExplanationRequest. repeat case_match; try done.
  intros id sub fd k c. simpl.
  rewrite elem_of_app, list_elem_of_singleton. intros [Hin|[=]].
  by eapply Hl.
Qed.

Lemma latest_attached_step s e :
  net_wf s -> latest_attached s -> latest_attached (step s e).
Proof.
  intros Hwf Hl.
  assert (Hnet : forall s', same_net s s' -> latest_attached s').
  { intros s' (_&_&Hp&_&Hs&_&Hr&_).
    eapply latest_attached_frame; [done..| |done]. by rewrite Hr. }
  destruct e as [i|id o|sel|t sel|t|t|v]; simpl.
  - unfold handleFormSubmit. cbv zeta. apply latest_attached_forLoop.
    intros id sub fd k c Hin Hsub. simpl in *.
    apply (pending_started _ _ _ _ _ _ Hwf) in Hin. lia.
  - unfold on_settle.
    destruct (take_pending id (pending s)) as [[k rest]|] eqn:Htake;
      [|done].
    pose proof (take_pending_perm _ _ _ _ Htake) as Hperm.
    assert (Hl' : latest_attached (set_pending rest s)).
    { intros id' sub fd k' c Hin. simpl in *.
      apply (Hl id' sub fd k' c). rewrite Hperm. by right. }
    destruct k as [sub fd k c|]; simpl.
    + unfold handleFormSubmit_resume.
      repeat case_match; try done; try apply latest_attached_forLoop;
        by eapply latest_attached_frame; [..|exact Hl'].
    + unfold handleExplanationRequest_resume.
      match goal with
      | |- latest_attached (removeFloatingButton ?x) =>
          destruct (removeFloatingButton_net x) as (_&_&Hp&_&Hs&_&Hr&_)
      end.
      eapply latest_attached_frame; [exact Hp|exact Hs|by rewrite Hr|].
      eapply latest_attached_frame; [..|exact Hl']; by case_match.
  - apply Hnet, handleSelectionChange_net.
  - apply Hnet, on_mouseup_net.
  - apply Hnet, on_mousedown_net.
  - unfold on_click. destruct t as [b| | |]; try done.
    destruct (buttons s !! b) as [e|]; [|done].
    destruct (_ && _); [|done].
    apply iter_invariant; [|apply latest_attached_handleExplanationRequest].
    by eapply latest_attached_frame; [..|exact Hl].
  - by eapply latest_attached_frame; [..|exact Hl].
Qed.

Lemma latest_attached_run mv es : latest_attached (run (init mv) es).
Proof.
  induction es as [|e es IH] using rev_ind.
  - intros id sub fd k c Hin. by apply elem_of_nil in Hin.
  - rewrite run_snoc. apply latest_attached_step; [apply net_wf_run|done].
Qed.

(** X21: when the fetch of step [k] of a submission fails (it is rejected,
    or it comes back with a status that is not ok), the step card of that
    step holds the error line that starts with
    [Error generating content: ], no request leaves, no step card is
    created or attached, [previousResponses] is left as it was, and the
    submission is over: whatever happens next, it has nothing in flight
    and issues no further request.  When the submission is the most recent
    one, its card is a child of the results area, so the error line is on
    the page. *)
Theorem generation_failure_stops s id sub fd k c o :
  reachable s -> (id, GenerateTask sub fd k c) ∈ pending s ->
  failed o = true ->
  (exists crd, cards (step s (Settle id o)) !! c = Some crd /\
     shows_error "Error generating content: " (step_content crd)) /\
  requests (step s (Settle id o)) = requests s /\
  length (cards (step s (Settle id o))) = length (cards s) /\
  resultsDiv (step s (Settle id o)) = resultsDiv s /\
  previousResponses (step s (Settle id o)) = previousResponses s /\
  (S sub = submissions s -> c ∈ resultsDiv (step s (Settle id o))) /\
  forall es,
    in_flight_of sub (run (step s (Settle id o)) es) = [] /\
    requests_of sub (run (step s (Settle id o)) es) = requests_of sub s.
Proof.
  intros (mv & es0 & ->) Hin Hfail.
  pose proof (net_wf_run mv es0) as Hwf.
  pose proof (cards_wf_run mv es0 _ _ _ _ _ Hin) as Hc.
  pose proof (latest_attached_run mv es0 _ _ _ _ _ Hin) as Hshown.
  set (s := run (init mv) es0) in *.
  destruct (take_pending_present _ _ _ Hwf Hin) as [rest Htake].
  destruct (net_wf_take _ _ _ _ Hwf Htake) as [Hwf' [Hnone Hsub]].
  destruct (generateStep_settled_failed o Hfail) as [message Hmsg].
  assert (Hstep : step s (Settle id o) =
    set_cards (alter (showError message) c (cards s)) (set_pending rest s)).
  { simpl. unfold on_settle. rewrite Htake. simpl.
    unfold handleFormSubmit_resume. by rewrite Hmsg. }
  rewrite Hstep. clear Hstep.
  set (s' := set_cards _ _).
  assert (Hwf'' : net_wf s').
  { eapply net_wf_frame; [..|exact Hwf']; done. }
  assert (Hreq : requests_of sub s' = requests_of sub s).
  { by apply requests_of_frame. }
  split_and!; try done.
  - destruct (lookup_lt_is_Some_2 (cards s) c Hc) as [crd Hcrd].
    exists (showError message crd). simpl.
    rewrite list_lookup_alter, decide_True, Hcrd by done.
    split; [reflexivity|]. by exists message.
  - simpl. by rewrite length_alter.
  - intros es. split.
    + by apply silent_run.
    + rewrite <- Hreq. by apply silent_run.
Qed.

Lemma ui_maxSteps_step s e : ui_maxSteps (step s e) = ui_maxSteps s.
Proof.
  destruct e as [i|id o|sel|t sel|t|t|v]; simpl.
  - unfold handleFormSubmit, forLoop. by case_match.
  - unfold on_settle.
    destruct (take_pending id (pending s)) as [[k rest]|]; [|done].
    destruct k as [sub fd k c|]; simpl.
    + unfold handleFormSubmit_resume, forLoop. by repeat case_match.
    + unfold handleExplanationRequest_resume.
      match goal with
      | |- ui_maxSteps (removeFloatingButton ?x) = _ =>
          destruct (removeFloatingButton_net x)
            as (_&_&_&_&_&_&_&_&_& ->)
      end.
      by case_match.
  - by destruct (handleSelectionChange_net sel s) as (_&_&_&_&_&_&_&_&_& ->).
  - by destruct (on_mouseup_net t sel s) as (_&_&_&_&_&_&_&_&_& ->).
  - by destruct (on_mousedown_net t s) as (_&_&_&_&_&_&_&_&_& ->).
  - unfold on_click. destruct t as [b| | |]; try done.
    destruct (buttons s !! b) as [e|] eqn:He; [|done].
    destruct (_ && _); [|done].
    apply (iter_invariant (fun s' => ui_maxSteps s' = ui_maxSteps s));
      [done|].
    intros s' <-. unfold handleExplanationRequest. by repeat case_match.
  - done.
Qed.

Lemma ui_maxSteps_run mv es :
  ui_maxSteps (run (init mv) es) = read_maxSteps mv.
Proof.
  apply (run_invariant (fun s => ui_maxSteps s = read_maxSteps mv));
    [done|].
  intros s e <-. apply ui_maxSteps_step.
Qed.

Lemma take_pending_last id k p :
  (forall q, q ∈ p -> q.1 <> id) ->
  take_pending id (p ++ [(id, k)]) = Some (k, p).
Proof.
  induction p as [|[i k'] p IH]; intros Hp; simpl.
  - by rewrite Nat.eqb_refl.
  - destruct (Nat.eqb_spec i id) as [->|Hne].
    + exfalso. apply (Hp (id, k')); [left|done].
    + rewrite IH; [done|]. intros q Hq. apply Hp. by right.
Qed.

(** The page a submit event leaves behind. *)
Lemma submit_effect i s :
  let fd := read_form i (ui_maxSteps s) in
  let s' := step s (Submit i) in
  currentSubject s' = in_subject i /\
  submissions s' = S (submissions s) /\
  if lt_maxSteps 0 (ui_maxSteps s) then
    requests s' = requests s ++ [generateStep_request fd 0 []] /\
    cards s' = cards s ++ [createStepCard 1] /\
    resultsDiv s' = [length (cards s)] /\
    previousResponses s' = [] /\
    pending s' =
      pending s ++
      [(length (requests s),
        GenerateTask (submissions s) fd 0 (length (cards s)))]
  else
    requests s' = requests s /\ cards s' = cards s /\
    resultsDiv s' = [] /\ previousResponses s' = [] /\
    pending s' = pending s.
Proof.
  simpl. unfold handleFormSubmit, forLoop. cbv zeta. simpl.
  by destruct (lt_maxSteps 0 (ui_maxSteps s)).
Qed.

(** The page left behind when the fetch of step [j] settles with a
    response text: the card is rendered, the text is pushed, and the loop
    goes on to step [j + 1] or ends. *)
Lemma settle_success_effect s id sub fd j o text P C :
  pending s = P ++ [(id, GenerateTask sub fd j (length C))] ->
  (forall q, q ∈ P -> q.1 <> id) ->
  cards s = C ++ [createStepCard (j + 1)] ->
  response_text o = Some text ->
  let s' := step s (Settle id o) in
  previousResponses s' = previousResponses s ++ [text] /\
  if lt_maxSteps (j + 1) (maxSteps fd) then
    requests s' =
      requests s ++
      [generateStep_request fd (j + 1) (previousResponses s ++ [text])] /\
    cards s' = C ++ [rendered_card j text; createStepCard (j + 1 + 1)] /\
    resultsDiv s' = resultsDiv s ++ [S (length C)] /\
    pending s' =
      P ++ [(length (requests s),
             GenerateTask sub fd (j + 1) (S (length C)))]
  else
    requests s' = requests s /\
    cards s' = C ++ [rendered_card j text] /\
    resultsDiv s' = resultsDiv s /\
    pending s' = P.
Proof.
  intros Hp Hfresh Hc Ho. simpl. unfold on_settle.
  rewrite Hp, take_pending_last by done. simpl.
  unfold handleFormSubmit_resume.
  rewrite (generateStep_settled_text _ _ Ho). simpl.
  rewrite Hc, lookup_app_r, Nat.sub_diag by done. simpl.
  rewrite insert_app_r_alt, Nat.sub_diag by done. simpl.
  unfold forLoop. simpl.
  destruct (lt_maxSteps (j + 1) (maxSteps fd)); simpl; [|done].
  rewrite length_app, <- app_assoc. simpl.
  repeat split; try done; repeat f_equal; lia.
Qed.

Lemma lt_maxSteps_integer k m N :
  ToNumber m = Finite (Z.of_nat N # 1) ->
  lt_maxSteps k m = bool_decide (k < N).
Proof. unfold lt_maxSteps. intros ->. apply nat_lt_number_integer. Qed.

Lemma settle_all_snoc first os o :
  settle_all first (os ++ [o]) =
  settle_all first os ++ [Settle (first + length os) o].
Proof.
  unfold settle_all. rewrite imap_app. simpl. by rewrite Nat.add_0_r.
Qed.

(** The loop invariant of one submission whose responses arrive one after
    the other, each with a response text. *)
Lemma submission_progress s i N os texts :
  net_wf s ->
  ToNumber (ui_maxSteps s) = Finite (Z.of_nat N # 1) ->
  Forall2 (fun o text => response_text o = Some text) os texts ->
  length os <= N ->
  requests (run s (Submit i :: settle_all (length (requests s)) os)) =
    requests s ++
    map (fun k => generateStep_request (read_form i (ui_maxSteps s)) k
                    (take k texts))
        (seq 0 (min (S (length os)) N)) /\
  cards (run s (Submit i :: settle_all (length (requests s)) os)) =
    cards s ++ imap rendered_card texts ++
    (if decide (length os < N)
     then [createStepCard (length os + 1)] else []) /\
  resultsDiv (run s (Submit i :: settle_all (length (requests s)) os)) =
    seq (length (cards s)) (min (S (length os)) N) /\
  previousResponses
    (run s (Submit i :: settle_all (length (requests s)) os)) = texts /\
  pending (run s (Submit i :: settle_all (length (requests s)) os)) =
    pending s ++
    (if decide (length os < N)
     then [(length (requests s) + length os,
            GenerateTask (submissions s) (read_form i (ui_maxSteps s))
              (length os) (length (cards s) + length os))]
     else []).
Proof.
  intros Hwf HN. revert texts.
  induction os as [|o os IH] using rev_ind; intros texts Hos Hlen.
  - apply Forall2_nil_inv_l in Hos as ->. simpl length.
    change (run s (Submit i :: settle_all _ []))
      with (step s (Submit i)).
    destruct (submit_effect i s) as (_ & _ & Heff).
    rewrite (lt_maxSteps_integer _ _ _ HN) in Heff.
    rewrite !Nat.add_0_r.
    case_bool_decide as H0; destruct Heff as (-> & -> & -> & -> & ->).
    + rewrite !decide_True by done.
      replace (min 1 N) with 1 by lia. done.
    + rewrite !decide_False by done.
      replace (min 1 N) with 0 by lia. simpl. by rewrite !app_nil_r.
  - apply Forall2_app_inv_l in Hos
      as (texts0 & t1 & Hos & Ho & ->).
    apply Forall2_cons_inv_l in Ho as (text & ? & Ho & ->%Forall2_nil_inv_l & ->).
    rewrite length_app in *. change (length [o]) with 1 in *.
    pose proof (Forall2_length _ _ _ Hos) as Hlen0.
    specialize (IH texts0 Hos ltac:(lia)).
    destruct IH as (Hr & Hc & Hd & Hprev & Hp).
    rewrite decide_True in Hc by lia. rewrite decide_True in Hp by lia.
    replace (min (S (length os)) N) with (S (length os)) in Hr, Hd by lia.
    rewrite settle_all_snoc, app_comm_cons, run_snoc.
    set (sj := run s (Submit i :: settle_all (length (requests s)) os)) in *.
    rewrite app_assoc in Hc.
    assert (Hcid : length (cards s) + length os =
                   length (cards s ++ imap rendered_card texts0)).
    { rewrite length_app, length_imap. lia. }
    rewrite Hcid in Hp.
    destruct (settle_success_effect sj _ _ _ _ o text _ _ Hp) as (Hprev' & Heff);
      [|exact Hc|exact Ho|].
    { intros [id k] Hq. apply (wf_ids _ Hwf) in Hq. simpl. lia. }
    simpl maxSteps in Heff.
    rewrite (lt_maxSteps_integer _ _ _ HN) in Heff.
    rewrite Hprev', Hprev.
    case_bool_decide as Hnext; destruct Heff as (Er & Ec & Ed & Ep);
      rewrite Er, Ec, Ed, Ep; clear Er Ec Ed Ep; split_and!; try done.
    + replace (min (S (length os + 1)) N) with (S (S (length os))) by lia.
      rewrite Hr, Hprev, (seq_S (S (length os))), map_app, <- app_assoc.
      f_equal. f_equal.
      * apply map_ext_in. intros k Hk%in_seq. f_equal.
        by rewrite take_app_le by lia.
      * simpl. replace (S (length os)) with (length os + 1) by lia.
        do 2 f_equal. rewrite take_ge; [done|].
        rewrite length_app. simpl. lia.
    + rewrite decide_True by lia. rewrite imap_app. simpl.
      rewrite <- !app_assoc. simpl. rewrite Nat.add_0_r, <- Hlen0.
      repeat f_equal; lia.
    + replace (min (S (length os + 1)) N) with (S (S (length os))) by lia.
      rewrite Hd, (seq_S (S (length os))). f_equal. f_equal.
      rewrite <- Hcid. lia.
    + rewrite decide_True by lia. rewrite Hr, length_app, length_map, length_seq.
      rewrite <- Hcid. repeat f_equal; lia.
    + replace (min (S (length os + 1)) N) with (S (length os)) by lia.
      rewrite Hr. f_equal. apply map_ext_in.
      intros k Hk%in_seq. f_equal. by rewrite take_app_le by lia.
    + rewrite decide_False by lia. rewrite imap_app. simpl.
      rewrite <- !app_assoc. simpl. by rewrite Nat.add_0_r, <- Hlen0.
    + replace (min (S (length os + 1)) N) with (S (length os)) by lia.
      done.
    + rewrite decide_False by lia. by rewrite app_nil_r.
Qed.

Lemma reachable_run s es : reachable s -> reachable (run s es).
Proof.
  intros (mv & es0 & ->). exists mv, (es0 ++ es). by rewrite run_app.
Qed.

Lemma reachable_net_wf s : reachable s -> net_wf s.
Proof. intros (mv & es & ->). apply net_wf_run. Qed.

(** Each submission has at most one fetch in flight, on every page the
    script can reach, however submissions overlap. *)
Lemma one_fetch_per_submission s sub :
  reachable s -> length (in_flight_of sub s) <= 1.
Proof. intros Hs. apply (wf_sub _ (reachable_net_wf s Hs)). Qed.

(** X20: a submission on a page whose [maxSteps] is the number [N], whose
    fetches are answered one after the other with a response text.  After
    the submit event and the first [length os] responses:
    - the requests it has issued are those of steps 0, 1, ... in order,
      each a POST to /generate with the form data, the step index and the
      responses received before it; there is one more request than there
      are responses, until step [N - 1] has been sent;
    - each answered step has its card with the loading indicators removed
      and the rendered response, and the step awaiting its response has a
      fresh card; the cards are the children of the results area, in step
      order;
    - the submission has exactly one fetch in flight while a step is
      awaiting its response and none once [N] responses have arrived, so
      the request of step [k + 1] leaves only after the response of step
      [k] has been rendered; no submission ever has more than one fetch
      in flight. *)
Theorem submission_runs_in_order s i N os texts :
  reachable s ->
  ToNumber (ui_maxSteps s) = Finite (Z.of_nat N # 1) ->
  Forall2 (fun o text => response_text o = Some text) os texts ->
  length os <= N ->
  requests (run s (Submit i :: settle_all (length (requests s)) os)) =
    requests s ++
    map (fun k => generateStep_request (read_form i (ui_maxSteps s)) k
                    (take k texts))
        (seq 0 (min (S (length os)) N)) /\
  cards (run s (Submit i :: settle_all (length (requests s)) os)) =
    cards s ++ imap rendered_card texts ++
    (if decide (length os < N)
     then [createStepCard (length os + 1)] else []) /\
  resultsDiv (run s (Submit i :: settle_all (length (requests s)) os)) =
    seq (length (cards s)) (min (S (length os)) N) /\
  previousResponses
    (run s (Submit i :: settle_all (length (requests s)) os)) = texts /\
  in_flight_of (submissions s)
    (run s (Submit i :: settle_all (length (requests s)) os)) =
    (if decide (length os < N)
     then [(length (requests s) + length os,
            GenerateTask (submissions s) (read_form i (ui_maxSteps s))
              (length os) (length (cards s) + length os))]
     else []) /\
  forall sub,
    length (in_flight_of sub
              (run s (Submit i :: settle_all (length (requests s)) os)))
    <= 1.
Proof.
  intros Hs HN Hos Hlen.
  pose proof (reachable_net_wf s Hs) as Hwf.
  destruct (submission_progress s i N os texts Hwf HN Hos Hlen)
    as (Hr & Hc & Hd & Hprev & Hp).
  split_and!; try done.
  - unfold in_flight_of. rewrite Hp, filter_app.
    fold (in_flight_of (submissions s) s).
    rewrite (wf_fresh _ Hwf) by done. simpl.
    destruct (decide (length os < N)); [|done].
    by rewrite filter_cons_True.
  - intros sub. by apply one_fetch_per_submission, reachable_run.
Qed.

Lemma origins_bounded_frame s s' :
  origins s' = origins s -> submissions s <= submissions s' ->
  origins_bounded s -> origins_bounded s'.
Proof.
  intros Ho Hs Hb sub Hin. rewrite Ho in Hin. apply Hb in Hin. lia.
Qed.

Lemma origins_bounded_handleExplanationRequest s :
  origins_bounded s -> origins_bounded (handleExplanationRequest s).
Proof.
  intros Hb. unfold handleExplanationRequest. repeat case_match; try done.
  intros sub. simpl. rewrite elem_of_app, list_elem_of_singleton.
  intros [Hin|[=]]. by apply Hb.
Qed.

Lemma origins_bounded_forLoop sub fd k s :
  sub < submissions s -> origins_bounded s ->
  origins_bounded (forLoop sub fd k s).
Proof.
  intros Hsub Hb. unfold forLoop. case_match; [|done].
  intros sub'. simpl. rewrite elem_of_app, list_elem_of_singleton.
  intros [Hin|[= ->]]; [by apply Hb|done].
Qed.

Lemma origins_bounded_step s e :
  net_wf s -> origins_bounded s -> origins_bounded (step s e).
Proof.
  intros Hwf Hb. destruct e as [i|id o|sel|t sel|t|t|v]; simpl.
  - apply origins_bounded_forLoop; [simpl; lia|].
    eapply origins_bounded_frame; [..|exact Hb]; simpl; [done|lia].
  - unfold on_settle.
    destruct (take_pending id (pending s)) as [[k rest]|] eqn:Htake;
      [|done].
    destruct (net_wf_take _ _ _ _ Hwf Htake) as [_ Hk].
    destruct k as [sub fd k c|]; simpl in *.
    + destruct Hk as [_ Hsub].
      unfold handleFormSubmit_resume. repeat case_match; try done.
      by apply origins_bounded_forLoop.
    + unfold handleExplanationRequest_resume.
      match goal with
      | |- origins_bounded (removeFloatingButton ?x) =>
          destruct (removeFloatingButton_net x) as (_& Ho &_&_& Hs &_)
      end.
      eapply origins_bounded_frame; [exact Ho|by rewrite Hs|].
      by case_match.
  - destruct (handleSelectionChange_net sel s) as (_& Ho &_&_& Hs &_).
    eapply origins_bounded_frame; [exact Ho|by rewrite Hs|done].
  - destruct (on_mouseup_net t sel s) as (_& Ho &_&_& Hs &_).
    eapply origins_bounded_frame; [exact Ho|by rewrite Hs|done].
  - destruct (on_mousedown_net t s) as (_& Ho &_&_& Hs &_).
    eapply origins_bounded_frame; [exact Ho|by rewrite Hs|done].
  - unfold on_click. destruct t as [b| | |]; try done.
    destruct (buttons s !! b) as [e|] eqn:He; [|done].
    destruct (_ && _); [|done].
    by apply iter_invariant;
      [|apply origins_bounded_handleExplanationRequest].
  - done.
Qed.

Lemma origins_bounded_run mv es : origins_bounded (run (init mv) es).
Proof.
  cut (net_wf (run (init mv) es) /\ origins_bounded (run (init mv) es)).
  { by intros [_ ?]. }
  apply (run_invariant (fun s => net_wf s /\ origins_bounded s)).
  - split; [apply net_wf_init|]. intros sub Hin.
    by apply elem_of_nil in Hin.
  - intros s e [Hwf Hb].
    split; [by apply net_wf_step|by apply origins_bounded_step].
Qed.

Lemma requests_of_fresh s sub :
  reachable s -> submissions s <= sub -> requests_of sub s = [].
Proof.
  intros (mv & es & ->) Hsub.
  pose proof (origins_bounded_run mv es sub) as Hb.
  unfold requests_of.
  destruct (filter _ _) as [|[r o] l] eqn:Hf; [done|]. exfalso.
  assert (Hin : (r, o) ∈ filter (fun p : request * option nat => p.2 = Some sub)
                  (zip (requests (run (init mv) es))
                       (origins (run (init mv) es)))).
  { rewrite Hf. left. }
  apply list_elem_of_filter in Hin as [Ho Hin]. simpl in Ho. subst o.
  apply elem_of_zip_r in Hin. apply Hb in Hin. lia.
Qed.

Lemma final_step_step sub s e :
  net_wf s -> sub < submissions s -> final_step sub s ->
  requests_of sub (step s e) = requests_of sub s /\
  final_step sub (step s e) /\ sub < submissions (step s e).
Proof.
  intros Hwf Hsub Hfinal.
  assert (Hforeign :
    (forall id o k, e = Settle id o -> (id, k) ∈ pending s ->
                    task_origin k <> Some sub) ->
    requests_of sub (step s e) = requests_of sub s /\
    final_step sub (step s e) /\ sub < submissions (step s e)).
  { intros Hf. destruct (foreign_step sub s e Hwf Hsub Hf) as (Hi & Hr & ?).
    split; [done|]. split; [|lia]. unfold final_step. by rewrite Hi. }
  destruct e as [i|id o|sel|t sel|t|t|v]; try by apply Hforeign.
  destruct (take_pending id (pending s)) as [[k rest]|] eqn:Htake.
  - apply take_pending_perm in Htake as Hperm.
    destruct (decide (task_origin k = Some sub)) as [Hown|Hother].
    + assert (Hq : (id, k) ∈ in_flight_of sub s).
      { apply list_elem_of_filter. split; [done|]. rewrite Hperm. left. }
      destruct (Hfinal id k Hq) as (fd & j & c & -> & Hlast).
      assert (Hstep :
        requests (step s (Settle id o)) = requests s /\
        origins (step s (Settle id o)) = origins s /\
        pending (step s (Settle id o)) = rest /\
        submissions (step s (Settle id o)) = submissions s).
      { simpl. unfold on_settle. rewrite Htake. simpl.
        unfold handleFormSubmit_resume, forLoop. rewrite Hlast.
        by repeat case_match. }
      destruct Hstep as (Hr & Ho & Hp & Hs).
      split; [by apply requests_of_frame|]. split; [|lia].
      intros id' k' Hin. apply (Hfinal id' k').
      unfold in_flight_of in *. rewrite Hp in Hin.
      apply list_elem_of_filter in Hin as [? Hin].
      apply list_elem_of_filter. split; [done|]. rewrite Hperm. by right.
    + apply Hforeign. intros id' o' k' [= <- <-] Hin.
      assert (k' = k) as ->; [|done].
      destruct (take_pending_present _ _ _ Hwf Hin) as [rest' Htake'].
      congruence.
  - apply Hforeign. intros id' o' k' [= <- <-] Hin.
    apply take_pending_None in Htake. exfalso. apply Htake.
    apply list_elem_of_fmap. by exists (id, k').
Qed.

Lemma final_step_run sub s es :
  net_wf s -> sub < submissions s -> final_step sub s ->
  requests_of sub (run s es) = requests_of sub s.
Proof.
  revert s. induction es as [|e es IH]; intros s Hwf Hsub Hfinal; [done|].
  destruct (final_step_step sub s e Hwf Hsub Hfinal) as (Hr & Hf & Hs).
  rewrite run_cons, <- Hr. apply IH; [by apply net_wf_step|done..].
Qed.

(** C10: on the document as shipped, which has no element with id
    maxSteps, [maxSteps] is the number 1.  A submit event then creates one
    step card (number 1, with its loading bar and loading text and no
    content yet), makes it the only child of the results area and sends
    one request: a POST to /generate whose JSON body holds the five form
    inputs, [maxSteps] 1, step index 0 and an empty [previousResponses].
    Whatever happens afterwards, the submission issues no second request,
    and the script creates a step card only together with a request to
    /generate. *)
Theorem default_is_a_single_step es i es' :
  ui_maxSteps (run (init None) es) = VNumber (Finite 1) /\
  cards (step (run (init None) es) (Submit i)) =
    cards (run (init None) es) ++
    [{| data_step := 1; loading_bar := true; loading_text := true;
        step_content := NoContent |}] /\
  resultsDiv (step (run (init None) es) (Submit i)) =
    [length (cards (run (init None) es))] /\
  requests (step (run (init None) es) (Submit i)) =
    requests (run (init None) es) ++
    [{| url := "/generate"; method := "POST";
        contentType := "application/json";
        body :=
          GenerateBody
            {| subject := in_subject i;
               currentLevel := in_currentLevel i;
               timeAvailable := in_timeAvailable i;
               learningStyle := in_learningStyle i;
               goal := in_goal i;
               maxSteps := VNumber (Finite 1) |}
            0 [] |}] /\
  requests_of (submissions (run (init None) es))
    (run (step (run (init None) es) (Submit i)) es') =
    [{| url := "/generate"; method := "POST";
        contentType := "application/json";
        body :=
          GenerateBody
            {| subject := in_subject i;
               currentLevel := in_currentLevel i;
               timeAvailable := in_timeAvailable i;
               learningStyle := in_learningStyle i;
               goal := in_goal i;
               maxSteps := VNumber (Finite 1) |}
            0 [] |}] /\
  length (cards (run (step (run (init None) es) (Submit i)) es')) =
    length (generate_requests
              (run (step (run (init None) es) (Submit i)) es')).
Proof.
  pose proof (net_wf_run None es) as Hwf.
  pose proof (ui_maxSteps_run None es) as Hm.
  change (read_maxSteps None) with (VNumber (Finite 1)) in Hm.
  assert (Hs : reachable (run (init None) es)) by by exists None, es.
  set (s := run (init None) es) in *.
  destruct (submit_effect i s) as (_ & Hsub & Heff).
  rewrite Hm in Heff.
  change (lt_maxSteps 0 (VNumber (Finite 1))) with true in Heff.
  cbv iota in Heff. destruct Heff as (Hr & Hc & Hd & Hprev & Hp).
  split_and!; try done.
  - rewrite final_step_run.
    + assert (Ho : origins (step s (Submit i)) =
                   origins s ++ [Some (submissions s)]).
      { simpl. unfold handleFormSubmit, forLoop. cbv zeta.
        by rewrite Hm. }
      pose proof (requests_of_fresh s (submissions s) Hs ltac:(done))
        as Hold.
      unfold requests_of in *.
      rewrite Hr, Ho, zip_with_app by by rewrite (wf_origins _ Hwf).
      rewrite filter_app, fmap_app, Hold. simpl.
      by rewrite filter_cons_True.
    + by apply net_wf_step.
    + lia.
    + intros id k Hin. unfold in_flight_of in Hin. rewrite Hp in Hin.
      rewrite filter_app in Hin. fold (in_flight_of (submissions s) s) in Hin.
      rewrite (wf_fresh _ Hwf) in Hin by done. simpl in Hin.
      rewrite filter_cons_True in Hin by done.
      apply list_elem_of_singleton in Hin as [= -> ->].
      by eexists _, _, _.
  - change (step s (Submit i)) with (run s [Submit i]).
    rewrite <- run_app. subst s. rewrite <- run_app.
    apply cards_match_requests.
Qed.

(** ** Asking for an explanation *)

Lemma currentSubject_step s e :
  currentSubject (step s e) =
  match e with Submit i => in_subject i | _ => currentSubject s end.
Proof.
  destruct e as [i|id o|sel|t sel|t|t|v]; simpl.
  - unfold handleFormSubmit, forLoop. by case_match.
  - unfold on_settle.
    destruct (take_pending id (pending s)) as [[k rest]|]; [|done].
    destruct k as [sub fd k c|]; simpl.
    + unfold handleFormSubmit_resume, forLoop. by repeat case_match.
    + unfold handleExplanationRequest_resume.
      match goal with
      | |- currentSubject (removeFloatingButton ?x) = _ =>
          destruct (removeFloatingButton_net x)
            as (_&_&_&_&_&_&_&_& -> &_)
      end.
      by case_match.
  - by destruct (handleSelectionChange_net sel s) as (_&_&_&_&_&_&_&_& -> &_).
  - by destruct (on_mouseup_net t sel s) as (_&_&_&_&_&_&_&_& -> &_).
  - by destruct (on_mousedown_net t s) as (_&_&_&_&_&_&_&_& -> &_).
  - unfold on_click. destruct t as [b| | |]; try done.
    destruct (buttons s !! b) as [e|] eqn:He; [|done].
    destruct (_ && _); [|done].
    apply (iter_invariant (fun s' => currentSubject s' = currentSubject s));
      [done|].
    intros s' <-. unfold handleExplanationRequest. by repeat case_match.
  - done.
Qed.

(** The subject the explanation request carries is the one of the most
    recent submission. *)
Lemma currentSubject_run mv es :
  currentSubject (run (init mv) es) = submitted_subject es.
Proof.
  induction es as [|e es IH] using rev_ind; [done|].
  rewrite run_snoc, currentSubject_step. unfold submitted_subject.
  rewrite fold_left_app. simpl. fold (submitted_subject es).
  by destruct e.
Qed.

(** The page [handleExplanationRequest] leaves when its guards pass. *)
Lemma handleExplanationRequest_passes s :
  currentSubject s <> "" -> currentSelection s <> "" ->
  isModalLoading s = false ->
  handleExplanationRequest s =
  fetch {| url := "/get_component_details"; method := "POST";
           contentType := "application/json";
           body := DetailsBody (currentSelection s) (currentSubject s) |}
    ExplainTask
    (set_modalHidden false
       (setModalLoading true
          (set_modalContent (LoadingText "Loading detailed explanation...")
             (set_modalTitle (currentSelection s) s)))).
Proof.
  intros Hsubj%truthy_true Hsel%truthy_true Hload.
  unfold handleExplanationRequest. by rewrite Hsubj, Hsel, Hload.
Qed.

(** However many click listeners the button has collected, one click
    starts one explanation: the second listener finds the loading flag
    set. *)
Lemma click_listeners_once n s :
  currentSubject s <> "" -> currentSelection s <> "" ->
  isModalLoading s = false ->
  Nat.iter (S n) handleExplanationRequest s = handleExplanationRequest s.
Proof.
  intros Hsubj Hsel Hload. rewrite Nat.iter_succ_r.
  apply (iter_invariant (fun s' => s' = handleExplanationRequest s));
    [done|].
  intros s' ->. apply handleExplanationRequest_blocked. right. right.
  by rewrite handleExplanationRequest_passes.
Qed.

(** What the mouseup handler leaves when it shows the button. *)
Lemma updateFloatingButtonPosition_shows sel s :
  buttons_wf s -> currentSelection s <> "" -> rangeCount sel <> 0 ->
  findStepCard (commonAncestorContainer sel) <> None ->
  rect_empty sel = false ->
  exists b e,
    floatingButton (updateFloatingButtonPosition sel s) = Some b /\
    b ∈ bodyButtons (updateFloatingButtonPosition sel s) /\
    buttons (updateFloatingButtonPosition sel s) !! b = Some e /\
    displayed e = true /\ 0 < listeners e /\
    currentSelection (updateFloatingButtonPosition sel s)
      = currentSelection s /\
    modalTitle (updateFloatingButtonPosition sel s) = modalTitle s.
Proof.
  intros Hwf Hsel%truthy_true Hrange%Nat.eqb_neq Hcard Hrect.
  unfold updateFloatingButtonPosition. rewrite Hsel, Hrange, Hrect. simpl.
  destruct (findStepCard _); [|done].
  destruct (buttons_wf_createFloatingButton s Hwf) as [Hwf1 Hfb].
  assert (Hsame : currentSelection (createFloatingButton s).2
                    = currentSelection s /\
                  modalTitle (createFloatingButton s).2 = modalTitle s).
  { unfold createFloatingButton. by destruct (floatingButton s). }
  destruct (createFloatingButton s) as [b s1]. simpl in *.
  pose proof (wf_body _ Hwf1 b (wf_button _ Hwf1 b Hfb)) as Hlt.
  destruct (lookup_lt_is_Some_2 _ _ Hlt) as [e He]. rewrite He.
  exists b, {| displayed := true; listeners := S (listeners e) |}. simpl.
  split_and!; try done; try lia; try apply Hsame.
  - unfold appendChild. set_solver.
  - rewrite list_lookup_alter, decide_True by done.
    rewrite lookup_app_l by done. by rewrite He.
Qed.

(** C4, as amended: after a submission with a non-empty subject, and while
    no explanation is loading, the user selects text in a step card (the
    script records it trimmed, and it is not blank), releases the mouse
    outside the floating button and clicks the button that is shown.  The
    modal is then open with the recorded text as its title, one request
    has left for /get_component_details, a POST whose JSON body holds the
    recorded text as [component] and the submitted subject as [subject],
    and when that fetch settles with a response text the modal shows its
    Markdown rendering. *)
Theorem explain_this mv es sel t :
  submitted_subject es <> "" ->
  isModalLoading (run (init mv) es) = false ->
  trim (sel_text sel) <> "" -> rangeCount sel <> 0 ->
  findStepCard (commonAncestorContainer sel) <> None ->
  rect_empty sel = false ->
  on_floatingButton t (run (init mv) es) = false ->
  exists b,
    floatingButton
      (run (init mv) (es ++ [SelectionChange sel; MouseUp t sel])) = Some b /\
    b ∈ bodyButtons
          (run (init mv) (es ++ [SelectionChange sel; MouseUp t sel])) /\
    displayed <$>
      buttons (run (init mv) (es ++ [SelectionChange sel; MouseUp t sel]))
        !! b = Some true /\
    modalTitle
      (run (init mv)
         (es ++ [SelectionChange sel; MouseUp t sel; Click (OnButton b)]))
      = trim (sel_text sel) /\
    modalHidden
      (run (init mv)
         (es ++ [SelectionChange sel; MouseUp t sel; Click (OnButton b)]))
      = false /\
    requests
      (run (init mv)
         (es ++ [SelectionChange sel; MouseUp t sel; Click (OnButton b)]))
      = requests (run (init mv) es) ++
        [{| url := "/get_component_details"; method := "POST";
            contentType := "application/json";
            body := DetailsBody (trim (sel_text sel))
                      (submitted_subject es) |}] /\
    explanations_in_flight
      (run (init mv)
         (es ++ [SelectionChange sel; MouseUp t sel; Click (OnButton b)]))
      = [(length (requests (run (init mv) es)), ExplainTask)] /\
    forall o text,
      response_text o = Some text ->
      modalContent
        (run (init mv)
           (es ++ [SelectionChange sel; MouseUp t sel; Click (OnButton b);
                   Settle (length (requests (run (init mv) es))) o]))
      = Rendered (marked_parse text).
Proof.
  intros Hsubj Hload Htext Hrange Hcard Hrect Ht.
  pose proof (net_wf_run mv es) as Hwf.
  pose proof (buttons_wf_run mv es) as Hbwf.
  rewrite <- (currentSubject_run mv es) in *.
  setoid_rewrite run_app.
  set (s := run (init mv) es) in *.
  (* selectionchange *)
  assert (HA : step s (SelectionChange sel) =
               set_currentSelection (trim (sel_text sel)) s).
  { simpl. unfold handleSelectionChange.
    apply truthy_true in Htext as ->. apply Nat.eqb_neq in Hrange as ->.
    simpl. by destruct (findStepCard _). }
  set (sA := set_currentSelection (trim (sel_text sel)) s) in *.
  (* mouseup *)
  assert (HB : step sA (MouseUp t sel) = updateFloatingButtonPosition sel sA).
  { simpl. unfold on_mouseup.
    change (on_floatingButton t sA) with (on_floatingButton t s).
    rewrite Ht. by apply truthy_true in Htext as ->. }
  assert (HbwfA : buttons_wf sA).
  { eapply buttons_wf_frame; [..|exact Hbwf]; done. }
  destruct (updateFloatingButtonPosition_shows sel sA HbwfA Htext Hrange
              Hcard Hrect) as (b & e & Hfb & Hbody & He & Hdisp & Hlis
                                 & Hsel & Htitle).
  destruct (updateFloatingButtonPosition_net sel sA)
    as (Hr & Ho & Hp & Hl & Hs & _ & _ & _ & Hcs & _).
  set (sB := updateFloatingButtonPosition sel sA) in *.
  assert (HAB : run s [SelectionChange sel; MouseUp t sel] = sB).
  { unfold run. simpl fold_left. fold (step s (SelectionChange sel)).
    rewrite HA. fold (step sA (MouseUp t sel)). by rewrite HB. }
  exists b. rewrite HAB.
  split; [done|]. split; [done|]. split; [by rewrite He; simpl; f_equal|].
  (* click *)
  set (sB' := set_buttons
                (<[b := {| displayed := displayed e; listeners := 0 |}]>
                   (buttons sB)) sB).
  assert (HB' : currentSelection sB' = trim (sel_text sel) /\
                currentSubject sB' = currentSubject s /\
                isModalLoading sB' = false /\
                requests sB' = requests s /\ pending sB' = pending s).
  { subst sB'. simpl. by rewrite Hsel, Hcs, Hl, Hr, Hp. }
  destruct HB' as (Hsel' & Hcs' & Hl' & Hr' & Hp').
  assert (HC : step sB (Click (OnButton b)) = handleExplanationRequest sB').
  { subst sB'. simpl. rewrite He, bool_decide_eq_true_2 by done.
    destruct e as [d [|n]]; simpl in *; [lia|]. subst d.
    apply click_listeners_once; simpl.
    - by rewrite Hcs.
    - by rewrite Hsel.
    - by rewrite Hl. }
  assert (HABC : run s [SelectionChange sel; MouseUp t sel; Click (OnButton b)]
                 = handleExplanationRequest sB').
  { change [SelectionChange sel; MouseUp t sel; Click (OnButton b)]
      with ([SelectionChange sel; MouseUp t sel] ++ [Click (OnButton b)]).
    by rewrite run_snoc, HAB. }
  assert (HABCD : forall o,
    run s [SelectionChange sel; MouseUp t sel; Click (OnButton b);
           Settle (length (requests s)) o]
    = step (handleExplanationRequest sB') (Settle (length (requests s)) o)).
  { intros o.
    change [SelectionChange sel; MouseUp t sel; Click (OnButton b);
            Settle (length (requests s)) o]
      with ([SelectionChange sel; MouseUp t sel; Click (OnButton b)] ++
            [Settle (length (requests s)) o]).
    by rewrite run_snoc, HABC. }
  rewrite HABC. setoid_rewrite HABCD.
  clear HC HABC HABCD. clearbody sB'.
  rewrite handleExplanationRequest_passes;
    [|by rewrite ?Hcs', ?Hsel', ?Hl'..].
  rewrite Hsel', Hcs'. unfold fetch. simpl. rewrite Hr', Hp'.
  split_and!; try done.
  - unfold explanations_in_flight. simpl. rewrite filter_app.
    fold (explanations_in_flight s).
    by rewrite (wf_loading _ Hwf Hload).
  - intros o text Hresp. unfold on_settle. simpl.
    rewrite take_pending_last.
    + simpl. unfold handleExplanationRequest_resume.
      rewrite (explanation_settled_text _ _ Hresp).
      unfold removeFloatingButton. by case_match.
    + intros [id k] Hq. apply (wf_ids _ Hwf) in Hq. simpl. lia.
Qed.

(** ** What stays true of the floating button *)

(** The button the script holds is a child of body, so [removeChild] in
    [removeFloatingButton] finds it. *)
Lemma floatingButton_attached s b :
  reachable s -> floatingButton s = Some b -> b ∈ bodyButtons s.
Proof.
  intros (mv & es & ->). apply (wf_button _ (buttons_wf_run mv es)).
Qed.

(** Clearing the selection detaches the button the script holds. *)
Lemma selection_cleared_removes s sel b :
  reachable s -> trim (sel_text sel) = "" -> floatingButton s = Some b ->
  floatingButton (step s (SelectionChange sel)) = None /\
  b ∉ bodyButtons (step s (SelectionChange sel)).
Proof.
  intros (mv & es & ->) Hsel Hb. simpl. unfold handleSelectionChange.
  rewrite Hsel. simpl.
  by apply removeFloatingButton_detaches; [apply buttons_wf_run|].
Qed.

(** Pressing the mouse outside the button detaches it. *)
Lemma mousedown_outside_removes s t b :
  reachable s -> floatingButton s = Some b -> t <> OnButton b ->
  floatingButton (step s (MouseDown t)) = None /\
  b ∉ bodyButtons (step s (MouseDown t)).
Proof.
  intros (mv & es & ->) Hb Ht. simpl. unfold on_mousedown.
  assert (Hout : on_floatingButton t (run (init mv) es) = false).
  { unfold on_floatingButton. rewrite Hb. destruct t as [b'| | |]; try done.
    apply Nat.eqb_neq. congruence. }
  rewrite Hout, removeFloatingButton_None.
  by apply removeFloatingButton_detaches; [apply buttons_wf_run|].
Qed.

(** A submit event empties [previousResponses] and leaves in the results
    area nothing but the card of its own first step. *)
Lemma submit_resets s i :
  previousResponses (step s (Submit i)) = [] /\
  resultsDiv (step s (Submit i)) ⊆ [length (cards s)].
Proof.
  destruct (submit_effect i s) as (_ & _ & Heff).
  destruct (lt_maxSteps 0 (ui_maxSteps s));
    destruct Heff as (_ & _ & -> & -> & _); set_solver.
Qed.


(** * Further properties of the script *)

(** ** [findStepCard] *)

Lemma closest_step_card_spec chain :
  match closest_step_card chain with
  | Some found =>
      exists skipped e up,
        chain = skipped ++ found /\ found = e :: up /\ "step-card" ∈ e /\
        Forall (fun x => "step-card" ∉ x) skipped
  | None => Forall (fun x => "step-card" ∉ x) chain
  end.
Proof.
  induction chain as [|e up IH]; simpl; [constructor|].
  unfold has_class. case_bool_decide as He.
  - exists [], e, up. by repeat split.
  - destruct (closest_step_card up) as [found|].
    + destruct IH as (skipped & e' & up' & -> & -> & Hin & Hskip).
      exists (e :: skipped), e', up'. repeat split; [done|].
      by constructor.
    + by constructor.
Qed.

(** X1: [findStepCard] returns the nearest element, from the node upwards,
    that carries the class step-card (a text node itself is not examined,
    an element node is), together with its ancestors; every element it
    climbed past lacks the class; it returns null exactly when no element
    on the way up carries the class. *)
Theorem findStepCard_nearest n :
  match findStepCard n with
  | Some found =>
      exists skipped e up,
        node_chain n = skipped ++ found /\ found = e :: up /\
        "step-card" ∈ e /\ Forall (fun x => "step-card" ∉ x) skipped
  | None => Forall (fun x => "step-card" ∉ x) (node_chain n)
  end.
Proof. destruct n; apply closest_step_card_spec. Qed.

(** ** Field by field *)

Lemma currentSelection_step s e :
  currentSelection (step s e) = currentSelection s \/
  exists sel, e = SelectionChange sel /\
              currentSelection (step s e) = trim (sel_text sel) /\
              trim (sel_text sel) <> "".
Proof.
  destruct e as [i|id o|sel|t sel|t|t|v]; simpl.
  - left. through_handlers.
  - left. through_handlers.
  - unfold handleSelectionChange.
    destruct (truthy (trim (sel_text sel))) eqn:Htext; simpl.
    + apply truthy_true in Htext.
      destruct (Nat.eqb _ _); [by left|].
      destruct (findStepCard _); [right; by exists sel|].
      left. through_handlers.
    + left. through_handlers.
  - left. through_handlers.
  - left. through_handlers.
  - left. unfold on_click. destruct t as [b| | |]; try done.
    destruct (buttons s !! b) as [e|]; [|done].
    destruct (_ && _); [|done].
    apply (iter_invariant
             (fun s' => currentSelection s' = currentSelection s)); [done|].
    intros s' <-. through_handlers.
  - by left.
Qed.

(** ** [handleSelectionChange] *)

(** X2: the recorded selection is never cleared.  Once [currentSelection]
    is non-empty it stays non-empty whatever events follow: a selection
    that becomes empty or leaves the step cards removes the button but
    keeps the text recorded before. *)
Theorem currentSelection_never_cleared s es :
  currentSelection s <> "" -> currentSelection (run s es) <> "".
Proof.
  revert s. induction es as [|e es IH]; intros s Hs; [done|].
  rewrite run_cons. apply IH.
  destruct (currentSelection_step s e) as [->|(sel & _ & -> & Hne)]; done.
Qed.

(** X3: what a selectionchange event does, on any page the script can
    reach.  It never touches the network, the cards or the modal flags.
    A blank selection, or one with a range outside every step card,
    detaches and forgets the button and keeps the recorded text; a
    non-blank selection without a range changes nothing; a non-blank
    selection with a range inside a step card records its trimmed text and
    leaves the button alone. *)
Theorem selectionchange_records_or_detaches s sel :
  reachable s ->
  same_net s (step s (SelectionChange sel)) /\
  (trim (sel_text sel) = "" \/
   (rangeCount sel <> 0 /\
    findStepCard (commonAncestorContainer sel) = None) ->
   currentSelection (step s (SelectionChange sel)) = currentSelection s /\
   floatingButton (step s (SelectionChange sel)) = None /\
   forall b, floatingButton s = Some b ->
             b ∉ bodyButtons (step s (SelectionChange sel))) /\
  (trim (sel_text sel) <> "" -> rangeCount sel = 0 ->
   step s (SelectionChange sel) = s) /\
  (trim (sel_text sel) <> "" -> rangeCount sel <> 0 ->
   findStepCard (commonAncestorContainer sel) <> None ->
   step s (SelectionChange sel) =
   set_currentSelection (trim (sel_text sel)) s).
Proof.
  intros (mv & es & ->).
  pose proof (buttons_wf_run mv es) as Hbwf.
  set (s := run (init mv) es) in *.
  split; [apply handleSelectionChange_net|].
  assert (Hremove :
    currentSelection (removeFloatingButton s) = currentSelection s /\
    floatingButton (removeFloatingButton s) = None /\
    forall b, floatingButton s = Some b ->
              b ∉ bodyButtons (removeFloatingButton s)).
  { split; [by through_handlers|].
    split; [apply removeFloatingButton_None|].
    intros b Hb. by apply removeFloatingButton_detaches. }
  simpl. unfold handleSelectionChange. split_and!.
  - intros [Hblank|[Hrange Hout]].
    + by rewrite Hblank.
    + apply Nat.eqb_neq in Hrange. rewrite Hrange, Hout.
      by destruct (truthy _).
  - intros Htext%truthy_true Hrange. by rewrite Htext, Hrange.
  - intros Htext%truthy_true Hrange%Nat.eqb_neq Hcard.
    rewrite Htext, Hrange. simpl. by destruct (findStepCard _).
Qed.


(** ** The floating button: creation, removal, clicks *)

Lemma removeChild_other b x l : x ∈ l -> x <> b -> x ∈ removeChild b l.
Proof.
  induction l as [|c l IH]; simpl; [done|]. intros Hx Hne.
  destruct (Nat.eqb_spec c b) as [->|Hcb]; set_solver.
Qed.

Lemma removeChild_last b l : b ∉ l -> removeChild b (l ++ [b]) = l.
Proof.
  induction l as [|c l IH]; simpl; intros Hb.
  - by rewrite Nat.eqb_refl.
  - destruct (Nat.eqb_spec c b) as [->|Hcb]; [set_solver|].
    f_equal. apply IH. set_solver.
Qed.

Lemma replaceWith_other b c x l : x ∈ l -> x <> b -> x ∈ replaceWith b c l.
Proof.
  induction l as [|y l IH]; simpl; [done|]. intros Hx Hne.
  destruct (Nat.eqb_spec y b) as [->|Hyb]; set_solver.
Qed.

Lemma set_buttons_same s : set_buttons (buttons s) s = s.
Proof. by destruct s. Qed.

(** X4: creating the floating button when one is held returns the held one
    and changes nothing, so a second [createFloatingButton] is idle;
    removing twice is removing once; and on a page the script can reach
    with no button held, removing the button just created gives back the
    page's children of body: creation and removal undo each other in the
    document. *)
Theorem createFloatingButton_removeFloatingButton s :
  reachable s ->
  createFloatingButton (createFloatingButton s).2 = createFloatingButton s /\
  removeFloatingButton (removeFloatingButton s) = removeFloatingButton s /\
  (floatingButton s = None ->
   bodyButtons (removeFloatingButton (createFloatingButton s).2)
     = bodyButtons s /\
   floatingButton (removeFloatingButton (createFloatingButton s).2) = None).
Proof.
  intros (mv & es & ->).
  pose proof (buttons_wf_run mv es) as [Hf Hb Hn].
  set (s := run (init mv) es) in *. split_and!.
  - unfold createFloatingButton.
    destruct (floatingButton s) as [b|] eqn:Hfb; simpl; by rewrite ?Hfb.
  - unfold removeFloatingButton.
    by destruct (floatingButton s) as [b|] eqn:Hfb; simpl; rewrite ?Hfb.
  - intros Hnone. unfold createFloatingButton, removeFloatingButton.
    rewrite Hnone. simpl.
    assert (Hfresh : length (buttons s) ∉ bodyButtons s).
    { intros Hin. apply Hb in Hin. lia. }
    unfold appendChild. rewrite (removeChild_absent _ _ Hfresh).
    by rewrite removeChild_last.
Qed.

(** X5: the two mousedown listeners together do what the first one does
    alone.  A press on the held button changes nothing; any other press
    removes the held button, and the second listener then finds none. *)
Theorem mousedown_second_listener_idle s t :
  step s (MouseDown t) =
  if on_floatingButton t s then s else removeFloatingButton s.
Proof.
  simpl. unfold on_mousedown.
  destruct (on_floatingButton t s) eqn:Hon.
  - destruct (floatingButton s); [|done]. by rewrite Hon.
  - by rewrite removeFloatingButton_None.
Qed.

(** X6: a floating button comes into being on a mouseup only, and only
    when the text recorded earlier is non-empty and the selection at that
    moment is non-blank, has a range, lies in a step card and has a
    non-empty rectangle. *)
Theorem button_appears_only_on_mouseup s e b :
  floatingButton s = None -> floatingButton (step s e) = Some b ->
  exists t sel,
    e = MouseUp t sel /\ currentSelection s <> "" /\
    trim (sel_text sel) <> "" /\ rangeCount sel <> 0 /\
    findStepCard (commonAncestorContainer sel) <> None /\
    rect_empty sel = false.
Proof.
  intros Hnone Hsome.
  destruct e as [i|id o|sel|t sel|t|t|v]; simpl in Hsome.
  - exfalso. revert Hsome. through_handlers; congruence.
  - exfalso. revert Hsome. through_handlers; congruence.
  - exfalso. revert Hsome. through_handlers; congruence.
  - exists t, sel. split; [done|]. revert Hsome.
    unfold on_mouseup, on_floatingButton. rewrite Hnone.
    destruct (truthy (trim (sel_text sel))) eqn:Htext; [|congruence].
    unfold updateFloatingButtonPosition.
    destruct (truthy (currentSelection s)) eqn:Hsel; [|simpl; congruence].
    destruct (Nat.eqb_spec (rangeCount sel) 0); [simpl; congruence|].
    simpl. destruct (findStepCard _) eqn:Hcard.
    + destruct (rect_empty sel); [congruence|]. intros _.
      by rewrite <- !truthy_true.
    + through_handlers; congruence.
  - exfalso. revert Hsome. unfold on_mousedown. through_handlers; congruence.
  - exfalso. revert Hsome. unfold on_click.
    destruct t as [b'| | |]; simpl; try congruence.
    destruct (buttons s !! b') as [e|]; [|congruence].
    destruct (_ && _); [|congruence].
    assert (Hiter : floatingButton
      (Nat.iter (listeners e) handleExplanationRequest
         (set_buttons
            (<[b':={| displayed := displayed e; listeners := 0 |}]>
               (buttons s)) s)) = None); [|congruence].
    apply (iter_invariant (fun s' => floatingButton s' = None)); [done|].
    intros s' Hs'. through_handlers.
  - congruence.
Qed.


Lemma handleExplanationRequest_twice s :
  handleExplanationRequest (handleExplanationRequest s)
  = handleExplanationRequest s.
Proof.
  destruct (decide (currentSubject s = "")) as [Hsubj|Hsubj].
  { by rewrite !(handleExplanationRequest_blocked s) by auto. }
  destruct (decide (currentSelection s = "")) as [Hsel|Hsel].
  { by rewrite !(handleExplanationRequest_blocked s) by auto. }
  destruct (isModalLoading s) eqn:Hload.
  { by rewrite !(handleExplanationRequest_blocked s) by auto. }
  apply handleExplanationRequest_blocked. right. right.
  by rewrite handleExplanationRequest_passes.
Qed.

Lemma iter_handleExplanationRequest n s :
  Nat.iter n handleExplanationRequest s = s \/
  Nat.iter n handleExplanationRequest s = handleExplanationRequest s.
Proof.
  induction n as [|n [IH|IH]]; simpl; [by left|..]; rewrite IH.
  - by right.
  - right. apply handleExplanationRequest_twice.
Qed.

Lemma handleExplanationRequest_buttons s :
  buttons (handleExplanationRequest s) = buttons s /\
  bodyButtons (handleExplanationRequest s) = bodyButtons s /\
  floatingButton (handleExplanationRequest s) = floatingButton s.
Proof. through_handlers. Qed.

Lemma iter_handleExplanationRequest_buttons n s :
  buttons (Nat.iter n handleExplanationRequest s) = buttons s /\
  bodyButtons (Nat.iter n handleExplanationRequest s) = bodyButtons s /\
  floatingButton (Nat.iter n handleExplanationRequest s) = floatingButton s.
Proof.
  destruct (iter_handleExplanationRequest n s) as [-> | ->]; [done|].
  apply handleExplanationRequest_buttons.
Qed.

(** X7: a click is spent at once.  Whatever is clicked, and however many
    click listeners the button has collected, one click issues at most one
    request, and clicking the same target again straight away changes
    nothing more: the listeners were registered with [once: true] and
    closing a closed modal is idle. *)
Theorem click_is_spent s t :
  length (requests (step s (Click t))) <= S (length (requests s)) /\
  step (step s (Click t)) (Click t) = step s (Click t).
Proof.
  simpl. unfold on_click. destruct t as [b| | |]; simpl; try (split; [lia|done]).
  destruct (buttons s !! b) as [e|] eqn:He; simpl; [|rewrite He; split; [lia|done]].
  destruct (bool_decide (b ∈ bodyButtons s) && displayed e) eqn:Hcond;
    [|rewrite He, Hcond; split; [lia|done]].
  set (s1 := set_buttons _ s).
  destruct (iter_handleExplanationRequest_buttons (listeners e) s1)
    as (Hb & Hbody & _).
  split.
  - destruct (iter_handleExplanationRequest (listeners e) s1) as [-> | ->];
      [simpl; lia|].
    unfold handleExplanationRequest, fetch. repeat case_match; simpl;
      rewrite ?length_app; simpl; lia.
  - rewrite Hb, Hbody. subst s1. simpl.
    rewrite list_lookup_insert_eq by by eapply lookup_lt_Some.
    simpl. rewrite Hcond. simpl.
    rewrite list_insert_insert_eq.
    set (s2 := Nat.iter _ _ _) in *.
    replace (<[b:={| displayed := displayed e; listeners := 0 |}]> (buttons s))
      with (buttons s2) by done.
    apply set_buttons_same.
Qed.

Lemma mousedown_idle_form s t :
  (if on_floatingButton t s then s else removeFloatingButton s)
  = on_mousedown t s.
Proof.
  unfold on_mousedown. destruct (on_floatingButton t s) eqn:Hon.
  - destruct (floatingButton s); [|done]. by rewrite Hon.
  - by rewrite removeFloatingButton_None.
Qed.

Lemma others_inert_frame s s' :
  floatingButton s' = floatingButton s -> bodyButtons s' = bodyButtons s ->
  buttons s' = buttons s -> others_inert s -> others_inert s'.
Proof. unfold others_inert. by intros -> -> ->. Qed.

Lemma others_inert_removeFloatingButton s :
  buttons_wf s -> others_inert s -> others_inert (removeFloatingButton s).
Proof.
  intros [Hf Hb Hn] Hin. unfold removeFloatingButton.
  destruct (floatingButton s) as [b0|] eqn:Hfb; [|done].
  intros b e Hbody He _. simpl in *.
  apply (Hin b e); [by apply (removeChild_subseteq b0)|done|].
  rewrite Hfb. intros [= ->].
  by apply (removeChild_not_elem b (bodyButtons s)).
Qed.

Lemma others_inert_updateFloatingButtonPosition sel s :
  buttons_wf s -> others_inert s ->
  others_inert (updateFloatingButtonPosition sel s).
Proof.
  intros Hwf Hin. unfold updateFloatingButtonPosition.
  destruct (negb _); [done|]. destruct (Nat.eqb _ _); [done|].
  destruct (findStepCard _); [|by apply others_inert_removeFloatingButton].
  destruct (rect_empty sel); [done|].
  destruct (buttons_wf_createFloatingButton s Hwf) as [Hwf1 Hfb].
  assert (Hin1 : others_inert (createFloatingButton s).2).
  { unfold createFloatingButton in *.
    destruct (floatingButton s) as [b0|] eqn:Hfb0; [done|].
    pose proof Hwf as [_ Hb _].
    intros b e. simpl. unfold appendChild.
    rewrite removeChild_absent
      by (intros Hx; apply Hb in Hx; lia).
    rewrite elem_of_app, list_elem_of_singleton.
    intros [Hbody| ->] He Hne; [|done].
    apply (Hin b e); [done| |by rewrite Hfb0].
    rewrite lookup_app_l in He; [done|by apply Hb]. }
  destruct (createFloatingButton s) as [b s1]. simpl in *.
  pose proof Hwf1 as [Hf Hb Hn].
  destruct (buttons s1 !! b) as [e|] eqn:He; [|done].
  apply lookup_lt_Some in He as Hlt.
  intros x ex. simpl. unfold appendChild.
  rewrite removeChild_absent by (apply replaceWith_gone; [done|lia]).
  rewrite elem_of_app, list_elem_of_singleton.
  intros [Hx| ->] Hex Hne; [|done].
  assert (x <> b) by congruence.
  rewrite list_lookup_alter_ne in Hex by done.
  apply replaceWith_elem in Hx as [->|Hx].
  - rewrite lookup_app_r, Nat.sub_diag in Hex by done.
    simpl in Hex. by injection Hex as <-.
  - rewrite lookup_app_l in Hex by by apply Hb.
    apply (Hin1 x ex); [done..|]. rewrite Hfb. congruence.
Qed.

Lemma others_inert_step s e :
  buttons_wf s -> others_inert s -> others_inert (step s e).
Proof.
  intros Hwf Hin. destruct e as [i|id o|sel|t sel|t|t|v]; simpl.
  - eapply others_inert_frame; [..|exact Hin]; through_handlers.
  - unfold on_settle.
    destruct (take_pending id (pending s)) as [[k rest]|]; [|done].
    destruct k as [sub fd k c|]; simpl.
    + eapply others_inert_frame; [..|exact Hin]; through_handlers.
    + unfold handleExplanationRequest_resume.
      apply others_inert_removeFloatingButton.
      * eapply buttons_wf_frame; [..|exact Hwf]; by case_match.
      * eapply others_inert_frame; [..|exact Hin]; by case_match.
  - unfold handleSelectionChange.
    repeat case_match; try by apply others_inert_removeFloatingButton.
    + done.
    + by eapply others_inert_frame; [..|exact Hin].
  - unfold on_mouseup. repeat case_match; try done.
    by apply others_inert_updateFloatingButtonPosition.
  - rewrite <- (mousedown_idle_form s t).
    destruct (on_floatingButton t s); [done|].
    by apply others_inert_removeFloatingButton.
  - unfold on_click. destruct t as [b| | |]; try done.
    destruct (buttons s !! b) as [e|] eqn:He; [|done].
    destruct (_ && _); [|done].
    set (s1 := set_buttons _ s).
    destruct (iter_handleExplanationRequest_buttons (listeners e) s1)
      as (Hb & Hbody & Hfb).
    eapply (others_inert_frame s1); [done..|].
    intros x ex Hx Hex Hne. subst s1. simpl in *.
    destruct (decide (x = b)) as [->|Hxb].
    + rewrite list_lookup_insert_eq in Hex by by eapply lookup_lt_Some.
      by injection Hex as <-.
    + rewrite list_lookup_insert_ne in Hex by done. by apply (Hin x ex).
  - done.
Qed.

Lemma others_inert_run mv es : others_inert (run (init mv) es).
Proof.
  cut (buttons_wf (run (init mv) es) /\ others_inert (run (init mv) es)).
  { by intros [_ ?]. }
  apply (run_invariant (fun s => buttons_wf s /\ others_inert s)).
  - split; [apply buttons_wf_init|]. intros b e Hb.
    by apply elem_of_nil in Hb.
  - intros s e [Hwf Hin].
    split; [by apply buttons_wf_step|by apply others_inert_step].
Qed.

Lemma stays_removeFloatingButton s b :
  b ∈ bodyButtons s -> floatingButton s <> Some b ->
  b ∈ bodyButtons (removeFloatingButton s) /\
  floatingButton (removeFloatingButton s) <> Some b.
Proof.
  intros Hb Hne. split; [|by rewrite removeFloatingButton_None].
  unfold removeFloatingButton.
  destruct (floatingButton s) as [b0|]; [|done]. simpl.
  apply removeChild_other; [done|congruence].
Qed.

Lemma stays_updateFloatingButtonPosition sel s b :
  buttons_wf s -> b ∈ bodyButtons s -> floatingButton s <> Some b ->
  b ∈ bodyButtons (updateFloatingButtonPosition sel s) /\
  floatingButton (updateFloatingButtonPosition sel s) <> Some b.
Proof.
  intros Hwf Hb Hne. unfold updateFloatingButtonPosition.
  destruct (negb _); [done|]. destruct (Nat.eqb _ _); [done|].
  destruct (findStepCard _); [|by apply stays_removeFloatingButton].
  destruct (rect_empty sel); [done|].
  assert (Hcreate :
    b ∈ bodyButtons (createFloatingButton s).2 /\
    floatingButton (createFloatingButton s).2 <> Some b).
  { unfold createFloatingButton.
    destruct (floatingButton s) as [b0|] eqn:Hfb0; simpl;
      [split; [done|by rewrite Hfb0]|].
    pose proof (wf_body _ Hwf b Hb).
    split; [|intros [= <-]; lia].
    unfold appendChild. apply elem_of_app. left.
    apply removeChild_other; [done|lia]. }
  destruct (buttons_wf_createFloatingButton s Hwf) as [Hwf1 Hfb].
  destruct (createFloatingButton s) as [b1 s1]. simpl in *.
  destruct Hcreate as [Hb1 Hne1].
  destruct (buttons s1 !! b1) as [e|] eqn:He; [|done]. simpl.
  assert (b <> b1) by congruence.
  split; [|congruence].
  unfold appendChild. apply elem_of_app. left.
  apply removeChild_other; [|done]. by apply replaceWith_other.
Qed.

(** X8: the floating-button elements the script no longer holds (the clones
    that [replaceWith] leaves behind) are dead weight: on every page the
    script can reach, a click on such an element changes nothing, no event
    detaches it from body, and the script never takes hold of it again. *)
Theorem other_buttons_inert_and_stay s b :
  reachable s -> b ∈ bodyButtons s -> floatingButton s <> Some b ->
  step s (Click (OnButton b)) = s /\
  forall e, b ∈ bodyButtons (step s e) /\ floatingButton (step s e) <> Some b.
Proof.
  intros (mv & es & ->) Hb Hne.
  pose proof (buttons_wf_run mv es) as Hwf.
  pose proof (others_inert_run mv es) as Hin.
  set (s := run (init mv) es) in *. split.
  - simpl.
    destruct (lookup_lt_is_Some_2 _ _ (wf_body _ Hwf b Hb)) as [e He].
    rewrite He. destruct (_ && _); [|done].
    rewrite (Hin b e Hb He Hne). simpl.
    replace {| displayed := displayed e; listeners := 0 |} with e.
    + rewrite list_insert_id by done. apply set_buttons_same.
    + pose proof (Hin b e Hb He Hne) as Hzero.
      destruct e as [d l]. simpl in *. by subst l.
  - assert (Hframe : forall s',
      bodyButtons s' = bodyButtons s -> floatingButton s' = floatingButton s ->
      b ∈ bodyButtons s' /\ floatingButton s' <> Some b).
    { by intros s' -> ->. }
    intros e. destruct e as [i|id o|sel|t sel|t|t|v]; simpl.
    + apply Hframe; through_handlers.
    + unfold on_settle.
      destruct (take_pending id (pending s)) as [[k rest]|]; [|done].
      destruct k as [sub fd k c|]; simpl.
      * apply Hframe; through_handlers.
      * unfold handleExplanationRequest_resume.
        apply stays_removeFloatingButton; by case_match.
    + unfold handleSelectionChange.
      repeat case_match; try by apply stays_removeFloatingButton.
      all: done.
    + unfold on_mouseup. repeat case_match; try done.
      by apply stays_updateFloatingButtonPosition.
    + rewrite <- (mousedown_idle_form s t).
      destruct (on_floatingButton t s); [done|].
      by apply stays_removeFloatingButton.
    + unfold on_click. destruct t as [b'| | |]; try done.
      destruct (buttons s !! b') as [e|] eqn:He; [|done].
      destruct (_ && _); [|done].
      destruct (iter_handleExplanationRequest_buttons (listeners e)
        (set_buttons
           (<[b':={| displayed := displayed e; listeners := 0 |}]>
              (buttons s)) s)) as (_ & Hbody & Hfb).
      by apply Hframe.
    + done.
Qed.


(** ** The step cards held by the loop *)

Lemma elem_of_parked_cards c s :
  c ∈ parked_cards s <->
  exists id sub fd k, (id, GenerateTask sub fd k c) ∈ pending s.
Proof.
  unfold parked_cards. rewrite list_elem_of_omap. split.
  - intros ([id [sub fd k c'|]] & Hin & Heq); simplify_eq/=. eauto.
  - intros (id & sub & fd & k & Hin). by exists (id, GenerateTask sub fd k c).
Qed.

Lemma parked_cards_fresh_frame s s' :
  pending s' = pending s -> cards s' = cards s ->
  parked_cards_fresh s -> parked_cards_fresh s'.
Proof.
  intros Hp Hc [Hnd Hfresh]. unfold parked_cards_fresh, parked_cards.
  rewrite Hp, Hc. done.
Qed.

Lemma parked_cards_fresh_handleExplanationRequest s :
  parked_cards_fresh s -> parked_cards_fresh (handleExplanationRequest s).
Proof.
  intros [Hnd Hfresh]. unfold handleExplanationRequest.
  repeat case_match; try done.
  split.
  - unfold parked_cards in *. simpl. rewrite omap_app. simpl.
    by rewrite app_nil_r.
  - intros id sub fd k c. simpl.
    rewrite elem_of_app, list_elem_of_singleton. intros [Hin|[=]].
    by apply Hfresh in Hin.
Qed.

Lemma parked_cards_fresh_forLoop sub fd k s :
  cards_wf s -> parked_cards_fresh s ->
  parked_cards_fresh (forLoop sub fd k s).
Proof.
  intros Hwf [Hnd Hfresh]. unfold forLoop. case_match; [|done].
  split.
  - unfold parked_cards in *. simpl. rewrite omap_app. simpl.
    apply NoDup_app. split_and!; [done| |apply NoDup_singleton].
    intros c Hc ->%list_elem_of_singleton.
    apply (elem_of_parked_cards _ s) in Hc as (id & sub' & fd' & k' & Hin).
    apply Hwf in Hin. lia.
  - intros id sub' fd' k' c. simpl.
    rewrite elem_of_app, list_elem_of_singleton.
    intros [Hin|[= -> -> -> -> ->]].
    + rewrite lookup_app_l by by eapply Hwf. by eapply Hfresh.
    + rewrite lookup_app_r by done. rewrite Nat.sub_diag. done.
Qed.

(** Taking a continuation out of the parked ones leaves the others with
    cards that are not the one it holds. *)
Lemma parked_cards_fresh_take id sub fd k c rest s :
  parked_cards_fresh s ->
  take_pending id (pending s) = Some (GenerateTask sub fd k c, rest) ->
  cards s !! c = Some (createStepCard (k + 1)) /\
  NoDup (parked_cards (set_pending rest s)) /\
  forall id' sub' fd' k' c',
    (id', GenerateTask sub' fd' k' c') ∈ rest ->
    c' <> c /\ cards s !! c' = Some (createStepCard (k' + 1)).
Proof.
  intros [Hnd Hfresh] Htake%take_pending_perm.
  assert (Hperm : parked_cards s ≡ₚ c :: parked_cards (set_pending rest s)).
  { unfold parked_cards. simpl. by rewrite Htake. }
  rewrite Hperm in Hnd. apply NoDup_cons in Hnd as [Hc Hnd].
  split_and!; [|done|].
  - apply (Hfresh id sub fd k c). rewrite Htake. left.
  - intros id' sub' fd' k' c' Hin. split.
    + intros ->. apply Hc. apply elem_of_parked_cards. simpl. eauto.
    + apply (Hfresh id' sub' fd' k' c'). rewrite Htake. by right.
Qed.

(** Once its continuation has been taken out, a card can be rewritten. *)
Lemma parked_cards_fresh_rewrite c (crds : list card) rest s :
  length crds = length (cards s) ->
  (forall c', c' <> c -> crds !! c' = cards s !! c') ->
  NoDup (parked_cards (set_pending rest s)) ->
  (forall id' sub' fd' k' c',
     (id', GenerateTask sub' fd' k' c') ∈ rest ->
     c' <> c /\ cards s !! c' = Some (createStepCard (k' + 1))) ->
  parked_cards_fresh (set_cards crds (set_pending rest s)).
Proof.
  intros Hlen Hother Hnd Hrest. split; [done|].
  intros id' sub' fd' k' c' Hin. simpl in *.
  destruct (Hrest _ _ _ _ _ Hin) as [Hne Hc]. by rewrite Hother.
Qed.

Lemma parked_cards_fresh_step s e :
  net_wf s -> cards_wf s -> parked_cards_fresh s ->
  parked_cards_fresh (step s e).
Proof.
  intros Hnet Hwf Hfresh. destruct e as [i|id o|sel|t sel|t|t|v]; simpl.
  - apply parked_cards_fresh_forLoop.
    + by eapply cards_wf_frame; [..|exact Hwf].
    + by eapply parked_cards_fresh_frame; [..|exact Hfresh].
  - unfold on_settle.
    destruct (take_pending id (pending s)) as [[k rest]|] eqn:Htake;
      [|done].
    destruct k as [sub fd k c|]; simpl.
    + destruct (parked_cards_fresh_take _ _ _ _ _ _ _ Hfresh Htake)
        as (Hc & Hnd & Hrest).
      assert (Hwf' : cards_wf (set_pending rest s)).
      { intros id' sub' fd' k' c' Hin. simpl in Hin.
        apply (Hwf id' sub' fd' k' c').
        rewrite (take_pending_perm _ _ _ _ Htake). by right. }
      assert (Hrewrite : forall crds,
        length crds = length (cards s) ->
        (forall c', c' <> c -> crds !! c' = cards s !! c') ->
        parked_cards_fresh (set_cards crds (set_pending rest s))).
      { intros crds Hl Ho. by apply parked_cards_fresh_rewrite with c. }
      unfold handleFormSubmit_resume. simpl. rewrite Hc.
      destruct (generateStep_settled o) as [message|[text|]]; simpl.
      * apply Hrewrite; [by rewrite length_alter|].
        intros c' Hne. by rewrite list_lookup_alter_ne.
      * apply parked_cards_fresh_forLoop.
        -- eapply cards_wf_frame; [..|exact Hwf']; [done|]. simpl.
           by rewrite length_insert.
        -- eapply (parked_cards_fresh_frame (set_cards _ (set_pending rest s)));
             [done|done|].
           apply Hrewrite; [by rewrite length_insert|].
           intros c' Hne. by rewrite list_lookup_insert_ne.
      * apply Hrewrite; [by rewrite length_insert|].
        intros c' Hne. by rewrite list_lookup_insert_ne.
    + unfold handleExplanationRequest_resume.
      match goal with
      | |- parked_cards_fresh (removeFloatingButton ?x) =>
          destruct (removeFloatingButton_net x) as (_&_&Hp&_&_&Hc&_)
      end.
      eapply parked_cards_fresh_frame; [exact Hp|exact Hc|].
      assert (Hperm := take_pending_perm _ _ _ _ Htake).
      destruct Hfresh as [Hnd Hcards].
      assert (Hfresh' : parked_cards_fresh (set_pending rest s)).
      { split.
        - unfold parked_cards in *. rewrite Hperm in Hnd. done.
        - intros id' sub' fd' k' c' Hin. simpl in Hin.
          apply (Hcards id' sub' fd' k' c'). rewrite Hperm. by right. }
      eapply parked_cards_fresh_frame; [..|exact Hfresh']; by case_match.
  - destruct (handleSelectionChange_net sel s) as (_&_&Hp&_&_&Hc&_).
    by eapply parked_cards_fresh_frame.
  - destruct (on_mouseup_net t sel s) as (_&_&Hp&_&_&Hc&_).
    by eapply parked_cards_fresh_frame.
  - destruct (on_mousedown_net t s) as (_&_&Hp&_&_&Hc&_).
    by eapply parked_cards_fresh_frame.
  - unfold on_click. destruct t as [b| | |]; try done.
    destruct (buttons s !! b) as [e|] eqn:He; [|done].
    destruct (_ && _); [|done].
    apply iter_invariant; [|apply parked_cards_fresh_handleExplanationRequest].
    by eapply parked_cards_fresh_frame; [..|exact Hfresh].
  - by eapply parked_cards_fresh_frame; [..|exact Hfresh].
Qed.

Lemma parked_cards_fresh_run mv es : parked_cards_fresh (run (init mv) es).
Proof.
  induction es as [|e es IH] using rev_ind.
  - split; [apply NoDup_nil_2|]. intros id sub fd k c Hin.
    by apply elem_of_nil in Hin.
  - rewrite run_snoc. apply parked_cards_fresh_step;
      [apply net_wf_run|apply cards_wf_run|done].
Qed.

Lemma reachable_parked_cards_fresh s : reachable s -> parked_cards_fresh s.
Proof. intros (mv & es & ->). apply parked_cards_fresh_run. Qed.

Lemma reachable_cards_wf s : reachable s -> cards_wf s.
Proof. intros (mv & es & ->). apply cards_wf_run. Qed.

(** The page a settled generation fetch leaves, when its continuation is
    parked on a page the script can reach. *)
Lemma settle_generate_effect s id sub fd k c o :
  reachable s -> (id, GenerateTask sub fd k c) ∈ pending s ->
  exists rest,
    in_flight_of sub (set_pending rest s) = [] /\
    c < length (cards s) /\
    step s (Settle id o) =
    match generateStep_settled o with
    | inl message =>
        set_cards
          (<[c := showError message (createStepCard (k + 1))]> (cards s))
          (set_pending rest s)
    | inr (Some text) =>
        forLoop sub fd (k + 1)
          (set_previousResponses (previousResponses s ++ [text])
             (set_cards (<[c := rendered_card k text]> (cards s))
                (set_pending rest s)))
    | inr None =>
        set_cards
          (<[c := {| data_step := k + 1; loading_bar := false;
                     loading_text := false;
                     step_content :=
                       ErrorDiv ("Error generating content: "
                                 +:+ marked_no_input) |}]> (cards s))
          (set_pending rest s)
    end.
Proof.
  intros Hreach Hin.
  pose proof (reachable_net_wf _ Hreach) as Hwf.
  pose proof (reachable_cards_wf _ Hreach _ _ _ _ _ Hin) as Hlt.
  destruct (reachable_parked_cards_fresh _ Hreach) as [_ Hfresh].
  pose proof (Hfresh _ _ _ _ _ Hin) as Hc.
  destruct (take_pending_present _ _ _ Hwf Hin) as [rest Htake].
  destruct (net_wf_take _ _ _ _ Hwf Htake) as [_ [Hnone _]].
  exists rest. split_and!; [done..|].
  simpl. unfold on_settle. rewrite Htake. simpl.
  unfold handleFormSubmit_resume. simpl. rewrite Hc.
  destruct (generateStep_settled o) as [message|[text|]]; simpl; [|done..].
  f_equal. apply list_eq. intros j.
  destruct (decide (j = c)) as [->|Hne].
  - rewrite list_lookup_alter, decide_True, Hc by done.
    by rewrite list_lookup_insert_eq.
  - by rewrite list_lookup_alter_ne, list_lookup_insert_ne.
Qed.

(** The step cards after a generation fetch has settled, by what
    [generateStep] yields. *)
Lemma settled_cards s id sub fd k c o :
  reachable s -> (id, GenerateTask sub fd k c) ∈ pending s ->
  cards s !! c = Some (createStepCard (k + 1)) /\
  cards (step s (Settle id o)) !! c = Some
    match generateStep_settled o with
    | inl message =>
        {| data_step := k + 1; loading_bar := true; loading_text := true;
           step_content :=
             ErrorDiv ("Error generating content: " +:+ message) |}
    | inr (Some text) =>
        {| data_step := k + 1; loading_bar := false; loading_text := false;
           step_content := Rendered (marked_parse text) |}
    | inr None =>
        {| data_step := k + 1; loading_bar := false; loading_text := false;
           step_content :=
             ErrorDiv ("Error generating content: " +:+ marked_no_input) |}
    end /\
  forall c', c' <> c -> c' < length (cards s) ->
    cards (step s (Settle id o)) !! c' = cards s !! c'.
Proof.
  intros Hreach Hin.
  destruct (reachable_parked_cards_fresh _ Hreach) as [_ Hfresh].
  destruct (settle_generate_effect s id sub fd k c o Hreach Hin)
    as (rest & _ & Hlt & ->).
  split; [by eapply Hfresh|].
  assert (Hloop : forall s' j,
    j < length (cards s') ->
    cards (forLoop sub fd (k + 1) s') !! j = cards s' !! j).
  { intros s' j Hj. unfold forLoop. case_match; [|done]. simpl.
    by rewrite lookup_app_l. }
  destruct (generateStep_settled o) as [message|[text|]]; simpl.
  - split; [by rewrite list_lookup_insert_eq|].
    intros c' Hne _. by rewrite list_lookup_insert_ne.
  - split.
    + rewrite Hloop by (simpl; by rewrite length_insert). simpl.
      by rewrite list_lookup_insert_eq.
    + intros c' Hne Hc'.
      rewrite Hloop by (simpl; by rewrite length_insert). simpl.
      by rewrite list_lookup_insert_ne.
  - split; [by rewrite list_lookup_insert_eq|].
    intros c' Hne _. by rewrite list_lookup_insert_ne.
Qed.

(** X9: what a settled generation fetch does to the step cards, on any
    page the script can reach.  The card its continuation holds is still as
    [createStepCard] made it.  Afterwards it is the rendered card when the
    status is ok and the answer has a [response]; it has lost its loading
    bar and loading text and shows the error line of [marked.parse] when
    the status is ok and the answer has no [response]; and it keeps its
    loading bar and loading text under the error line in every other case
    ([showError] does not remove them): the message is the one of the
    rejected fetch, the one of the body that is no JSON whatever the status
    (the body is read before the status is looked at), or, for a status
    that is not ok, the answer's [error] when it has a non-empty one and
    [Network response was not ok] otherwise.  Every other card that
    existed is left as it was. *)
Theorem settle_rewrites_its_card s id sub fd k c o :
  reachable s -> (id, GenerateTask sub fd k c) ∈ pending s ->
  cards s !! c = Some (createStepCard (k + 1)) /\
  cards (step s (Settle id o)) !! c = Some
    match o with
    | NetworkError message | HttpResponse _ (BodyInvalid message) =>
        {| data_step := k + 1; loading_bar := true; loading_text := true;
           step_content :=
             ErrorDiv ("Error generating content: " +:+ message) |}
    | HttpResponse status (BodyObject error response) =>
        if ok status then
          match response with
          | Some text =>
              {| data_step := k + 1; loading_bar := false;
                 loading_text := false;
                 step_content := Rendered (marked_parse text) |}
          | None =>
              {| data_step := k + 1; loading_bar := false;
                 loading_text := false;
                 step_content :=
                   ErrorDiv ("Error generating content: "
                             +:+ marked_no_input) |}
          end
        else
          {| data_step := k + 1; loading_bar := true; loading_text := true;
             step_content :=
               ErrorDiv ("Error generating content: "
                         +:+ or_else error "Network response was not ok") |}
    end /\
  forall c', c' <> c -> c' < length (cards s) ->
    cards (step s (Settle id o)) !! c' = cards s !! c'.
Proof.
  intros Hreach Hin.
  destruct (settled_cards s id sub fd k c o Hreach Hin) as (Hc & Hc' & Ho).
  split_and!; [done| |done]. rewrite Hc'.
  destruct o as [msg|status [msg|e [t|]]]; simpl; try done;
    by destruct (ok status).
Qed.

(** X10: the loop goes on exactly when the fetch brought a response text.
    With a text, the text is pushed onto [previousResponses]; if the loop
    test holds for the next index one request leaves for it, carrying the
    history as it then stands, and a fresh card is attached for it,
    otherwise the submission has nothing in flight.  With anything else
    (a rejected fetch, a status that is not ok, a body that is no JSON, an
    answer without [response]) nothing is pushed, no request leaves, no
    card is created or attached, and the submission has nothing in
    flight. *)
Theorem loop_goes_on_with_a_text_only s id sub fd k c o :
  reachable s -> (id, GenerateTask sub fd k c) ∈ pending s ->
  match response_text o with
  | Some text =>
      previousResponses (step s (Settle id o))
        = previousResponses s ++ [text] /\
      if lt_maxSteps (k + 1) (maxSteps fd) then
        requests (step s (Settle id o)) =
          requests s ++
          [generateStep_request fd (k + 1) (previousResponses s ++ [text])] /\
        cards (step s (Settle id o)) !! length (cards s)
          = Some (createStepCard (k + 2)) /\
        length (cards (step s (Settle id o))) = S (length (cards s)) /\
        resultsDiv (step s (Settle id o))
          = resultsDiv s ++ [length (cards s)] /\
        in_flight_of sub (step s (Settle id o)) =
          [(length (requests s),
            GenerateTask sub fd (k + 1) (length (cards s)))]
      else
        requests (step s (Settle id o)) = requests s /\
        length (cards (step s (Settle id o))) = length (cards s) /\
        resultsDiv (step s (Settle id o)) = resultsDiv s /\
        in_flight_of sub (step s (Settle id o)) = []
  | None =>
      previousResponses (step s (Settle id o)) = previousResponses s /\
      requests (step s (Settle id o)) = requests s /\
      length (cards (step s (Settle id o))) = length (cards s) /\
      resultsDiv (step s (Settle id o)) = resultsDiv s /\
      in_flight_of sub (step s (Settle id o)) = []
  end.
Proof.
  intros Hreach Hin.
  destruct (settle_generate_effect s id sub fd k c o Hreach Hin)
    as (rest & Hnone & Hlt & ->).
  destruct (response_text o) as [text|] eqn:Ho.
  - rewrite (generateStep_settled_text _ _ Ho). unfold forLoop.
    destruct (lt_maxSteps (k + 1) (maxSteps fd)); simpl.
    + rewrite length_insert.
      split_and!; try done.
      * rewrite lookup_app_r by by rewrite length_insert.
        rewrite length_insert, Nat.sub_diag. simpl.
        unfold createStepCard. do 2 f_equal. lia.
      * rewrite length_app, length_insert. simpl. lia.
      * unfold in_flight_of in *. simpl in *.
        rewrite filter_app, Hnone. simpl.
        by rewrite filter_cons_True.
    + by rewrite length_insert.
  - assert (Hcase : (exists message, generateStep_settled o = inl message)
                    \/ generateStep_settled o = inr None).
    { destruct o as [msg|status [msg|e [t|]]]; simpl in *; eauto.
      - destruct (ok status); simpl; eauto. done.
      - destruct (ok status); simpl; eauto. }
    destruct Hcase as [[message ->]| ->]; simpl;
      by rewrite length_insert.
Qed.


(** ** The modal *)

Lemma same_modal_refl s : same_modal s s.
Proof. done. Qed.

Lemma removeFloatingButton_modal s : same_modal s (removeFloatingButton s).
Proof. unfold same_modal, removeFloatingButton. by case_match. Qed.

Lemma forLoop_modal sub fd k s : same_modal s (forLoop sub fd k s).
Proof. unfold same_modal, forLoop. by case_match. Qed.

(** Selections, mouse buttons and the time slider leave the modal alone. *)
Lemma pointer_modal s e :
  match e with
  | SelectionChange _ | MouseUp _ _ | MouseDown _ | TimeInput _ => True
  | _ => False
  end ->
  same_modal s (step s e).
Proof.
  destruct e as [i|id o|sel|t sel|t|t|v]; try done; intros _;
    unfold same_modal; simpl.
  - unfold handleSelectionChange, removeFloatingButton.
    by repeat case_match.
  - unfold on_mouseup, updateFloatingButtonPosition, createFloatingButton,
      removeFloatingButton.
    repeat case_match; simplify_eq; done.
  - unfold on_mousedown, removeFloatingButton.
    repeat case_match; simplify_eq; done.
Qed.

Lemma modal_wf_frame s s' :
  same_modal s s' -> isModalLoading s' = isModalLoading s ->
  (forall id, (id, ExplainTask) ∈ pending s' <-> (id, ExplainTask) ∈ pending s) ->
  (forall id r, requests s !! id = Some r -> requests s' !! id = Some r) ->
  modal_wf s -> modal_wf s'.
Proof.
  intros (Ht & Hc & _ & Hl) Hload Hp Hr (Hclass & Hflight & Hshown).
  unfold modal_wf. rewrite Ht, Hc, Hl, Hload. split_and!; [done|..].
  - intros Htrue. destruct (Hflight Htrue) as [id Hin]. exists id.
    by apply Hp.
  - intros id Hin%Hp. destruct (Hshown id Hin) as (? & subj & Hreq & ?).
    split; [done|]. exists subj. split; [|done]. by apply Hr.
Qed.

Lemma modal_wf_forLoop sub fd k s :
  modal_wf s -> modal_wf (forLoop sub fd k s).
Proof.
  apply modal_wf_frame; [apply forLoop_modal|..];
    unfold forLoop; case_match; try done; simpl.
  - intros id. rewrite elem_of_app, list_elem_of_singleton. naive_solver.
  - intros id r Hr. by apply lookup_app_l_Some.
Qed.

Lemma modal_wf_handleExplanationRequest s :
  net_wf s -> modal_wf s -> modal_wf (handleExplanationRequest s).
Proof.
  intros Hnet Hwf.
  destruct (decide (currentSubject s = "")) as [Hsubj|Hsubj].
  { by rewrite handleExplanationRequest_blocked by auto. }
  destruct (decide (currentSelection s = "")) as [Hsel|Hsel].
  { by rewrite handleExplanationRequest_blocked by auto. }
  destruct (isModalLoading s) eqn:Hload.
  { by rewrite handleExplanationRequest_blocked by auto. }
  rewrite handleExplanationRequest_passes by done.
  pose proof (wf_loading _ Hnet Hload) as Hnone.
  assert (Hfree : forall id, (id, ExplainTask) ∉ pending s).
  { intros id Hin.
    assert (Hf : (id, ExplainTask) ∈ explanations_in_flight s).
    { unfold explanations_in_flight. by apply list_elem_of_filter. }
    rewrite Hnone in Hf. by apply elem_of_nil in Hf. }
  unfold modal_wf. simpl. split_and!; [done|..].
  - intros _. exists (length (requests s)).
    apply elem_of_app. right. by apply list_elem_of_singleton.
  - intros id. rewrite elem_of_app, list_elem_of_singleton.
    intros [Hin|[= ->]]; [by apply Hfree in Hin|].
    split; [done|]. exists (currentSubject s).
    rewrite lookup_app_r, Nat.sub_diag by done. done.
Qed.

Lemma modal_wf_step s e : net_wf s -> modal_wf s -> modal_wf (step s e).
Proof.
  intros Hnet Hwf.
  assert (Hpointer :
    match e with
    | SelectionChange _ | MouseUp _ _ | MouseDown _ | TimeInput _ => True
    | _ => False
    end -> same_net s (step s e) -> modal_wf (step s e)).
  { intros He (Hr & _ & Hp & Hl & _).
    eapply modal_wf_frame; [by apply pointer_modal|done|..|exact Hwf].
    - intros id. by rewrite Hp.
    - intros id r. by rewrite Hr. }
  destruct e as [i|id o|sel|t sel|t|t|v].
  - simpl. apply modal_wf_forLoop.
    by eapply modal_wf_frame; [..|exact Hwf].
  - simpl. unfold on_settle.
    destruct (take_pending id (pending s)) as [[k rest]|] eqn:Htake;
      [|done].
    pose proof (take_pending_perm _ _ _ _ Htake) as Hperm.
    destruct (net_wf_take _ _ _ _ Hnet Htake) as [Hnet' Hnone].
    destruct k as [sub fd k c|]; simpl in *.
    + assert (Hwf' : modal_wf (set_pending rest s)).
      { eapply modal_wf_frame; [..|exact Hwf]; try done.
        intros id'. simpl. rewrite Hperm. set_solver. }
      unfold handleFormSubmit_resume.
      repeat case_match; try done; try apply modal_wf_forLoop;
        by eapply modal_wf_frame; [..|exact Hwf'].
    + assert (Hfree : forall id', (id', ExplainTask) ∉ rest).
      { intros id' Hin.
        assert (Hf : (id', ExplainTask)
                       ∈ explanations_in_flight (set_pending rest s)).
        { unfold explanations_in_flight. by apply list_elem_of_filter. }
        rewrite Hnone in Hf. by apply elem_of_nil in Hf. }
      unfold handleExplanationRequest_resume.
      match goal with
      | |- modal_wf (removeFloatingButton ?x) =>
          destruct (removeFloatingButton_net x) as (Hr&_&Hp&Hl&_);
          destruct (removeFloatingButton_modal x) as (Ht&Hc&_&Hcl);
          assert (Hx : isModalLoading x = false /\
                       modalLoadingClass x = false /\ pending x = rest)
            by (by case_match)
      end.
      destruct Hx as (Hx1 & Hx2 & Hx3).
      unfold modal_wf. rewrite Hcl, Hl, Hp, Hx1, Hx2, Hx3.
      split_and!; [done|done|]. intros id' Hin. by apply Hfree in Hin.
  - apply Hpointer; [done|apply handleSelectionChange_net].
  - apply Hpointer; [done|apply on_mouseup_net].
  - apply Hpointer; [done|apply on_mousedown_net].
  - simpl. unfold on_click. destruct t as [b| | |]; try done.
    destruct (buttons s !! b) as [e|] eqn:He; [|done].
    destruct (_ && _); [|done].
    apply (iter_invariant (fun s => net_wf s /\ modal_wf s)).
    + split; [by eapply net_wf_frame; [..|exact Hnet]|].
      by eapply modal_wf_frame; [..|exact Hwf].
    + intros s' [? ?]. split; [by apply net_wf_handleExplanationRequest|].
      by apply modal_wf_handleExplanationRequest.
  - by apply Hpointer.
Qed.

Lemma modal_wf_run mv es : modal_wf (run (init mv) es).
Proof.
  induction es as [|e es IH] using rev_ind.
  - unfold modal_wf. simpl. split_and!; [done..|].
    intros id Hin. by apply elem_of_nil in Hin.
  - rewrite run_snoc. apply modal_wf_step; [apply net_wf_run|done].
Qed.

(** X11: the loading flag tracks the explanation fetch.  On every page the
    script can reach the modal carries the class loading exactly when the
    flag is set, the flag is set exactly when an explanation fetch is in
    flight, and while one is in flight the modal shows the loading line
    and its title is the [component] of that request, which is what
    [APIService.getComponentDetails] would send for it: neither the title
    nor the subject is empty. *)
Theorem loading_flag_tracks_the_fetch s :
  reachable s ->
  modalLoadingClass s = isModalLoading s /\
  (isModalLoading s = true <-> explanations_in_flight s <> []) /\
  forall id, (id, ExplainTask) ∈ pending s ->
    modalContent s = LoadingText "Loading detailed explanation..." /\
    modalTitle s <> "" /\
    exists subj,
      subj <> "" /\
      requests s !! id
        = Some (getComponentDetails_request (modalTitle s) subj).
Proof.
  intros Hreach. pose proof (reachable_net_wf _ Hreach) as Hnet.
  destruct Hreach as (mv & es & ->).
  destruct (modal_wf_run mv es) as (Hclass & Hflight & Hshown).
  split_and!; [done| |].
  - split.
    + intros [id Hin]%Hflight Hnil.
      assert (Hf : (id, ExplainTask)
                     ∈ explanations_in_flight (run (init mv) es)).
      { unfold explanations_in_flight. by apply list_elem_of_filter. }
      rewrite Hnil in Hf. by apply elem_of_nil in Hf.
    + intros Hne. destruct (isModalLoading _) eqn:Hload; [done|].
      by apply (wf_loading _ Hnet) in Hload.
  - intros id Hin. destruct (Hshown id Hin) as (? & subj & ? & ? & ?).
    split_and!; [done..|]. by exists subj.
Qed.

Lemma modalHidden_handleExplanationRequest s :
  modalHidden (handleExplanationRequest s) <> modalHidden s ->
  modalHidden s = true /\
  requests (handleExplanationRequest s) =
    requests s ++
    [getComponentDetails_request (currentSelection s) (currentSubject s)] /\
  modalTitle (handleExplanationRequest s) = currentSelection s /\
  isModalLoading (handleExplanationRequest s) = true.
Proof.
  destruct (decide (currentSubject s = "")) as [Hsubj|Hsubj].
  { by rewrite handleExplanationRequest_blocked by auto. }
  destruct (decide (currentSelection s = "")) as [Hsel|Hsel].
  { by rewrite handleExplanationRequest_blocked by auto. }
  destruct (isModalLoading s) eqn:Hload.
  { by rewrite handleExplanationRequest_blocked by auto. }
  rewrite handleExplanationRequest_passes by done. simpl.
  by destruct (modalHidden s).
Qed.

(** X12: the modal opens and closes on clicks only.  An event that changes
    whether the modal is hidden is either a click on the close button or
    on the backdrop, which hides it, or a click on an attached floating
    button, which shows it, sets the loading flag, puts the recorded
    selection in the title and sends the request for it.  In particular a
    settled fetch, successful or not, never opens or closes the modal. *)
Theorem modal_opens_and_closes_on_clicks s e :
  modalHidden (step s e) <> modalHidden s ->
  (modalHidden s = false /\ modalHidden (step s e) = true /\
   (e = Click OnModal \/ e = Click OnCloseModal)) \/
  (modalHidden s = true /\ modalHidden (step s e) = false /\
   exists b,
     e = Click (OnButton b) /\ b ∈ bodyButtons s /\
     requests (step s e) =
       requests s ++
       [getComponentDetails_request (currentSelection s) (currentSubject s)] /\
     modalTitle (step s e) = currentSelection s /\
     isModalLoading (step s e) = true).
Proof.
  intros Hchange.
  destruct e as [i|id o|sel|t sel|t|t|v];
    try (exfalso; apply Hchange; by apply pointer_modal).
  - exfalso. apply Hchange. simpl. unfold handleFormSubmit. cbv zeta.
    by match goal with
       | |- modalHidden (forLoop ?a ?b ?c ?x) = _ =>
           destruct (forLoop_modal a b c x) as (_&_& -> &_)
       end.
  - exfalso. apply Hchange. simpl. unfold on_settle.
    destruct (take_pending id (pending s)) as [[k rest]|]; [|done].
    destruct k as [sub fd k c|]; simpl.
    + unfold handleFormSubmit_resume.
      repeat case_match; try done;
        by match goal with
           | |- modalHidden (forLoop ?a ?b ?c ?x) = _ =>
               destruct (forLoop_modal a b c x) as (_&_& -> &_)
           end.
    + unfold handleExplanationRequest_resume.
      match goal with
      | |- modalHidden (removeFloatingButton ?x) = _ =>
          destruct (removeFloatingButton_modal x) as (_&_& -> &_)
      end.
      by case_match.
  - destruct t as [b| | |]; simpl in *.
    + right. unfold on_click in *.
      destruct (buttons s !! b) as [e|] eqn:He; [|done].
      destruct (bool_decide (b ∈ bodyButtons s)) eqn:Hb; [|done].
      apply bool_decide_eq_true in Hb.
      destruct (displayed e); [|done]. simpl in *.
      set (s1 := set_buttons _ s) in *.
      destruct (iter_handleExplanationRequest (listeners e) s1) as [Hi|Hi];
        rewrite Hi in *; [done|].
      destruct (modalHidden_handleExplanationRequest s1 Hchange)
        as (Hh & Hr & Ht & Hl).
      split_and!; [done| |by exists b].
      simpl in Hh. rewrite Hh in Hchange.
      by destruct (modalHidden (handleExplanationRequest s1)).
    + left. destruct (modalHidden s); [done|]. auto.
    + left. destruct (modalHidden s); [done|]. auto.
    + done.
Qed.


(** ** The history of responses and the results area *)

Lemma take_pending_elem_of id k rest p :
  take_pending id p = Some (k, rest) -> (id, k) ∈ p.
Proof. intros ->%take_pending_perm. left. Qed.

Lemma forLoop_previousResponses sub fd k s :
  previousResponses (forLoop sub fd k s) = previousResponses s.
Proof. unfold forLoop. by case_match. Qed.

(** What an event does to [previousResponses]. *)
Lemma previousResponses_step s e :
  previousResponses (step s e) = previousResponses s \/
  (exists i, e = Submit i /\ previousResponses (step s e) = []) \/
  (exists id o text sub fd k c,
     e = Settle id o /\ (id, GenerateTask sub fd k c) ∈ pending s /\
     response_text o = Some text /\
     previousResponses (step s e) = previousResponses s ++ [text]).
Proof.
  destruct e as [i|id o|sel|t sel|t|t|v]; simpl.
  - right. left. exists i. split; [done|].
    unfold handleFormSubmit. cbv zeta.
    by rewrite forLoop_previousResponses.
  - unfold on_settle.
    destruct (take_pending id (pending s)) as [[k rest]|] eqn:Htake;
      [|by left].
    apply take_pending_elem_of in Htake.
    destruct k as [sub fd k c|]; simpl.
    + unfold handleFormSubmit_resume.
      destruct (generateStep_settled o) as [message|[text|]] eqn:Ho;
        [by left| |].
      * assert (Htext : response_text o = Some text).
        { destruct o as [msg|status [msg|e [t|]]]; simpl in *; try done;
            destruct (ok status); simpl in *; by simplify_eq. }
        simpl. destruct (cards s !! c) as [crd|]; [|by left].
        destruct (updateStepCard crd (Some text)) as [c' [message|]];
          [by left|].
        right. right. exists id, o, text, sub, fd, k, c.
        split_and!; [done..|].
        by rewrite forLoop_previousResponses.
      * simpl. destruct (cards s !! c) as [crd|]; [|by left].
        destruct (updateStepCard crd None) as [c' [message|]]; by left.
    + left. unfold handleExplanationRequest_resume.
      match goal with
      | |- previousResponses (removeFloatingButton ?x) = _ =>
          destruct (removeFloatingButton_net x)
            as (_&_&_&_&_&_&_& -> &_)
      end.
      by case_match.
  - left. by destruct (handleSelectionChange_net sel s)
      as (_&_&_&_&_&_&_& -> &_).
  - left. by destruct (on_mouseup_net t sel s) as (_&_&_&_&_&_&_& -> &_).
  - left. by destruct (on_mousedown_net t s) as (_&_&_&_&_&_&_& -> &_).
  - left. unfold on_click. destruct t as [b| | |]; try done.
    destruct (buttons s !! b) as [e|]; [|done].
    destruct (_ && _); [|done].
    apply (iter_invariant
             (fun s' => previousResponses s' = previousResponses s)); [done|].
    intros s' <-. unfold handleExplanationRequest. by repeat case_match.
  - by left.
Qed.


Lemma results_ordered_frame s s' :
  resultsDiv s' = resultsDiv s -> length (cards s) <= length (cards s') ->
  results_ordered s -> results_ordered s'.
Proof.
  intros Hr Hl [Hlt Hord]. unfold results_ordered. rewrite Hr.
  split; [|done]. intros c Hc%Hlt. lia.
Qed.

Lemma results_ordered_forLoop sub fd k s :
  results_ordered s -> results_ordered (forLoop sub fd k s).
Proof.
  intros [Hlt Hord]. unfold forLoop. case_match; [|done].
  unfold results_ordered. simpl. rewrite length_app. simpl. split.
  - intros c [Hc%Hlt| ->%list_elem_of_singleton]%elem_of_app; lia.
  - intros i j ci cj Hij Hi Hj.
    apply lookup_app_Some in Hi as [Hi|[Hlen Hi]].
    + apply lookup_app_Some in Hj as [Hj|[_ Hj]]; [by eapply Hord|].
      apply list_lookup_singleton_Some in Hj as [_ <-].
      apply Hlt. by eapply list_elem_of_lookup_2.
    + apply list_lookup_singleton_Some in Hi as [Hi _].
      apply lookup_app_Some in Hj as [Hj%lookup_lt_Some|[_ Hj]]; [lia|].
      apply list_lookup_singleton_Some in Hj as [Hj _]. lia.
Qed.

Lemma results_ordered_step s e : results_ordered s -> results_ordered (step s e).
Proof.
  intros Hwf. destruct e as [i|id o|sel|t sel|t|t|v]; simpl.
  - unfold handleFormSubmit. cbv zeta. apply results_ordered_forLoop.
    split; simpl.
    + intros c Hc. by apply elem_of_nil in Hc.
    + intros i' j ci cj _ Hi. by rewrite lookup_nil in Hi.
  - unfold on_settle.
    destruct (take_pending id (pending s)) as [[k rest]|]; [|done].
    destruct k as [sub fd k c|]; simpl.
    + unfold handleFormSubmit_resume.
      repeat case_match; try done; try apply results_ordered_forLoop;
        (eapply results_ordered_frame; [..|exact Hwf]; [done|]); simpl;
        by rewrite ?length_alter, ?length_insert.
    + unfold handleExplanationRequest_resume.
      match goal with
      | |- results_ordered (removeFloatingButton ?x) =>
          destruct (removeFloatingButton_net x) as (_&_&_&_&_&Hc&Hr&_)
      end.
      eapply results_ordered_frame; [exact Hr|by rewrite Hc|].
      eapply results_ordered_frame; [..|exact Hwf]; by case_match.
  - destruct (handleSelectionChange_net sel s) as (_&_&_&_&_&Hc&Hr&_).
    eapply results_ordered_frame; [exact Hr|by rewrite Hc|done].
  - destruct (on_mouseup_net t sel s) as (_&_&_&_&_&Hc&Hr&_).
    eapply results_ordered_frame; [exact Hr|by rewrite Hc|done].
  - destruct (on_mousedown_net t s) as (_&_&_&_&_&Hc&Hr&_).
    eapply results_ordered_frame; [exact Hr|by rewrite Hc|done].
  - unfold on_click. destruct t as [b| | |]; try done.
    destruct (buttons s !! b) as [e|]; [|done].
    destruct (_ && _); [|done].
    apply iter_invariant.
    + by eapply results_ordered_frame; [..|exact Hwf].
    + intros s' Hs'. unfold handleExplanationRequest.
      repeat case_match; try done;
        by eapply results_ordered_frame; [..|exact Hs'].
  - by eapply results_ordered_frame; [..|exact Hwf].
Qed.

(** X14: the results area holds step cards in the order of their
    creation.  On every page the script can reach, each child of the
    results area is a card that exists, no card is attached twice, and of
    two children the later one was created later, also when the cards of
    overlapping submissions are interleaved. *)
Theorem results_in_creation_order s :
  reachable s ->
  NoDup (resultsDiv s) /\
  (forall c, c ∈ resultsDiv s -> c < length (cards s)) /\
  forall i j ci cj,
    i < j -> resultsDiv s !! i = Some ci -> resultsDiv s !! j = Some cj ->
    ci < cj.
Proof.
  intros (mv & es & ->).
  assert (Hwf : results_ordered (run (init mv) es)).
  { apply run_invariant; [|apply results_ordered_step].
    split; simpl.
    - intros c Hc. by apply elem_of_nil in Hc.
    - intros i j ci cj _ Hi. by rewrite lookup_nil in Hi. }
  destruct Hwf as [Hlt Hord]. split_and!; [|done..].
  apply NoDup_alt. intros i j c Hi Hj.
  destruct (Nat.lt_total i j) as [Hij|[Hij|Hij]]; [|done|].
  - pose proof (Hord i j c c Hij Hi Hj). lia.
  - pose proof (Hord j i c c Hij Hj Hi). lia.
Qed.

(** ** The time slider *)

Lemma timeDisplay_step s e :
  timeDisplay (step s e) =
  match e with
  | TimeInput value => value +:+ " hours per week"
  | _ => timeDisplay s
  end.
Proof.
  destruct e as [i|id o|sel|t sel|t|t|v]; simpl; try through_handlers.
  unfold on_click. destruct t as [b| | |]; try done.
  destruct (buttons s !! b) as [e|]; [|done].
  destruct (_ && _); [|done].
  apply (iter_invariant (fun s' => timeDisplay s' = timeDisplay s)); [done|].
  intros s' <-. through_handlers.
Qed.

(** X15: the label of the time slider shows the value of the most recent
    input event of the slider followed by [ hours per week], and the text
    of the document before the first one; no other handler writes it. *)
Theorem timeDisplay_follows_the_slider mv es :
  timeDisplay (run (init mv) es) = slider_label es.
Proof.
  induction es as [|e es IH] using rev_ind; [done|].
  rewrite run_snoc, timeDisplay_step. unfold slider_label.
  rewrite fold_left_app. simpl. fold (slider_label es).
  by destruct e.
Qed.


(** ** A page whose loop test fails at once *)

Lemma generate_requests_handleExplanationRequest s :
  generate_requests (handleExplanationRequest s) = generate_requests s.
Proof.
  unfold handleExplanationRequest. repeat case_match; try done.
  unfold generate_requests. simpl. rewrite filter_app.
  rewrite filter_cons_False by done. by rewrite app_nil_r.
Qed.

(** X16: when the loop test already fails for step 0 (the maxSteps input
    holds a string that is no number, or a number that is not positive),
    a submission generates nothing: whatever events occur, no request is
    ever sent to /generate, no step card is ever created, and the results
    area and [previousResponses] stay empty. *)
Theorem nothing_generated_without_steps mv es :
  lt_maxSteps 0 (read_maxSteps mv) = false ->
  generate_requests (run (init mv) es) = [] /\
  cards (run (init mv) es) = [] /\
  resultsDiv (run (init mv) es) = [] /\
  previousResponses (run (init mv) es) = [].
Proof.
  intros Hlt.
  set (J := fun s : Page =>
    ui_maxSteps s = read_maxSteps mv /\
    (forall id k, (id, k) ∈ pending s -> k = ExplainTask) /\
    generate_requests s = [] /\ cards s = [] /\ resultsDiv s = [] /\
    previousResponses s = []).
  assert (Hnet : forall s s', same_net s s' -> J s -> J s').
  { intros s s' (Hr&_&Hp&_&_&Hc&Hd&Hv&_&Hm) (?&?&?&?&?&?).
    unfold J, generate_requests in *. by rewrite Hr, Hp, Hc, Hd, Hv, Hm. }
  assert (Hexplain : forall s, J s -> J (handleExplanationRequest s)).
  { intros s (Hm & Hp & Hg & Hc & Hd & Hv). unfold J.
    rewrite generate_requests_handleExplanationRequest.
    unfold handleExplanationRequest. repeat case_match; try done.
    simpl. split_and!; try done.
    intros id k [Hin|Hin%list_elem_of_singleton]%elem_of_app; [eauto|].
    congruence. }
  enough (HJ : J (run (init mv) es)) by (unfold J in HJ; tauto).
  apply run_invariant.
  { unfold J. simpl. split_and!; try done.
    intros id k Hin. by apply elem_of_nil in Hin. }
  intros s e HJ. destruct e as [i|id o|sel|t sel|t|t|v]; simpl.
  - destruct HJ as (Hm & Hp & Hg & Hc & Hd & Hv).
    unfold handleFormSubmit, forLoop. cbv zeta. simpl.
    rewrite Hm, Hlt. done.
  - unfold on_settle.
    destruct (take_pending id (pending s)) as [[k rest]|] eqn:Htake;
      [|done].
    pose proof (take_pending_perm _ _ _ _ Htake) as Hperm.
    destruct HJ as (Hm & Hp & Hg & Hc & Hd & Hv).
    assert (k = ExplainTask) as ->.
    { apply (Hp id). rewrite Hperm. left. }
    simpl.
    unfold handleExplanationRequest_resume.
    eapply Hnet; [apply removeFloatingButton_net|].
    unfold J, generate_requests in *.
    assert (Hrest : forall id' k', (id', k') ∈ rest -> k' = ExplainTask).
    { intros id' k' Hin. apply (Hp id'). rewrite Hperm. by right. }
    by case_match.
  - eapply Hnet; [apply handleSelectionChange_net|done].
  - eapply Hnet; [apply on_mouseup_net|done].
  - eapply Hnet; [apply on_mousedown_net|done].
  - unfold on_click. destruct t as [b| | |]; try done.
    destruct (buttons s !! b) as [e|]; [|done].
    destruct (_ && _); [|done].
    by apply iter_invariant.
  - done.
Qed.

(** ** Where the contents of a request come from *)

Lemma currentSelection_source s e :
  currentSelection (step s e) = currentSelection s \/
  exists sel, e = SelectionChange sel /\
              findStepCard (commonAncestorContainer sel) <> None /\
              currentSelection (step s e) = trim (sel_text sel).
Proof.
  destruct (currentSelection_step s e) as [?|(sel & -> & Heq & Hne)];
    [by left|].
  destruct (findStepCard (commonAncestorContainer sel)) eqn:Hcard.
  - right. exists sel. by rewrite Hcard.
  - left. simpl. unfold handleSelectionChange. rewrite Hcard.
    unfold removeFloatingButton. by repeat case_match.
Qed.

(** The fetch an event issues, if any. *)
Lemma requests_step s e :
  requests (step s e) = requests s \/
  (exists i,
     e = Submit i /\ lt_maxSteps 0 (ui_maxSteps s) = true /\
     requests (step s e) =
       requests s ++ [generateStep_request (read_form i (ui_maxSteps s)) 0 []])
  \/
  (exists id o text sub fd k c,
     e = Settle id o /\ (id, GenerateTask sub fd k c) ∈ pending s /\
     response_text o = Some text /\
     lt_maxSteps (k + 1) (maxSteps fd) = true /\
     requests (step s e) =
       requests s ++
       [generateStep_request fd (k + 1) (previousResponses s ++ [text])])
  \/
  (exists b,
     e = Click (OnButton b) /\
     currentSelection s <> "" /\ currentSubject s <> "" /\
     requests (step s e) =
       requests s ++
       [getComponentDetails_request (currentSelection s) (currentSubject s)]).
Proof.
  destruct e as [i|id o|sel|t sel|t|t|v]; simpl.
  - unfold handleFormSubmit, forLoop. cbv zeta. simpl.
    destruct (lt_maxSteps 0 (ui_maxSteps s)) eqn:Hlt; [|by left].
    right. left. by exists i.
  - unfold on_settle.
    destruct (take_pending id (pending s)) as [[k rest]|] eqn:Htake;
      [|by left].
    apply take_pending_elem_of in Htake.
    destruct k as [sub fd k c|]; simpl.
    + unfold handleFormSubmit_resume.
      destruct (generateStep_settled o) as [message|[text|]] eqn:Ho;
        [by left| |].
      * assert (Htext : response_text o = Some text).
        { destruct o as [msg|status [msg|e [t|]]]; simpl in *; try done;
            destruct (ok status); simpl in *; by simplify_eq. }
        simpl. destruct (cards s !! c) as [crd|]; [|by left].
        destruct (updateStepCard crd (Some text)) as [c' [message|]];
          [by left|].
        unfold forLoop.
        destruct (lt_maxSteps (k + 1) (maxSteps fd)) eqn:Hlt; [|by left].
        right. right. left. by exists id, o, text, sub, fd, k, c.
      * simpl. destruct (cards s !! c) as [crd|]; [|by left].
        destruct (updateStepCard crd None) as [c' [message|]]; by left.
    + left. unfold handleExplanationRequest_resume.
      match goal with
      | |- requests (removeFloatingButton ?x) = _ =>
          destruct (removeFloatingButton_net x) as (-> &_)
      end.
      by case_match.
  - left. by destruct (handleSelectionChange_net sel s) as (-> &_).
  - left. by destruct (on_mouseup_net t sel s) as (-> &_).
  - left. by destruct (on_mousedown_net t s) as (-> &_).
  - unfold on_click. destruct t as [b| | |]; try by left.
    destruct (buttons s !! b) as [e|]; [|by left].
    destruct (_ && _); [|by left].
    set (s1 := set_buttons _ s).
    destruct (iter_handleExplanationRequest (listeners e) s1) as [-> | ->];
      [by left|].
    destruct (decide (currentSubject s1 = "")) as [Hsubj|Hsubj].
    { left. by rewrite handleExplanationRequest_blocked by auto. }
    destruct (decide (currentSelection s1 = "")) as [Hsel|Hsel].
    { left. by rewrite handleExplanationRequest_blocked by auto. }
    destruct (isModalLoading s1) eqn:Hload.
    { left. by rewrite handleExplanationRequest_blocked by auto. }
    right. right. right. exists b.
    rewrite handleExplanationRequest_passes by done. done.
  - by left.
Qed.

(** The form data a parked generation step carries. *)
Lemma pending_step s e id sub fd k c :
  (id, GenerateTask sub fd k c) ∈ pending (step s e) ->
  (exists id' sub' k' c', (id', GenerateTask sub' fd k' c') ∈ pending s) \/
  exists i, e = Submit i /\ fd = read_form i (ui_maxSteps s).
Proof.
  assert (Hloop : forall sub0 fd0 k0 s0,
    (id, GenerateTask sub fd k c) ∈ pending (forLoop sub0 fd0 k0 s0) ->
    (id, GenerateTask sub fd k c) ∈ pending s0 \/ fd = fd0).
  { intros sub0 fd0 k0 s0. unfold forLoop. case_match; [|by left].
    simpl. intros [?|[= ]%list_elem_of_singleton]%elem_of_app;
      [by left|by right]. }
  assert (Hnet : forall s', same_net s s' ->
    (id, GenerateTask sub fd k c) ∈ pending s' ->
    (exists id' sub' k' c', (id', GenerateTask sub' fd k' c') ∈ pending s) \/
    exists i, e = Submit i /\ fd = read_form i (ui_maxSteps s)).
  { intros s' (_&_& -> &_) Hin. left. eauto. }
  destruct e as [i|id0 o|sel|t sel|t|t|v]; simpl.
  - unfold handleFormSubmit. cbv zeta. intros [Hin| ->]%Hloop.
    + left. eauto.
    + right. eauto.
  - unfold on_settle.
    destruct (take_pending id0 (pending s)) as [[k0 rest]|] eqn:Htake;
      [|left; eauto].
    pose proof (take_pending_perm _ _ _ _ Htake) as Hperm.
    assert (Hrest : forall q, q ∈ rest -> q ∈ pending s).
    { intros q Hq. rewrite Hperm. by right. }
    destruct k0 as [sub0 fd0 k0 c0|]; simpl.
    + unfold handleFormSubmit_resume.
      repeat case_match; simpl; try (intros Hin%Hrest; left; by eauto).
      intros [Hin%Hrest| ->]%Hloop; left; [by eauto|].
      exists id0, sub0, k0, c0. rewrite Hperm. left.
    + unfold handleExplanationRequest_resume.
      match goal with
      | |- _ ∈ pending (removeFloatingButton ?x) -> _ =>
          destruct (removeFloatingButton_net x) as (_&_& -> &_)
      end.
      intros Hin. left. exists id, sub, k, c. apply Hrest. by case_match.
  - apply Hnet, handleSelectionChange_net.
  - apply Hnet, on_mouseup_net.
  - apply Hnet, on_mousedown_net.
  - unfold on_click. destruct t as [b| | |]; try (left; by eauto).
    destruct (buttons s !! b) as [e|]; [|left; by eauto].
    destruct (_ && _); [|left; by eauto].
    set (s1 := set_buttons _ s).
    destruct (iter_handleExplanationRequest (listeners e) s1) as [-> | ->];
      [left; by eauto|].
    unfold handleExplanationRequest. repeat case_match;
      try (left; by eauto).
    simpl. intros [?|[=]%list_elem_of_singleton]%elem_of_app.
    left. eauto.
  - left. eauto.
Qed.

Lemma selected_in_snoc es e text :
  selected_in es text -> selected_in (es ++ [e]) text.
Proof. intros (sel & ? & ?). exists sel. set_solver. Qed.

Lemma submitted_in_snoc es e subj :
  submitted_in es subj -> submitted_in (es ++ [e]) subj.
Proof. intros (i & ? & ?). exists i. set_solver. Qed.

Lemma answered_in_snoc es e text :
  answered_in es text -> answered_in (es ++ [e]) text.
Proof. intros (id & o & ? & ?). exists id, o. set_solver. Qed.

Lemma request_source_snoc mv es e r :
  request_source mv es r -> request_source mv (es ++ [e]) r.
Proof.
  intros [(component & subj & ? & ? & ?)|(i & k & previous & ? & ? & Hp & ?)].
  - left. exists component, subj.
    split_and!; auto using selected_in_snoc, submitted_in_snoc; tauto.
  - right. exists i, k, previous. split_and!; [set_solver|done| |done].
    eapply Forall_impl; [exact Hp|]. intros text. apply answered_in_snoc.
Qed.

(** What the events so far account for: the recorded selection, the
    current subject, the history of responses, the form data the parked
    steps carry and every request sent. *)
Lemma sources_run mv es :
  let s := run (init mv) es in
  (currentSelection s = "" \/ selected_in es (currentSelection s)) /\
  (currentSubject s = "" \/ submitted_in es (currentSubject s)) /\
  Forall (answered_in es) (previousResponses s) /\
  (forall id sub fd k c,
     (id, GenerateTask sub fd k c) ∈ pending s ->
     exists i, Submit i ∈ es /\ fd = read_form i (read_maxSteps mv)) /\
  forall r, r ∈ requests s -> request_source mv es r.
Proof.
  induction es as [|e es IH] using rev_ind.
  { simpl. split_and!; auto.
    - intros id sub fd k c Hin. by apply elem_of_nil in Hin.
    - intros r Hin. by apply elem_of_nil in Hin. }
  cbv zeta in *. rewrite run_snoc.
  pose proof (ui_maxSteps_run mv es) as Hm.
  set (s := run (init mv) es) in *.
  destruct IH as (Hsel & Hsubj & Hprev & Hpend & Hreq).
  assert (Hsel' : currentSelection (step s e) = "" \/
                  selected_in (es ++ [e]) (currentSelection (step s e))).
  { destruct (currentSelection_source s e) as [-> |(sel & -> & Hcard & ->)].
    - destruct Hsel; auto using selected_in_snoc.
    - right. exists sel. set_solver. }
  assert (Hsubj' : currentSubject (step s e) = "" \/
                   submitted_in (es ++ [e]) (currentSubject (step s e))).
  { rewrite currentSubject_step. destruct e as [i| | | | | |];
      try (destruct Hsubj; by auto using submitted_in_snoc).
    right. exists i. set_solver. }
  assert (Hprev' : Forall (answered_in (es ++ [e]))
                     (previousResponses (step s e))).
  { assert (Hold : Forall (answered_in (es ++ [e])) (previousResponses s)).
    { eapply Forall_impl; [exact Hprev|]. intros text.
      apply answered_in_snoc. }
    destruct (previousResponses_step s e)
      as [-> |[(i & _ & ->)|(id & o & text & _ & _ & _ & _ & -> & _ & Ho & ->)]];
      [done|done|].
    apply Forall_app. split; [done|]. apply Forall_singleton.
    exists id, o. set_solver. }
  split_and!; [done..| |].
  - intros id sub fd k c Hin.
    destruct (pending_step _ _ _ _ _ _ _ Hin)
      as [(id' & sub' & k' & c' & Hin')|(i & -> & ->)].
    + destruct (Hpend _ _ _ _ _ Hin') as (i & ? & ?). exists i. set_solver.
    + exists i. rewrite Hm. set_solver.
  - intros r.
    destruct (requests_step s e)
      as [-> |[(i & -> & Hlt & ->)|
               [(id & o & text & sub & fd & k & c & -> & Hin & Ho & Hlt & ->)|
                (b & -> & Hs & Hj & ->)]]].
    + intros Hr%Hreq. by apply request_source_snoc.
    + intros [Hr%Hreq| ->%list_elem_of_singleton]%elem_of_app;
        [by apply request_source_snoc|].
      right. exists i, 0, []. rewrite <- Hm. split_and!; [set_solver|done..].
    + intros [Hr%Hreq| ->%list_elem_of_singleton]%elem_of_app;
        [by apply request_source_snoc|].
      destruct (Hpend _ _ _ _ _ Hin) as (i & Hi & ->). simpl in Hlt.
      right. exists i, (k + 1), (previousResponses s ++ [text]).
      split_and!; [set_solver|done| |done].
      apply Forall_app. split.
      * eapply Forall_impl; [exact Hprev|]. intros t.
        apply answered_in_snoc.
      * apply Forall_singleton. exists id, o. set_solver.
    + intros [Hr%Hreq| ->%list_elem_of_singleton]%elem_of_app;
        [by apply request_source_snoc|].
      left. exists (currentSelection s), (currentSubject s).
      destruct Hsel as [?|Hsel]; [done|].
      destruct Hsubj as [?|Hsubj]; [done|].
      split_and!; auto using selected_in_snoc, submitted_in_snoc.
Qed.

(** X17: every request is accounted for by the events before it.  A request
    in the log is either what [APIService.getComponentDetails] would send
    for a component and a subject that are both non-empty, the component
    being the trimmed text of a selection made inside a step card and the
    subject the subject input of a submit event; or what
    [APIService.generateStep] sends for the form of a submit event, with
    the page's [maxSteps], a step index for which the loop test holds, and
    a history made of response texts of fetches that settled. *)
Theorem requests_are_accounted_for mv es r :
  r ∈ requests (run (init mv) es) -> request_source mv es r.
Proof. destruct (sources_run mv es) as (_&_&_&_&Hreq). apply Hreq. Qed.


(** ** The subject and the modal after an explanation *)

(** X18: the subject the selection handler holds is the subject input of
    the most recent submit event, and the empty string before the first
    one.  It is set whether or not that submission sent a request, and no
    other handler writes it. *)
Theorem currentSubject_is_the_last_submitted mv es :
  currentSubject (run (init mv) es) = submitted_subject es.
Proof. apply currentSubject_run. Qed.

(** X19: what the modal shows once the explanation fetch has settled, on
    any page the script can reach.  A status that is not ok gives the line
    [HTTP error! status: N] whatever the body holds (here the status is
    looked at before the body is read); a rejected fetch, a body that is
    no JSON and an answer without [response] give their own message; an
    answer with a [response] is rendered.  The title stays, the modal is
    neither opened nor closed, and no request leaves. *)
Theorem settled_explanation_is_shown s id o :
  reachable s -> (id, ExplainTask) ∈ pending s ->
  modalContent (step s (Settle id o)) =
    match o with
    | NetworkError message =>
        ErrorDiv ("Error loading content: " +:+ message)
    | HttpResponse status b =>
        if ok status then
          match b with
          | BodyInvalid message =>
              ErrorDiv ("Error loading content: " +:+ message)
          | BodyObject _ None =>
              ErrorDiv ("Error loading content: " +:+ marked_no_input)
          | BodyObject _ (Some text) => Rendered (marked_parse text)
          end
        else
          ErrorDiv ("Error loading content: HTTP error! status: "
                    +:+ string_of_nat status)
    end /\
  modalTitle (step s (Settle id o)) = modalTitle s /\
  modalHidden (step s (Settle id o)) = modalHidden s /\
  requests (step s (Settle id o)) = requests s /\
  cards (step s (Settle id o)) = cards s /\
  previousResponses (step s (Settle id o)) = previousResponses s.
Proof.
  intros Hreach Hin.
  pose proof (reachable_net_wf _ Hreach) as Hwf.
  destruct (take_pending_present _ _ _ Hwf Hin) as [rest Htake].
  simpl. unfold on_settle. rewrite Htake. simpl.
  unfold handleExplanationRequest_resume.
  match goal with
  | |- modalContent (removeFloatingButton ?x) = _ /\ _ =>
      destruct (removeFloatingButton_net x) as (Hr&_&_&_&_&Hc&_&Hp&_);
      destruct (removeFloatingButton_modal x) as (Ht&Hm&Hh&_)
  end.
  rewrite Hr, Hc, Hp, Ht, Hm, Hh.
  destruct o as [msg|status [msg|e [t|]]]; simpl; try done;
    by destruct (ok status).
Qed.

End Properties.

(** * The script at concrete inputs *)

(** C1 (the code departs from the claim).  On the page as shipped the user
    submits twice before the first response arrives: [handleFormSubmit]
    runs a second time while its first run is parked at its [await], and
    two requests to /generate are in flight together.  (One submission on
    its own does proceed as the claim says, and each submission has at most
    one fetch in flight: [submission_runs_in_order].) *)
Theorem two_generation_requests_in_flight :
  pending
    (example_page [Submit (inputs "Algebra"); Submit (inputs "Biology")]) =
  [(0, GenerateTask 0 (read_form (inputs "Algebra") (VNumber (Finite 1))) 0 0);
   (1, GenerateTask 1 (read_form (inputs "Biology") (VNumber (Finite 1))) 0 1)]
  /\
  requests
    (example_page [Submit (inputs "Algebra"); Submit (inputs "Biology")]) =
  [generateStep_request (read_form (inputs "Algebra") (VNumber (Finite 1))) 0 [];
   generateStep_request (read_form (inputs "Biology") (VNumber (Finite 1))) 0 []].
Proof. vm_compute. split; reflexivity. Qed.

(** C2 (the code departs from the claim).  On a page whose maxSteps is 2 the
    user submits twice before the first response arrives.  The second
    submission has received only the response b0 when it sends its step 1,
    yet that request carries a0, the response of the first submission, in
    front of b0: [previousResponses] was reset by the second submit event
    while the first submission was running, and both loops push into it. *)
Theorem overlapping_submission_sends_foreign_responses :
  requests_of 1 (two_step_page overlapping_submissions) =
  [generateStep_request (read_form (inputs "Biology") (VString "2")) 0 [];
   generateStep_request (read_form (inputs "Biology") (VString "2")) 1
     ["a0"; "b0"]].
Proof. vm_compute. reflexivity. Qed.

(** C6 (the code departs from the claim).  Same page and same two submit
    events; then the first submission's response a0 arrives.  The second
    submit event had emptied the results area and [previousResponses], yet
    the first submission's response is now in [previousResponses] and the
    card of its step 2 (card 2, held by the continuation of submission 0)
    is a child of the results area, next to the card of the second
    submission (card 1). *)
Theorem earlier_submission_survives_reset :
  previousResponses
    (two_step_page [Submit (inputs "Algebra"); Submit (inputs "Biology");
                    Settle 0 (ok_response "a0")]) = ["a0"] /\
  resultsDiv
    (two_step_page [Submit (inputs "Algebra"); Submit (inputs "Biology");
                    Settle 0 (ok_response "a0")]) = [1; 2] /\
  in_flight_of 0
    (two_step_page [Submit (inputs "Algebra"); Submit (inputs "Biology");
                    Settle 0 (ok_response "a0")]) =
  [(2, GenerateTask 0 (read_form (inputs "Algebra") (VString "2")) 1 2)].
Proof. vm_compute. repeat split. Qed.

(** C8 (the code departs from the claim).  Once the user has selected a
    term in a step card and released the mouse, two floating-button
    elements are children of body: the button the script holds (0) and the
    clone that [replaceWith] put in its place (1).  Pressing the mouse
    elsewhere detaches the former only; the clone stays in the document. *)
Theorem two_floating_buttons_attached :
  bodyButtons (example_page term_selected) = [1; 0] /\
  floatingButton (example_page term_selected) = Some 0 /\
  bodyButtons (example_page (term_selected ++ [MouseDown Elsewhere])) = [1] /\
  floatingButton (example_page (term_selected ++ [MouseDown Elsewhere]))
    = None.
Proof. vm_compute. repeat split. Qed.

(** C3 (the code departs from the claim).  On the page as shipped the user
    submits twice before the first response arrives, and the first request
    then fails.  The error line is written into the card of the first
    submission (card 0), but the second submit event had emptied the
    results area, so that card is no longer in the document: the results
    area holds only the card of the second submission (card 1), still
    loading, and the error line is displayed nowhere.  (The card of the
    most recent submission is in the results area when its step fails:
    [generation_failure_stops].) *)
Theorem failure_of_superseded_submission_is_not_shown :
  cards (example_page failure_after_resubmission) =
    [{| data_step := 1; loading_bar := true; loading_text := true;
        step_content :=
          ErrorDiv "Error generating content: Failed to fetch" |};
     {| data_step := 1; loading_bar := true; loading_text := true;
        step_content := NoContent |}] /\
  resultsDiv (example_page failure_after_resubmission) = [1] /\
  0 ∉ resultsDiv (example_page failure_after_resubmission).
Proof.
  vm_compute. split_and!; [reflexivity..|].
  intros [[=]|Hin%elem_of_nil]%elem_of_cons. done.
Qed.

(** C5 (the code departs from the claim).  The explanation asked for with
    the floating button arrives.  The loading flag is cleared and the
    script forgets its button, but a floating-button element is still a
    child of body: the clone that [replaceWith] put into the document when
    the button was shown (element 1, not displayed).  When the user had
    pressed the button, dragged off it and released the mouse before
    clicking, the button was shown a second time and its second clone
    (element 2) copied the style of the visible button: that element is
    still in the document, displayed, after the request has completed. *)
Theorem floating_button_element_survives_explanation :
  isModalLoading (example_page explanation_received) = false /\
  floatingButton (example_page explanation_received) = None /\
  bodyButtons (example_page explanation_received) = [1] /\
  buttons (example_page explanation_received) !! 1 =
    Some {| displayed := false; listeners := 0 |} /\
  isModalLoading (example_page explanation_received_after_drag) = false /\
  floatingButton (example_page explanation_received_after_drag) = None /\
  bodyButtons (example_page explanation_received_after_drag) = [1; 2] /\
  buttons (example_page explanation_received_after_drag) !! 2 =
    Some {| displayed := true; listeners := 0 |}.
Proof. vm_compute. repeat split. Qed.

(** C4 as stated fails, in four ways.
    - While the first explanation is still loading the user selects
      another term in the step card; its floating button (4) is attached,
      displayed and has its click listener, and the recorded selection is
      the new term.  Clicking it sends no request and leaves the modal
      hidden, under its old title.
    - The selected text [ Openings ], with a space on either side, is not
      what the modal is titled and the request carries: both hold the
      trimmed text.
    - Three spaces selected in the step card are a non-empty selection,
      yet no floating button comes up for them: none is held and none is
      in the document.
    - On a guide generated for a form whose subject is empty, the button
      comes up for a selected term, displayed and with its click listener,
      but clicking it sends no request and leaves the modal hidden. *)
Lemma explain_this_as_stated_fails :
  (floatingButton (example_page second_term_selected) = Some 4 /\
   4 ∈ bodyButtons (example_page second_term_selected) /\
   buttons (example_page second_term_selected) !! 4 =
     Some {| displayed := true; listeners := 1 |} /\
   currentSelection (example_page second_term_selected) = "Gambit" /\
   isModalLoading (example_page second_term_selected) = true /\
   requests (example_page second_button_clicked) =
     requests (example_page second_term_selected) /\
   modalHidden (example_page second_button_clicked) = true /\
   modalTitle (example_page second_button_clicked) = "Openings") /\
  (modalTitle (example_page explanation_requested) = "Openings" /\
   requests (example_page explanation_requested) !! 1 =
     Some {| url := "/get_component_details"; method := "POST";
             contentType := "application/json";
             body := DetailsBody "Openings" "Chess" |}) /\
  (floatingButton (example_page blank_selected) = None /\
   bodyButtons (example_page blank_selected) = []) /\
  (floatingButton (example_page no_subject_term_selected) = Some 0 /\
   0 ∈ bodyButtons (example_page no_subject_term_selected) /\
   buttons (example_page no_subject_term_selected) !! 0 =
     Some {| displayed := true; listeners := 1 |} /\
   requests (example_page no_subject_button_clicked) =
     requests (example_page no_subject_term_selected) /\
   modalHidden (example_page no_subject_button_clicked) = true).
Proof. vm_compute. repeat split; repeat constructor. Qed.

(** White space beyond ASCII is trimmed as well: a term selected with a
    no-break space on either side is recorded, titled and requested
    without them, and a selection of one no-break space is blank, so no
    button comes up for it. *)
Lemma no_break_space_is_white_space :
  requests
    (example_page
       (one_step_guide ++
        [SelectionChange (select (utf8 0xA0 +:+ "Openings" +:+ utf8 0xA0));
         MouseUp Elsewhere (select (utf8 0xA0 +:+ "Openings" +:+ utf8 0xA0));
         Click (OnButton 0)])) !! 1 =
    Some {| url := "/get_component_details"; method := "POST";
            contentType := "application/json";
            body := DetailsBody "Openings" "Chess" |} /\
  currentSelection
    (example_page
       (one_step_guide ++
        [SelectionChange (select (utf8 0xA0));
         MouseUp Elsewhere (select (utf8 0xA0))])) = "" /\
  floatingButton
    (example_page
       (one_step_guide ++
        [SelectionChange (select (utf8 0xA0));
         MouseUp Elsewhere (select (utf8 0xA0))])) = None.
Proof. vm_compute. repeat split. Qed.

(** ** The theorems above at concrete inputs *)

Lemma submission_runs_in_order_witness :
  previousResponses
    (two_step_page
       (Submit (inputs "Chess")
          :: settle_all 0 [ok_response "a"; ok_response "b"])) = ["a"; "b"] /\
  in_flight_of 0
    (two_step_page
       (Submit (inputs "Chess")
          :: settle_all 0 [ok_response "a"; ok_response "b"])) = [].
Proof.
  destruct (@submission_runs_in_order example_host (init (Some "2"))
              (inputs "Chess") 2 [ok_response "a"; ok_response "b"]
              ["a"; "b"])
    as (_ & _ & _ & Hprev & Hflight & _).
  - exists (Some "2"), []. reflexivity.
  - vm_compute. reflexivity.
  - repeat constructor.
  - simpl. lia.
  - split; [exact Hprev|exact Hflight].
Defined.

Lemma generation_failure_stops_witness :
  requests
    (@step example_host (example_page [Submit (inputs "Chess")])
       (Settle 0 (HttpResponse 500 (BodyObject (Some "overloaded") None))))
  = requests (example_page [Submit (inputs "Chess")]).
Proof.
  destruct (@generation_failure_stops example_host
              (example_page [Submit (inputs "Chess")]) 0 0
              (read_form (inputs "Chess") (VNumber (Finite 1))) 0 0
              (HttpResponse 500 (BodyObject (Some "overloaded") None)))
    as (_ & Hreq & _).
  - exists None, [Submit (inputs "Chess")]. reflexivity.
  - vm_compute. left.
  - reflexivity.
  - exact Hreq.
Defined.

Lemma explain_this_witness :
  exists b,
    requests
      (@run example_host (init None)
         (one_step_guide ++
          [SelectionChange (select " Openings ");
           MouseUp Elsewhere (select " Openings "); Click (OnButton b)]))
    = requests (example_page one_step_guide) ++
      [{| url := "/get_component_details"; method := "POST";
          contentType := "application/json";
          body := DetailsBody "Openings" "Chess" |}].
Proof.
  destruct (@explain_this example_host None one_step_guide
              (select " Openings ") Elsewhere)
    as (b & _ & _ & _ & _ & _ & Hreq & _).
  - vm_compute. discriminate.
  - reflexivity.
  - vm_compute. discriminate.
  - simpl. lia.
  - vm_compute. discriminate.
  - reflexivity.
  - reflexivity.
  - exists b. exact Hreq.
Defined.

Lemma explanation_settles_witness :
  isModalLoading
    (@step example_host (example_page explanation_requested)
       (Settle 1 (NetworkError "Failed to fetch"))) = false /\
  shows_error "Error loading content: "
    (modalContent
       (@step example_host (example_page explanation_requested)
          (Settle 1 (NetworkError "Failed to fetch")))).
Proof.
  destruct (@explanation_settles example_host
              (example_page explanation_requested) 1
              (NetworkError "Failed to fetch"))
    as (Hload & _ & _ & _ & _ & Herr).
  - exists None, explanation_requested. reflexivity.
  - vm_compute. left.
  - split; [exact Hload|]. apply Herr. reflexivity.
Defined.

Lemma handleExplanationRequest_guarded_witness :
  isModalLoading (example_page explanation_requested) = true /\
  handleExplanationRequest (example_page explanation_requested)
  = example_page explanation_requested.
Proof.
  destruct (@handleExplanationRequest_guarded example_host
              (example_page explanation_requested))
    as (Hguard & _).
  - exists None, explanation_requested. reflexivity.
  - split; [reflexivity|]. apply Hguard. right. right. reflexivity.
Defined.


(** ** The further properties at concrete inputs *)

Lemma currentSelection_never_cleared_witness :
  currentSelection
    (@run example_host (example_page term_selected)
       [SelectionChange no_selection; MouseDown Elsewhere]) <> "".
Proof.
  apply (@currentSelection_never_cleared example_host).
  vm_compute. discriminate.
Defined.

Lemma selectionchange_records_or_detaches_witness :
  floatingButton
    (@step example_host (example_page term_selected)
       (SelectionChange no_selection)) = None.
Proof.
  destruct (@selectionchange_records_or_detaches example_host
              (example_page term_selected) no_selection)
    as (_ & Hblank & _).
  - exists None, term_selected. reflexivity.
  - destruct Hblank as (_ & Hnone & _); [left; reflexivity|exact Hnone].
Defined.


Lemma createFloatingButton_removeFloatingButton_witness :
  bodyButtons
    (removeFloatingButton
       (createFloatingButton (example_page one_step_guide)).2)
  = bodyButtons (example_page one_step_guide).
Proof.
  destruct (@createFloatingButton_removeFloatingButton example_host
              (example_page one_step_guide))
    as (_ & _ & Hround).
  - exists None, one_step_guide. reflexivity.
  - destruct Hround as [Hbody _]; [reflexivity|exact Hbody].
Defined.

Lemma button_appears_only_on_mouseup_witness :
  exists t sel,
    MouseUp Elsewhere (select " Openings ") = MouseUp t sel /\
    trim (sel_text sel) <> "".
Proof.
  destruct (@button_appears_only_on_mouseup example_host
              (example_page
                 (one_step_guide ++ [SelectionChange (select " Openings ")]))
              (MouseUp Elsewhere (select " Openings ")) 0)
    as (t & sel & He & _ & Htext & _).
  - reflexivity.
  - reflexivity.
  - exists t, sel. split; [exact He|exact Htext].
Defined.


Lemma other_buttons_inert_and_stay_witness :
  @step example_host (example_page term_selected) (Click (OnButton 1))
  = example_page term_selected.
Proof.
  destruct (@other_buttons_inert_and_stay example_host
              (example_page term_selected) 1)
    as [Hclick _].
  - exists None, term_selected. reflexivity.
  - vm_compute. left.
  - vm_compute. discriminate.
  - exact Hclick.
Defined.


Lemma settle_rewrites_its_card_witness :
  let s := example_page [Submit (inputs "Chess")] in
  let o := HttpResponse 500 (BodyObject (Some "model overloaded") None) in
  cards s !! 0 = Some (createStepCard 1) /\
  cards (@step example_host s (Settle 0 o)) !! 0 = Some
    {| data_step := 1; loading_bar := true; loading_text := true;
       step_content :=
         ErrorDiv "Error generating content: model overloaded" |}.
Proof.
  intros s o.
  destruct (@settle_rewrites_its_card example_host s 0 0
              (read_form (inputs "Chess") (VNumber (Finite 1))) 0 0 o)
    as (H1 & H2 & _).
  - by exists None, [Submit (inputs "Chess")].
  - vm_compute. left.
  - split; [exact H1|exact H2].
Defined.

Lemma loop_goes_on_with_a_text_only_witness :
  let s := two_step_page [Submit (inputs "Chess")] in
  requests (@step example_host s (Settle 0 (ok_response "a0"))) =
  requests s ++
  [generateStep_request (read_form (inputs "Chess") (VString "2")) 1 ["a0"]].
Proof.
  intros s.
  pose proof (@loop_goes_on_with_a_text_only example_host s 0 0
                (read_form (inputs "Chess") (VString "2")) 0 0
                (ok_response "a0")) as Hthm.
  simpl in Hthm.
  destruct Hthm as (_ & Hreq & _).
  - by exists (Some "2"), [Submit (inputs "Chess")].
  - vm_compute. left.
  - exact Hreq.
Defined.


Lemma loading_flag_tracks_the_fetch_witness :
  let s := example_page explanation_requested in
  modalLoadingClass s = isModalLoading s /\
  (isModalLoading s = true <-> explanations_in_flight s <> []).
Proof.
  intros s.
  destruct (@loading_flag_tracks_the_fetch example_host s) as (H1 & H2 & _).
  - by exists None, explanation_requested.
  - split; [exact H1|exact H2].
Defined.

Lemma modal_opens_and_closes_on_clicks_witness :
  let s := example_page term_selected in
  modalHidden s = true /\
  modalHidden (@step example_host s (Click (OnButton 0))) = false /\
  requests (@step example_host s (Click (OnButton 0))) =
    requests s ++ [getComponentDetails_request "Openings" "Chess"].
Proof.
  intros s.
  destruct (@modal_opens_and_closes_on_clicks example_host s
              (Click (OnButton 0))) as [(Hh & _)|(Hh & Hs & b & _ & _ & Hr & _)].
  - vm_compute. discriminate.
  - vm_compute in Hh. discriminate.
  - split_and!; [exact Hh|exact Hs|exact Hr].
Defined.


Lemma results_in_creation_order_witness :
  let s := two_step_page overlapping_submissions in
  resultsDiv s = [1; 2; 3] /\ NoDup (resultsDiv s) /\
  forall c, c ∈ resultsDiv s -> c < length (cards s).
Proof.
  intros s.
  destruct (@results_in_creation_order example_host s) as (H1 & H2 & _).
  - by exists (Some "2"), overlapping_submissions.
  - split_and!; [reflexivity|exact H1|exact H2].
Defined.


Lemma nothing_generated_without_steps_witness :
  let s := @run example_host (init (Some "none"))
             [Submit (inputs "Chess"); Settle 0 (ok_response "# Openings")] in
  generate_requests s = [] /\ cards s = [] /\ currentSubject s = "Chess".
Proof.
  intros s.
  destruct (@nothing_generated_without_steps example_host (Some "none")
              [Submit (inputs "Chess"); Settle 0 (ok_response "# Openings")])
    as (H1 & H2 & _).
  - reflexivity.
  - split_and!; [exact H1|exact H2|reflexivity].
Defined.

Lemma requests_are_accounted_for_witness :
  @request_source example_host None explanation_requested
    (getComponentDetails_request "Openings" "Chess").
Proof.
  apply (@requests_are_accounted_for example_host None explanation_requested).
  vm_compute. right. left.
Defined.


Lemma settled_explanation_is_shown_witness :
  let s := example_page explanation_requested in
  let o := HttpResponse 503 (BodyObject (Some "busy") (Some "text")) in
  modalContent (@step example_host s (Settle 1 o)) =
    ErrorDiv "Error loading content: HTTP error! status: 503" /\
  modalHidden (@step example_host s (Settle 1 o)) = false.
Proof.
  intros s o.
  destruct (@settled_explanation_is_shown example_host s 1 o)
    as (Hc & _ & Hh & _).
  - by exists None, explanation_requested.
  - vm_compute. left.
  - split; [exact Hc|exact Hh].
Defined.
